(** * CoRT fine-tuning driver ([run_finetuning.py]): model and properties

    A shallow embedding of the fold splitter, the class-weight
    rearrangement, the input wrapper, the distributed mean reduction and
    the training loop of [run_finetuning.py].

    Conventions.
    - Python [int]s taken from the configuration are [Z]; counters that
      start at 0 and are only incremented ([step], [local_step],
      [num_steps]) are [nat].
    - Real-valued tensors are flat lists of exact rationals ([Qc]); the
      rounding of floating point is not part of the model of the loop.
      The reduction across replicas is also given over any arithmetic of
      the entries, binary floating point among them.
    - A Python exception is the [Raise] branch of [result]; a loop that
      never ends is the [Diverge] branch.
    - Library calls whose results the driver only passes on (the model,
      the optimizer, sklearn's fold generator, Keras' confusion metrics,
      the distribution runtime) are section variables. *)

From stdpp Require Import gmap strings list sorting numbers pretty.
From Stdlib Require Import QArith Qcanon.
From Stdlib Require Floats.SpecFloat.

Local Open Scope Z_scope.
Set Warnings "-register-all".

(** ** Python runtime: exceptions and results *)

Inductive exn :=
| ValueError (msg : string)
| TypeError (msg : string)
| KeyError (key : string)
| IndexError
| ZeroDivisionError
| InvalidArgumentError (msg : string).

Inductive result (A : Type) :=
| Ok (a : A)
| Raise (e : exn)
| Diverge.
Arguments Ok {A} a.
Arguments Raise {A} e.
Arguments Diverge {A}.

Global Instance result_ret : MRet result := λ A a, Ok a.
Global Instance result_bind : MBind result := λ A B f m,
  match m with
  | Ok a => f a
  | Raise e => Raise e
  | Diverge => Diverge
  end.
Global Instance result_fmap : FMap result := λ A B f m,
  match m with
  | Ok a => Ok (f a)
  | Raise e => Raise e
  | Diverge => Diverge
  end.

(** A [for] loop whose body may raise: the first exception ends it. *)
Fixpoint for_each {S A : Type} (body : S → A → result S) (s : S) (xs : list A)
  : result S :=
  match xs with
  | [] => Ok s
  | x :: xs' => s' ← body s x; for_each body s' xs'
  end.

(** [[f(x) for x in xs]] with a fallible [f]. *)
Fixpoint list_comp {A B : Type} (f : A → result B) (xs : list A)
  : result (list B) :=
  match xs with
  | [] => Ok []
  | x :: xs' => y ← f x; ys ← list_comp f xs'; Ok (y :: ys)
  end.

(** [enumerate(xs, start)] and [enumerate(xs)] *)
Fixpoint enumerate_from {A : Type} (start : nat) (xs : list A) : list (nat * A) :=
  match xs with
  | [] => []
  | x :: xs' => (start, x) :: enumerate_from (S start) xs'
  end.

Definition enumerate {A : Type} (xs : list A) : list (nat * A) :=
  enumerate_from 0 xs.

(** [range(lo, hi)] on Python integers. *)
Definition py_range (lo hi : Z) : list Z :=
  (λ i : nat, lo + Z.of_nat i) <$> seq 0 (Z.to_nat (hi - lo)).

(** [a // b] on Python integers. *)
Definition floordiv (a b : Z) : result Z :=
  if decide (b = 0) then Raise ZeroDivisionError else Ok (a `div` b).

(** [int(math.ceil(a / b))] for integers [a], [b]. *)
Definition ceil_div (a b : Z) : result Z :=
  if decide (b = 0) then Raise ZeroDivisionError else Ok (- ((- a) `div` b)).

(** ['{}'.format(n)] for an integer [n]. *)
Definition str_of_int (n : Z) : string := pretty n.

(** Flat real tensors. *)
Abbreviation Tensor := (list Qc).

Global Instance Qc_inhabited : Inhabited Qc := populate 0%Qc.

Definition Qc_of_nat (n : nat) : Qc := Qc_of_Z (Z.of_nat n).

Definition tensor_sum (t : Tensor) : Qc := foldr Qcplus 0%Qc t.

Lemma bind_Ok_l {X Y} (f : X → result Y) (x : X) : (y ← Ok x; f y) = f x.
Proof. reflexivity. Qed.

Lemma bind_Ok {X Y} (m : result X) (f : X → result Y) (y : Y) :
  (x ← m; f x) = Ok y ↔ ∃ x, m = Ok x ∧ f x = Ok y.
Proof.
  destruct m as [x| |]; simpl; split.
  - intros H. by exists x.
  - by intros (x' & [= <-] & H).
  - done.
  - by intros (x' & [=] & _).
  - done.
  - by intros (x' & [=] & _).
Qed.

Lemma fmap_Ok {X Y} (m : result X) (f : X → Y) (y : Y) :
  f <$> m = Ok y ↔ ∃ x, m = Ok x ∧ y = f x.
Proof.
  destruct m as [x| |]; simpl; split.
  - intros [= <-]. by exists x.
  - by intros (x' & [= <-] & ->).
  - done.
  - by intros (x' & [=] & _).
  - done.
  - by intros (x' & [=] & _).
Qed.

(** A property kept by every successful round of a loop holds at its end. *)
Lemma for_each_invariant {S X} (P : S → Prop) (body : S → X → result S) xs :
  (∀ s x s', x ∈ xs → P s → body s x = Ok s' → P s') →
  ∀ s s', P s → for_each body s xs = Ok s' → P s'.
Proof.
  induction xs as [|x xs IH]; intros Hstep s s' Hs; simpl.
  - by intros [= <-].
  - intros (s1 & H1 & H2)%bind_Ok. apply (IH (λ s0 x0 s0' Hx, Hstep s0 x0 s0' (list_elem_of_further _ _ _ Hx)) s1 s'); [|done].
    eapply Hstep; [left|exact Hs|exact H1].
Qed.

(** A loop whose rounds all go through goes through. *)
Lemma for_each_total {S X} (P : S → Prop) (body : S → X → result S) xs :
  (∀ s x, x ∈ xs → P s → ∃ s', body s x = Ok s' ∧ P s') →
  ∀ s, P s → ∃ s', for_each body s xs = Ok s' ∧ P s'.
Proof.
  induction xs as [|x xs IH]; intros Hstep s Hs; simpl.
  - by exists s.
  - destruct (Hstep s x) as (s1 & H1 & HP1); [left|done|].
    rewrite H1. simpl. apply IH; [|done].
    intros s0 x0 Hx. apply Hstep. by right.
Qed.

Lemma list_comp_Ok {A B} (f : A → result B) xs ys :
  list_comp f xs = Ok ys ↔ Forall2 (λ x y, f x = Ok y) xs ys.
Proof.
  revert ys. induction xs as [|x xs IH]; intros ys; simpl.
  - split; [intros [= <-]; constructor | by inversion 1].
  - destruct (f x) as [y| |] eqn:Hx; simpl.
    + destruct (list_comp f xs) as [ys'| |] eqn:Hxs; simpl.
      * split.
        -- intros [= <-]. constructor; [done|]. by apply IH.
        -- inversion 1 as [|? y0 ? ys0 Hy Hys]; subst.
           apply IH in Hys. congruence.
      * split; [done|]. inversion 1 as [|? y0 ? ys0 Hy Hys]; subst.
        apply IH in Hys. done.
      * split; [done|]. inversion 1 as [|? y0 ? ys0 Hy Hys]; subst.
        apply IH in Hys. done.
    + split; [done|]. inversion 1; congruence.
    + split; [done|]. inversion 1; congruence.
Qed.

Lemma list_comp_fmap_Ok {A B} (f : A → result B) (g : A → B) xs :
  Forall (λ x, f x = Ok (g x)) xs → list_comp f xs = Ok (g <$> xs).
Proof.
  induction 1 as [|x xs Hx _ IH]; simpl; [done|]. by rewrite Hx, IH.
Qed.

Lemma list_comp_total {X Y} (f : X → result Y) xs :
  Forall (λ x, ∃ y, f x = Ok y) xs → ∃ ys, list_comp f xs = Ok ys.
Proof.
  induction 1 as [|x xs [y Hy] _ [ys IH]]; simpl; [by eexists|].
  rewrite Hy, IH. by eexists.
Qed.

Lemma elem_of_py_range lo hi i : i ∈ py_range lo hi ↔ lo ≤ i < hi.
Proof.
  unfold py_range. rewrite list_elem_of_fmap. split.
  - intros (k & -> & Hk%elem_of_seq). lia.
  - intros Hi. exists (Z.to_nat (i - lo)). split; [lia|].
    apply elem_of_seq. lia.
Qed.

Lemma length_py_range lo hi : length (py_range lo hi) = Z.to_nat (hi - lo).
Proof. unfold py_range. by rewrite length_fmap, length_seq. Qed.

(** ** Class weights: [class_weight_map_fn] and the tables it is given *)

Module ClassWeight.

(** A batch of integer labels with its static shape, values in row-major
    order. The label arrays of this program are [int32] (lines 56-57 and
    the dataset signature), so the cast of line 138 leaves them as they are. *)
Record LabelTensor := { shape : list nat; values : list Z }.

(** The index batch [[i0, i1, ...]]. *)
Definition index_batch (idx : list Z) : LabelTensor :=
  {| shape := [length idx]; values := idx |}.

(** The one-hot row of class [i] among [C] classes, and the one-hot batch. *)
Definition one_hot_row (C : nat) (i : Z) : list Z :=
  (λ j : nat, if decide (Z.of_nat j = i) then 1 else 0) <$> seq 0 C.

Definition one_hot (C : nat) (idx : list Z) : LabelTensor :=
  {| shape := [length idx; C]; values := concat (one_hot_row C <$> idx) |}.

(** The rows of a rank-2 tensor of [n] rows of width [w]. *)
Fixpoint chunks (n w : nat) (vs : list Z) : list (list Z) :=
  match n with
  | O => []
  | S n' => take w vs :: chunks n' w (drop w vs)
  end.

(** [tf.argmax] of one row: the first position of the largest entry. *)
Fixpoint argmax_from (best_i : nat) (best : Z) (i : nat) (row : list Z) : nat :=
  match row with
  | [] => best_i
  | x :: row' =>
      if decide (best < x) then argmax_from i x (S i) row'
      else argmax_from best_i best (S i) row'
  end.

Definition argmax (row : list Z) : nat :=
  match row with
  | [] => O
  | x :: row' => argmax_from 0 x 1 row'
  end.

(** [tf.argmax(labels, axis=1)] on a rank-2 tensor. *)
Definition tf_argmax_axis1 (labels : LabelTensor) : list Z :=
  (λ row, Z.of_nat (argmax row)) <$>
    chunks (shape labels !!! 0%nat) (shape labels !!! 1%nat) (values labels).

(** [tf.gather(params, indices)] as the dataset pipeline runs it (on the
    host): an index outside [0, len(params)) is an error. *)
Definition gather_one (params : Tensor) (i : Z) : result Qc :=
  if decide (0 ≤ i) then
    match params !! Z.to_nat i with
    | Some w => Ok w
    | None => Raise (InvalidArgumentError "indices is not in range")
    end
  else Raise (InvalidArgumentError "indices is not in range").

Definition tf_gather (params : Tensor) (indices : list Z) : result Tensor :=
  list_comp (gather_one params) indices.

(** The condition of line 136. *)
Definition is_one_hot (labels : LabelTensor) : bool :=
  bool_decide (length (shape labels) = 2%nat) &&
  bool_decide (1 < shape labels !!! 1%nat)%nat.

(** [_rearrange_cw] (lines 133-141). *)
Definition _rearrange_cw (labels : LabelTensor) (cw_tensor : Tensor)
  : result Tensor :=
  let y_classes :=
    if is_one_hot labels then tf_argmax_axis1 labels else values labels in
  tf_gather cw_tensor y_classes.

(** [np.unique(y)]: the distinct values, ascending. *)
Definition np_unique (y : list Z) : list Z := merge_sort Z.le (remove_dups y).

(** [np.bincount] at one class: how often [c] occurs in [y]. *)
Definition occurrences (y : list Z) (c : Z) : nat :=
  length (filter (λ v, v = c) y).

(** sklearn's [compute_class_weight('balanced', classes=np.unique(y), y=y)]:
    [n_samples / (n_classes * count)] for each class, in the order of the
    classes. *)
Definition balanced_weight (y : list Z) (c : Z) : Qc :=
  (Qc_of_nat (length y) /
   (Qc_of_nat (length (np_unique y)) * Qc_of_nat (occurrences y c)))%Qc.

Definition compute_class_weight (y : list Z) : list Qc :=
  balanced_weight y <$> np_unique y.

(** [dict(enumerate(ws))] (lines 77 and 79). *)
Definition dict_enumerate (ws : list Qc) : gmap Z Qc :=
  list_to_map (imap (λ i w, (Z.of_nat i, w)) ws).

(** The class-weight table the fold splitter builds from a label column
    (lines 76-79). *)
Definition class_weight_table (y : list Z) : gmap Z Qc :=
  dict_enumerate (compute_class_weight y).

(** [sorted(cw.keys())] *)
Definition sorted_keys (cw : gmap Z Qc) : list Z :=
  merge_sort Z.le (map_to_list cw).*1.

Section CalcTensor.

(** Python's rendering of the dictionary inside the error message. *)
Variable repr_dict : gmap Z Qc → string.

Definition non_contiguous_error (cw : gmap Z Qc) : exn :=
  ValueError ("Expected `class_weight` to be a dict with keys from 0 to one less"
              +:+ "than the number of classes, found " +:+ repr_dict cw).

(** [_calc_cw_tensor] (lines 119-128). *)
Definition _calc_cw_tensor (cw : gmap Z Qc) : result Tensor :=
  let class_ids := sorted_keys cw in
  let expected_class_ids := Z.of_nat <$> seq 0 (length class_ids) in
  if decide (class_ids ≠ expected_class_ids) then Raise (non_contiguous_error cw)
  else list_comp (λ c, match cw !! c with
                       | Some w => Ok w
                       | None => Raise (KeyError (str_of_int c))
                       end) class_ids.

(** [class_weight_map_fn] (lines 118-151): both tensors are computed once,
    the function returned maps one element of the dataset to the element
    with its two weight vectors. *)
Definition class_weight_map_fn (sections_cw labels_cw : gmap Z Qc)
  : result (list (list Z) → LabelTensor * LabelTensor →
            result (list (list Z) * (LabelTensor * LabelTensor) * (Tensor * Tensor))) :=
  sections_cw_tensor ← _calc_cw_tensor sections_cw;
  labels_cw_tensor ← _calc_cw_tensor labels_cw;
  Ok (λ input_ids labels,
        let '(sections, labels) := labels in
        sec_cw ← _rearrange_cw sections sections_cw_tensor;
        cw ← _rearrange_cw labels labels_cw_tensor;
        Ok (input_ids, (sections, labels), (sec_cw, cw))).

End CalcTensor.

Example argmax_first_of_ties : argmax [0; 3; 3; 1] = 1%nat.
Proof. reflexivity. Qed.

Example unique_sorted : np_unique [5; 1; 5; 0; 1] = [0; 1; 5].
Proof. reflexivity. Qed.

(** *** Auxiliary facts *)

Lemma argmax_from_le bi best row :
  Forall (λ x, x ≤ best) row → ∀ k, argmax_from bi best k row = bi.
Proof.
  induction 1 as [|x row Hx _ IH]; intros k; simpl; [done|].
  destruct (decide (best < x)); [lia|]. apply IH.
Qed.

Lemma argmax_from_zeros bi k j rest :
  Forall (λ x, x ≤ 1) rest →
  argmax_from bi 0 k (replicate j 0 ++ 1 :: rest) = (k + j)%nat.
Proof.
  intros Hrest. revert k. induction j as [|j IH]; intros k; simpl.
  - destruct (decide (0 < 1)); [|lia]. rewrite argmax_from_le by done. lia.
  - destruct (decide (0 < 0)); [lia|]. rewrite IH. lia.
Qed.

Lemma one_hot_row_split C (i : nat) :
  (i < C)%nat →
  one_hot_row C (Z.of_nat i) = replicate i 0 ++ 1 :: replicate (C - 1 - i) 0.
Proof.
  intros Hi. unfold one_hot_row.
  replace C with (i + (1 + (C - 1 - i)))%nat at 1 by lia.
  rewrite !seq_app, !fmap_app. f_equal.
  - apply list_eq. intros j. rewrite list_lookup_fmap.
    destruct (decide (j < i)%nat) as [Hj|Hj].
    + rewrite lookup_seq_lt by done. rewrite lookup_replicate_2 by done. simpl.
      by rewrite decide_False by lia.
    + rewrite lookup_seq_ge by lia.
      by rewrite (proj1 (lookup_replicate_None _ _ _)) by lia.
  - simpl. rewrite decide_True by done. f_equal.
    apply list_eq. intros j. rewrite list_lookup_fmap.
    destruct (decide (j < C - 1 - i)%nat) as [Hj|Hj].
    + rewrite lookup_seq_lt by done. rewrite lookup_replicate_2 by done. simpl.
      by rewrite decide_False by lia.
    + rewrite lookup_seq_ge by lia.
      by rewrite (proj1 (lookup_replicate_None _ _ _)) by lia.
Qed.

Lemma length_one_hot_row C i : length (one_hot_row C i) = C.
Proof. unfold one_hot_row. by rewrite length_fmap, length_seq. Qed.

Lemma argmax_one_hot_row C (i : Z) :
  0 ≤ i < Z.of_nat C → Z.of_nat (argmax (one_hot_row C i)) = i.
Proof.
  intros Hi. rewrite <-(Z2Nat.id i) at 1 by lia.
  rewrite one_hot_row_split by lia.
  assert (Hz : ∀ n, Forall (λ x, x ≤ 1) (replicate n 0)).
  { intros n. apply Forall_replicate. lia. }
  destruct (Z.to_nat i) as [|j] eqn:Hj; simpl.
  - rewrite argmax_from_le; [lia|]. apply Forall_replicate. lia.
  - rewrite argmax_from_zeros by apply Hz. lia.
Qed.

Lemma chunks_concat w (rows : list (list Z)) :
  Forall (λ r, length r = w) rows → chunks (length rows) w (concat rows) = rows.
Proof.
  induction 1 as [|r rows Hr _ IH]; simpl; [done|].
  rewrite take_app_length', drop_app_length' by done. by rewrite IH.
Qed.

Lemma argmax_one_hot C (idx : list Z) :
  (1 < C)%nat → Forall (λ i, 0 ≤ i < Z.of_nat C) idx →
  tf_argmax_axis1 (one_hot C idx) = idx.
Proof.
  intros HC Hidx. unfold tf_argmax_axis1, one_hot. simpl.
  rewrite <-(length_fmap (one_hot_row C) idx).
  rewrite chunks_concat.
  - rewrite <-list_fmap_compose. rewrite <-(list_fmap_id idx) at 2.
    apply Forall_fmap_ext_1. eapply Forall_impl; [done|].
    intros i Hi. simpl. by apply argmax_one_hot_row.
  - apply Forall_fmap, Forall_true. intros i. apply length_one_hot_row.
Qed.

Lemma is_one_hot_one_hot C idx : (1 < C)%nat → is_one_hot (one_hot C idx) = true.
Proof.
  intros HC. unfold is_one_hot, one_hot. cbn [shape length].
  apply andb_true_iff. split; apply bool_decide_eq_true_2; [done|].
  by rewrite list_lookup_total_alt.
Qed.

Lemma gather_one_Ok params i w :
  gather_one params i = Ok w ↔ 0 ≤ i ∧ params !! Z.to_nat i = Some w.
Proof.
  unfold gather_one. destruct (decide (0 ≤ i)); [|split; [done|lia]].
  destruct (params !! Z.to_nat i); split; [intros [= <-]; done|intros [_ [= <-]]; done|done|intros [_ [=]]].
Qed.

Lemma fst_imap_enumerate (ws : list Qc) :
  (imap (λ i w, (Z.of_nat i, w)) ws).*1 = Z.of_nat <$> seq 0 (length ws).
Proof.
  apply list_eq. intros j.
  rewrite !list_lookup_fmap, list_lookup_imap.
  destruct (ws !! j) as [w|] eqn:Hj; simpl.
  - apply lookup_lt_Some in Hj as Hlt. by rewrite lookup_seq_lt.
  - apply lookup_ge_None in Hj. by rewrite lookup_seq_ge.
Qed.

Lemma NoDup_range n : NoDup (Z.of_nat <$> seq 0 n).
Proof. apply NoDup_fmap_2; [apply _|apply NoDup_seq]. Qed.

Lemma Sorted_range s n : Sorted Z.le (Z.of_nat <$> seq s n).
Proof.
  revert s. induction n as [|n IH]; intros s; simpl; [constructor|].
  constructor; [apply IH|]. destruct n; simpl; constructor. lia.
Qed.

Lemma lookup_dict_enumerate (ws : list Qc) (k : Z) :
  dict_enumerate ws !! k = if decide (0 ≤ k) then ws !! Z.to_nat k else None.
Proof.
  unfold dict_enumerate.
  assert (Hnd : NoDup (imap (λ i w, (Z.of_nat i, w)) ws).*1).
  { rewrite fst_imap_enumerate. apply NoDup_range. }
  destruct (decide (0 ≤ k)) as [Hk|Hk].
  - destruct (ws !! Z.to_nat k) as [w|] eqn:Hw.
    + apply elem_of_list_to_map_1; [done|].
      apply elem_of_lookup_imap. exists (Z.to_nat k), w. split; [f_equal; lia|done].
    + apply not_elem_of_list_to_map_1. rewrite fst_imap_enumerate.
      intros (i & -> & Hi)%list_elem_of_fmap. apply elem_of_seq in Hi.
      apply lookup_ge_None in Hw. lia.
  - apply not_elem_of_list_to_map_1. rewrite fst_imap_enumerate.
    intros (i & -> & Hi)%list_elem_of_fmap. lia.
Qed.

Lemma sorted_keys_dict_enumerate (ws : list Qc) :
  sorted_keys (dict_enumerate ws) = Z.of_nat <$> seq 0 (length ws).
Proof.
  unfold sorted_keys, dict_enumerate.
  apply (Sorted_unique Z.le).
  - apply Sorted_merge_sort. apply _.
  - apply Sorted_range.
  - rewrite merge_sort_Permutation, <-fst_imap_enumerate.
    apply fmap_Permutation, map_to_list_to_map.
    rewrite fst_imap_enumerate. apply NoDup_range.
Qed.

Lemma calc_cw_tensor_dict_enumerate repr (ws : list Qc) :
  _calc_cw_tensor repr (dict_enumerate ws) = Ok ws.
Proof.
  unfold _calc_cw_tensor. rewrite sorted_keys_dict_enumerate.
  rewrite length_fmap, length_seq. rewrite decide_False by (intros H; by apply H).
  apply list_comp_Ok.
  apply Forall2_same_length_lookup. split.
  { by rewrite length_fmap, length_seq. }
  intros i k w Hk Hw. rewrite list_lookup_fmap in Hk.
  apply lookup_lt_Some in Hw as Hlt. rewrite lookup_seq_lt in Hk by done.
  simpl in Hk. injection Hk as <-. rewrite lookup_dict_enumerate.
  rewrite decide_True by lia. by rewrite Nat2Z.id, Hw.
Qed.

Lemma elem_of_sorted_keys (cw : gmap Z Qc) (c : Z) :
  c ∈ sorted_keys cw ↔ is_Some (cw !! c).
Proof.
  unfold sorted_keys. rewrite merge_sort_Permutation, list_elem_of_fmap. split.
  - intros ([k w] & -> & Hkw%elem_of_map_to_list). by exists w.
  - intros [w Hw]. exists (c, w). split; [done|]. by apply elem_of_map_to_list.
Qed.

(** The tensor [_calc_cw_tensor] returns holds at position [c] the weight
    the table has for class [c]. *)
Lemma calc_cw_tensor_lookup repr (cw : gmap Z Qc) (t : Tensor) (c : Z) (w : Qc) :
  _calc_cw_tensor repr cw = Ok t →
  cw !! c = Some w ↔ 0 ≤ c ∧ t !! Z.to_nat c = Some w.
Proof.
  unfold _calc_cw_tensor.
  destruct (decide (sorted_keys cw ≠ _)) as [|Heq]; [done|].
  apply dec_stable in Heq. intros Hall%list_comp_Ok.
  assert (Hin : ∀ k, is_Some (cw !! k)
                     ↔ 0 ≤ k < Z.of_nat (length (sorted_keys cw))).
  { intros k. rewrite <-elem_of_sorted_keys. rewrite Heq at 1.
    rewrite list_elem_of_fmap. split.
    - intros (i & -> & Hi%elem_of_seq). lia.
    - intros Hk. exists (Z.to_nat k). split; [lia|]. apply elem_of_seq. lia. }
  assert (Hpos : ∀ i : nat, (i < length (sorted_keys cw))%nat →
                   ∃ v, t !! i = Some v ∧ cw !! Z.of_nat i = Some v).
  { intros i Hi.
    assert (Hk : sorted_keys cw !! i = Some (Z.of_nat i)).
    { rewrite Heq, list_lookup_fmap, lookup_seq_lt by done. done. }
    destruct (Forall2_lookup_l _ _ _ _ _ Hall Hk) as (v & Hv & Hcw).
    exists v. split; [done|]. by destruct (cw !! Z.of_nat i); simplify_eq. }
  pose proof (Forall2_length _ _ _ Hall) as Hlen.
  split.
  - intros Hc. assert (is_Some (cw !! c)) as Hs%Hin by by exists w.
    split; [lia|]. destruct (Hpos (Z.to_nat c)) as (v & Hv & Hcw); [lia|].
    rewrite Z2Nat.id in Hcw by lia. congruence.
  - intros [Hc Ht]. apply lookup_lt_Some in Ht as Hlt.
    destruct (Hpos (Z.to_nat c)) as (v & Hv & Hcw); [lia|].
    rewrite Z2Nat.id in Hcw by lia. congruence.
Qed.

Lemma rearrange_cw_Ok labels cw_tensor ws :
  _rearrange_cw labels cw_tensor = Ok ws ↔
  Forall2 (λ c w, 0 ≤ c ∧ cw_tensor !! Z.to_nat c = Some w)
    (if is_one_hot labels then tf_argmax_axis1 labels else values labels) ws.
Proof.
  unfold _rearrange_cw, tf_gather. cbv zeta. rewrite list_comp_Ok.
  split; intros H; eapply Forall2_impl; [exact H| |exact H|];
    intros c w; apply gather_one_Ok.
Qed.

(** *** The claims about the rearranger and the tables *)

(** C5: [_rearrange_cw] gathers the weight tensor, which holds at
    position [c] the table's weight of class [c], at each example's class
    id. A batch of rank 2 and width above 1 is reduced to class ids by the
    arg-max of each row; any other batch is read as class ids as it is. So
    a one-hot batch and the index batch it encodes get the same weights,
    and with the table {0: 2.0, 1: 0.5} both [[1,0],[0,1]] and [0,1]
    give [2.0, 0.5]. *)
Theorem rearrange_cw_gathers_per_example
  (repr : gmap Z Qc → string) (cw_tensor : Tensor) (labels : LabelTensor) :
  let class_ids :=
    if is_one_hot labels then tf_argmax_axis1 labels else values labels in
  (is_one_hot labels = true ↔
     length (shape labels) = 2%nat ∧ (1 < shape labels !!! 1%nat)%nat)
  ∧ (∀ ws, _rearrange_cw labels cw_tensor = Ok ws ↔
       Forall2 (λ c w, 0 ≤ c ∧ cw_tensor !! Z.to_nat c = Some w) class_ids ws)
  ∧ (∀ (cw : gmap Z Qc) ws,
       _calc_cw_tensor repr cw = Ok cw_tensor →
       _rearrange_cw labels cw_tensor = Ok ws ↔
       Forall2 (λ c w, cw !! c = Some w) class_ids ws)
  ∧ (Forall (λ c, 0 ≤ c < Z.of_nat (length cw_tensor)) class_ids →
       _rearrange_cw labels cw_tensor
       = Ok ((λ c, cw_tensor !!! Z.to_nat c) <$> class_ids))
  ∧ (∀ C idx, (1 < C)%nat → Forall (λ i, 0 ≤ i < Z.of_nat C) idx →
       _rearrange_cw (one_hot C idx) cw_tensor
       = _rearrange_cw (index_batch idx) cw_tensor)
  ∧ _calc_cw_tensor repr {[ 0 := 2%Qc; 1 := (1 / 2)%Qc ]} = Ok [2%Qc; (1 / 2)%Qc]
  ∧ _rearrange_cw {| shape := [2%nat; 2%nat]; values := [1; 0; 0; 1] |}
      [2%Qc; (1 / 2)%Qc] = Ok [2%Qc; (1 / 2)%Qc]
  ∧ _rearrange_cw {| shape := [2%nat]; values := [0; 1] |}
      [2%Qc; (1 / 2)%Qc] = Ok [2%Qc; (1 / 2)%Qc].
Proof.
  intros class_ids.
  split; [|split; [|split; [|split; [|split; [|split; [|split]]]]]].
  - unfold is_one_hot. rewrite andb_true_iff, !bool_decide_eq_true. done.
  - intros ws. apply rearrange_cw_Ok.
  - intros cw ws Hcw. rewrite rearrange_cw_Ok. fold class_ids.
    split; intros H; eapply Forall2_impl; [exact H| |exact H|];
      intros c w; by rewrite (calc_cw_tensor_lookup repr cw cw_tensor c w Hcw).
  - intros Hin. unfold _rearrange_cw, tf_gather. fold class_ids.
    apply list_comp_fmap_Ok. eapply Forall_impl; [exact Hin|].
    intros c Hc. simpl in Hc. apply gather_one_Ok. split; [lia|].
    apply list_lookup_lookup_total_lt. lia.
  - intros C idx HC Hidx. unfold _rearrange_cw.
    rewrite is_one_hot_one_hot by done. by rewrite argmax_one_hot.
  - vm_compute. reflexivity.
  - reflexivity.
  - reflexivity.
Qed.

(** C10: the table the fold splitter builds from a label column is
    [dict(enumerate(...))] of sklearn's balanced weights over the sorted
    distinct classes. Its keys are exactly 0..C-1 whatever class ids occur,
    so [_calc_cw_tensor] never takes its error branch on it; the weight at
    key [i] is the one of the [i]-th smallest class. When the class ids
    have gaps the gather, which indexes by class id, reads another class's
    weight or runs out of range: for labels [1, 2, 2] class 1 gets the
    weight of class 2 and class 2 is out of range. *)
Theorem splitter_tables_are_reindexed (repr : gmap Z Qc → string) (y : list Z) :
  let C := length (np_unique y) in
  sorted_keys (class_weight_table y) = Z.of_nat <$> seq 0 C
  ∧ (∀ k, is_Some (class_weight_table y !! k) ↔ 0 ≤ k < Z.of_nat C)
  ∧ _calc_cw_tensor repr (class_weight_table y) = Ok (compute_class_weight y)
  ∧ (∀ y', ∃ map_fn,
       class_weight_map_fn repr (class_weight_table y) (class_weight_table y')
       = Ok map_fn)
  ∧ (∀ i c, np_unique y !! i = Some c →
       class_weight_table y !! Z.of_nat i = Some (balanced_weight y c))
  ∧ (balanced_weight [1; 2; 2] 1 = (Qc_of_Z 3 / Qc_of_Z 2)%Qc
     ∧ balanced_weight [1; 2; 2] 2 = (Qc_of_Z 3 / Qc_of_Z 4)%Qc
     ∧ _calc_cw_tensor repr (class_weight_table [1; 2; 2])
       = Ok [(Qc_of_Z 3 / Qc_of_Z 2)%Qc; (Qc_of_Z 3 / Qc_of_Z 4)%Qc]
     ∧ _rearrange_cw (index_batch [1]) [(Qc_of_Z 3 / Qc_of_Z 2)%Qc; (Qc_of_Z 3 / Qc_of_Z 4)%Qc] = Ok [(Qc_of_Z 3 / Qc_of_Z 4)%Qc]
     ∧ _rearrange_cw (index_batch [2]) [(Qc_of_Z 3 / Qc_of_Z 2)%Qc; (Qc_of_Z 3 / Qc_of_Z 4)%Qc]
       = Raise (InvalidArgumentError "indices is not in range")).
Proof.
  intros C. unfold class_weight_table.
  assert (HC : length (compute_class_weight y) = C).
  { unfold compute_class_weight. by rewrite length_fmap. }
  split; [|split; [|split; [|split; [|split]]]].
  - by rewrite sorted_keys_dict_enumerate, HC.
  - intros k. rewrite lookup_dict_enumerate.
    destruct (decide (0 ≤ k)) as [Hk|Hk].
    + rewrite lookup_lt_is_Some, HC. lia.
    + split; [by intros [? ?]|lia].
  - apply calc_cw_tensor_dict_enumerate.
  - intros y'. unfold class_weight_map_fn, class_weight_table.
    rewrite !calc_cw_tensor_dict_enumerate. simpl. by eexists.
  - intros i c Hi. rewrite lookup_dict_enumerate, decide_True by lia.
    rewrite Nat2Z.id. unfold compute_class_weight.
    by rewrite list_lookup_fmap, Hi.
  - assert (H1 : balanced_weight [1; 2; 2] 1 = (Qc_of_Z 3 / Qc_of_Z 2)%Qc).
    { apply Qc_is_canon. reflexivity. }
    assert (H2 : balanced_weight [1; 2; 2] 2 = (Qc_of_Z 3 / Qc_of_Z 4)%Qc).
    { apply Qc_is_canon. reflexivity. }
    split; [done|]. split; [done|]. split; [|split; reflexivity].
    rewrite calc_cw_tensor_dict_enumerate. unfold compute_class_weight.
    change (np_unique [1; 2; 2]) with [1; 2]. simpl. by rewrite H1, H2.
Qed.

(** *** The table check of [_calc_cw_tensor] *)

Lemma length_sorted_keys (cw : gmap Z Qc) : length (sorted_keys cw) = size cw.
Proof.
  unfold sorted_keys.
  by rewrite merge_sort_Permutation, length_fmap, length_map_to_list.
Qed.

Lemma NoDup_sorted_keys (cw : gmap Z Qc) : NoDup (sorted_keys cw).
Proof.
  unfold sorted_keys. rewrite merge_sort_Permutation.
  apply NoDup_fst_map_to_list.
Qed.

(** The keys are exactly 0, ..., n-1 for the n entries of the table. *)
Definition contiguous (cw : gmap Z Qc) : Prop :=
  ∀ k, is_Some (cw !! k) ↔ 0 ≤ k < Z.of_nat (size cw).

Lemma sorted_keys_contiguous (cw : gmap Z Qc) :
  sorted_keys cw = Z.of_nat <$> seq 0 (length (sorted_keys cw)) ↔ contiguous cw.
Proof.
  rewrite length_sorted_keys. split.
  - intros Heq k. rewrite <-elem_of_sorted_keys, Heq, list_elem_of_fmap. split.
    + intros (i & -> & Hi%elem_of_seq). lia.
    + intros Hk. exists (Z.to_nat k). split; [lia|]. apply elem_of_seq. lia.
  - intros Hc. apply (Sorted_unique Z.le).
    + apply Sorted_merge_sort. apply _.
    + apply Sorted_range.
    + apply NoDup_Permutation; [apply NoDup_sorted_keys|apply NoDup_range|].
      intros k. rewrite elem_of_sorted_keys, (Hc k), list_elem_of_fmap. split.
      * intros Hk. exists (Z.to_nat k). split; [lia|]. apply elem_of_seq. lia.
      * intros (i & -> & Hi%elem_of_seq). lia.
Qed.

Lemma calc_cw_tensor_total repr (cw : gmap Z Qc) :
  contiguous cw → ∃ t, _calc_cw_tensor repr cw = Ok t.
Proof.
  intros Hc%sorted_keys_contiguous. unfold _calc_cw_tensor.
  rewrite decide_False by (intros H; by apply H).
  apply list_comp_total, Forall_forall. intros c [w Hw]%elem_of_sorted_keys.
  rewrite Hw. by eexists.
Qed.

(** [_calc_cw_tensor] (lines 119-128) accepts a table exactly when its
    keys are 0, ..., n-1 for the n entries it has, and then returns the
    n weights in the order of the keys. For any other table, one with a
    gap or one that does not start at 0, it raises the [ValueError] of
    line 123, whose message runs "one less" and "than" together. The
    lookup of line 128 never fails; the empty table gives the empty
    tensor. *)
Theorem calc_cw_tensor_needs_contiguous_keys
    (repr : gmap Z Qc → string) (cw : gmap Z Qc) :
  (contiguous cw →
     ∃ t, _calc_cw_tensor repr cw = Ok t
          ∧ length t = size cw
          ∧ ∀ k : nat, t !! k = cw !! Z.of_nat k)
  ∧ (¬ contiguous cw →
       _calc_cw_tensor repr cw
       = Raise (ValueError
                  ("Expected `class_weight` to be a dict with keys from 0 to one less"
                   +:+ "than the number of classes, found " +:+ repr cw)))
  ∧ (∀ key, _calc_cw_tensor repr cw ≠ Raise (KeyError key))
  ∧ _calc_cw_tensor repr ∅ = Ok []
  ∧ _calc_cw_tensor repr {[ 0 := 1%Qc; 2 := 1%Qc ]}
    = Raise (non_contiguous_error repr {[ 0 := 1%Qc; 2 := 1%Qc ]})
  ∧ _calc_cw_tensor repr {[ 1 := 1%Qc ]}
    = Raise (non_contiguous_error repr {[ 1 := 1%Qc ]}).
Proof.
  assert (Hok : contiguous cw →
     ∃ t, _calc_cw_tensor repr cw = Ok t
          ∧ length t = size cw
          ∧ ∀ k : nat, t !! k = cw !! Z.of_nat k).
  { intros Hc. destruct (calc_cw_tensor_total repr cw Hc) as [t Ht].
    assert (Hlen : length t = size cw).
    { unfold _calc_cw_tensor in Ht. destruct (decide _); [done|].
      apply list_comp_Ok, Forall2_length in Ht.
      by rewrite <-Ht, length_sorted_keys. }
    exists t. split; [done|]. split; [done|].
    intros k. destruct (cw !! Z.of_nat k) as [w|] eqn:Hw.
    - apply (calc_cw_tensor_lookup repr cw t _ w Ht) in Hw as [_ Hw].
      by rewrite Nat2Z.id in Hw.
    - apply lookup_ge_None. rewrite Hlen.
      destruct (decide (k < size cw)%nat) as [Hlt|]; [|lia].
      assert (is_Some (cw !! Z.of_nat k)) as [? ?]; [apply Hc; lia|congruence]. }
  assert (Hbad : ¬ contiguous cw →
                 _calc_cw_tensor repr cw = Raise (non_contiguous_error repr cw)).
  { intros Hn. unfold _calc_cw_tensor. rewrite decide_True; [done|].
    intros Heq. by apply Hn, sorted_keys_contiguous. }
  split; [done|]. split; [done|]. split; [|split; [|split]].
  - intros key Hkey.
    destruct (decide (sorted_keys cw
                      = Z.of_nat <$> seq 0 (length (sorted_keys cw))))
      as [Heq|Hne].
    + apply sorted_keys_contiguous, Hok in Heq as (t & Ht & _). congruence.
    + rewrite Hbad in Hkey; [done|]. by intros Hc%sorted_keys_contiguous.
  - reflexivity.
  - vm_compute. reflexivity.
  - vm_compute. reflexivity.
Qed.

(** The class ids [_rearrange_cw] reads off a batch of labels (lines
    135-139). *)
Definition class_ids_of (labels : LabelTensor) : list Z :=
  if is_one_hot labels then tf_argmax_axis1 labels else values labels.

Lemma rearrange_cw_table repr (cw : gmap Z Qc) t labels ws :
  _calc_cw_tensor repr cw = Ok t →
  _rearrange_cw labels t = Ok ws ↔
  Forall2 (λ c w, cw !! c = Some w) (class_ids_of labels) ws.
Proof.
  intros Ht. rewrite rearrange_cw_Ok. unfold class_ids_of.
  split; intros H; eapply Forall2_impl; [exact H| |exact H|];
    intros c w; by rewrite (calc_cw_tensor_lookup repr cw t c w Ht).
Qed.

(** *** The element [map_fn] returns *)

Lemma list_comp_Raise {X Y} (f : X → result Y) xs e :
  list_comp f xs = Raise e → Exists (λ x, f x = Raise e) xs.
Proof.
  induction xs as [|x xs IH]; simpl; [done|].
  destruct (f x) as [y| |] eqn:Hx; simpl; [|intros [= <-]; by left|done].
  destruct (list_comp f xs) as [ys| |]; simpl; [done| |done].
  intros [= <-]. right. by apply IH.
Qed.

Lemma list_comp_Diverge {X Y} (f : X → result Y) xs :
  list_comp f xs = Diverge → Exists (λ x, f x = Diverge) xs.
Proof.
  induction xs as [|x xs IH]; simpl; [done|].
  destruct (f x) as [y| |] eqn:Hx; simpl; [|done|by left].
  destruct (list_comp f xs) as [ys| |]; simpl; [done|done|].
  intros _. right. by apply IH.
Qed.

Lemma rearrange_cw_Raise repr (cw : gmap Z Qc) t labels e :
  _calc_cw_tensor repr cw = Ok t →
  _rearrange_cw labels t = Raise e →
  e = InvalidArgumentError "indices is not in range"
  ∧ Exists (λ c, cw !! c = None) (class_ids_of labels).
Proof.
  intros Ht He. apply list_comp_Raise in He. fold (class_ids_of labels) in He.
  apply Exists_exists in He as (c & Hc & He). unfold gather_one in He.
  assert (e = InvalidArgumentError "indices is not in range"
          ∧ ¬ (0 ≤ c ∧ is_Some (t !! Z.to_nat c))) as [-> Hno].
  { destruct (decide (0 ≤ c)); [|split; [congruence|tauto]].
    destruct (t !! Z.to_nat c); [done|].
    split; [congruence|]. by intros [_ [? ?]]. }
  split; [done|]. apply Exists_exists. exists c. split; [done|].
  destruct (cw !! c) as [w|] eqn:Hw; [|done]. exfalso. apply Hno.
  apply (calc_cw_tensor_lookup repr cw t c w Ht) in Hw as [? Hw].
  split; [done|by exists w].
Qed.

Lemma rearrange_cw_not_Diverge labels t : _rearrange_cw labels t ≠ Diverge.
Proof.
  intros H%list_comp_Diverge. apply Exists_exists in H as (c & _ & H).
  unfold gather_one in H. destruct (decide _); [|done].
  by destruct (t !! Z.to_nat c).
Qed.

(** The function [class_weight_map_fn] returns (lines 143-149) hands
    back the input ids and the two label batches as they are and adds,
    for the sections and for the labels, one weight per example: the
    weight its class has in the table. It succeeds exactly when every
    class id of the two batches is a key of its table; otherwise the
    gather fails with [InvalidArgumentError]. *)
Theorem map_fn_weighs_by_table (repr : gmap Z Qc → string)
    (sections_cw labels_cw : gmap Z Qc) map_fn
    (input_ids : list (list Z)) (sections labels : LabelTensor) :
  class_weight_map_fn repr sections_cw labels_cw = Ok map_fn →
  (∀ out,
     map_fn input_ids (sections, labels) = Ok out ↔
     ∃ sec_cw cw,
       out = (input_ids, (sections, labels), (sec_cw, cw))
       ∧ Forall2 (λ c w, sections_cw !! c = Some w) (class_ids_of sections) sec_cw
       ∧ Forall2 (λ c w, labels_cw !! c = Some w) (class_ids_of labels) cw)
  ∧ (∀ e, map_fn input_ids (sections, labels) = Raise e →
       e = InvalidArgumentError "indices is not in range"
       ∧ (Exists (λ c, sections_cw !! c = None) (class_ids_of sections)
          ∨ Exists (λ c, labels_cw !! c = None) (class_ids_of labels))).
Proof.
  unfold class_weight_map_fn. intros Hmf.
  apply bind_Ok in Hmf as (ts & Hts & Hmf).
  apply bind_Ok in Hmf as (tl & Htl & [= <-]).
  split.
  - intros out. rewrite bind_Ok. split.
    + intros (sec_cw & Hs & H). apply bind_Ok in H as (cw & Hl & [= <-]).
      exists sec_cw, cw. split; [done|].
      split; [by apply (rearrange_cw_table repr _ ts)
             |by apply (rearrange_cw_table repr _ tl)].
    + intros (sec_cw & cw & -> & Hs & Hl). exists sec_cw.
      apply (rearrange_cw_table repr _ ts) in Hs; [|done].
      apply (rearrange_cw_table repr _ tl) in Hl; [|done].
      split; [done|]. by rewrite Hl.
  - intros e He.
    destruct (_rearrange_cw sections ts) as [sec_cw| |] eqn:Hs; simpl in He.
    + destruct (_rearrange_cw labels tl) as [cw| |] eqn:Hl; simpl in He; [done| |done].
      injection He as ->.
      destruct (rearrange_cw_Raise repr _ _ _ _ Htl Hl) as [-> Hex]. auto.
    + injection He as ->.
      destruct (rearrange_cw_Raise repr _ _ _ _ Hts Hs) as [-> Hex]. auto.
    + done.
Qed.

Lemma map_fn_weighs_by_table_witness :
  ∃ map_fn,
    class_weight_map_fn (λ _, "") {[ 0 := 2%Qc; 1 := (1 / 2)%Qc ]}
      {[ 0 := 2%Qc; 1 := (1 / 2)%Qc ]} = Ok map_fn
    ∧ map_fn [[5]; [6]] (index_batch [0; 1], index_batch [1; 1])
      = Ok ([[5]; [6]], (index_batch [0; 1], index_batch [1; 1]),
            ([2%Qc; (1 / 2)%Qc], [(1 / 2)%Qc; (1 / 2)%Qc])).
Proof.
  destruct (class_weight_map_fn (λ _, "") {[ 0 := 2%Qc; 1 := (1 / 2)%Qc ]}
              {[ 0 := 2%Qc; 1 := (1 / 2)%Qc ]}) as [map_fn| |] eqn:Hmf.
  - exists map_fn. split; [reflexivity|].
    apply (map_fn_weighs_by_table _ _ _ map_fn [[5]; [6]] (index_batch [0; 1])
             (index_batch [1; 1]) Hmf).
    exists [2%Qc; (1 / 2)%Qc], [(1 / 2)%Qc; (1 / 2)%Qc].
    split; [reflexivity|]. split; repeat constructor.
  - vm_compute in Hmf. discriminate.
  - vm_compute in Hmf. discriminate.
Defined.

End ClassWeight.

(** ** The input wrapper [wrap_inputs] (lines 255-266) *)

Module Wrap.

(** An element of a dataset: a tensor or a tuple of elements. *)
Inductive PyVal (A : Type) :=
| PTensor (t : A)
| PTuple (xs : list (PyVal A)).
Arguments PTensor {A} t.
Arguments PTuple {A} xs.

(** The destructuring [(_, b) = v]. Python needs exactly two values;
    TensorFlow refuses to iterate over a symbolic tensor. *)
Definition unpack_second {A} (v : PyVal A) : result (PyVal A) :=
  match v with
  | PTuple [_; b] => Ok b
  | PTuple xs =>
      if decide (length xs < 2)%nat then
        Raise (ValueError ("not enough values to unpack (expected 2, got "
                           +:+ pretty (length xs) +:+ ")"))
      else Raise (ValueError "too many values to unpack (expected 2)")
  | PTensor _ =>
      Raise (TypeError "Iterating over a symbolic `tf.Tensor` is not allowed")
  end.

Definition arity_error (n : nat) : exn :=
  ValueError ("Number of inputs must be 2 or 3. Received " +:+ pretty n
              +:+ " instead").

(** [wrap_inputs], with [config.include_sections] as its first argument.
    The tuple [inputs] is the list of its elements. *)
Definition wrap_inputs {A} (include_sections : bool) (inputs : list (PyVal A))
  : result (list (PyVal A)) :=
  if include_sections then Ok inputs
  else
    match inputs with
    | [input_ids; sl; w] =>            (* len(inputs) == 3 *)
        labels ← unpack_second sl;
        cw ← unpack_second w;
        Ok [input_ids; labels; cw]
    | [input_ids; sl] =>               (* len(inputs) == 2 *)
        labels ← unpack_second sl;
        Ok [input_ids; labels]
    | _ => Raise (arity_error (length inputs))
    end.

Example wrap_three :
  wrap_inputs false [PTensor 1; PTuple [PTensor 2; PTensor 3];
                     PTuple [PTensor 4; PTensor 5]]
  = Ok [PTensor 1; PTensor 3; PTensor 5].
Proof. reflexivity. Qed.

Example wrap_one :
  wrap_inputs false [PTensor 1]
  = Raise (ValueError "Number of inputs must be 2 or 3. Received 1 instead").
Proof. reflexivity. Qed.

(** C9, as the claim states it, fails: with [include_sections] set the
    wrapper returns a tuple of any arity as it is, and with it unset a
    tuple of arity 2 whose second element is not a pair does not pass. *)
Lemma sections_mode_skips_arity_check :
  wrap_inputs true [PTensor 7] = Ok [PTensor 7]
  ∧ wrap_inputs true [PTensor 1; PTensor 2; PTensor 3; PTensor 4]
    = Ok [PTensor 1; PTensor 2; PTensor 3; PTensor 4]
  ∧ wrap_inputs false [PTensor 1; PTuple [PTensor 2; PTensor 3; PTensor 4]]
    = Raise (ValueError "too many values to unpack (expected 2)").
Proof. by repeat split. Qed.

(** C9 (amended): with [include_sections] unset, a tuple whose arity is
    neither 2 nor 3 raises [ValueError] with the message
    "Number of inputs must be 2 or 3. Received n instead"; a tuple
    [(ids, (sections, labels))] becomes [(ids, labels)] and a tuple
    [(ids, (sections, labels), (sec_cw, cw))] becomes [(ids, labels, cw)].
    With [include_sections] set the tuple is returned as it is, whatever
    its arity. *)
Theorem wrap_inputs_arity {A} (include_sections : bool) (inputs : list (PyVal A)) :
  (include_sections = true → wrap_inputs include_sections inputs = Ok inputs)
  ∧ (include_sections = false → length inputs ≠ 2%nat → length inputs ≠ 3%nat →
       wrap_inputs include_sections inputs
       = Raise (ValueError ("Number of inputs must be 2 or 3. Received "
                            +:+ pretty (length inputs) +:+ " instead")))
  ∧ (∀ ids s l, wrap_inputs false [ids; PTuple [s; l]] = Ok [ids; l : PyVal A])
  ∧ (∀ ids s l sc c,
       wrap_inputs false [ids; PTuple [s; l]; PTuple [sc; c]]
       = Ok [ids; l; c : PyVal A]).
Proof.
  split; [|split; [|split]].
  - by intros ->.
  - intros -> H2 H3. unfold wrap_inputs.
    by destruct inputs as [|a [|b [|c [|d l]]]].
  - done.
  - done.
Qed.

End Wrap.

(** ** The configuration fields the driver reads *)

Record Config := {
  num_k_fold : Z;
  current_fold : Z;
  seed : Z;
  batch_size : Z;
  gradient_accumulation_steps : Z;
  epochs : Z;
  initial_epoch : Z;
  num_sections : Z;
  num_labels : Z;
  dynamic_datagen : bool;
  include_sections : bool;
  distribute : bool;
  skip_early_eval : bool;
  restore_checkpoint : option string
}.

(** ** The fold splitter [splits_into_fold] (lines 61-115) *)

Module Splitter.

Import ClassWeight.

(** NumPy's [xs[indices]] for an array of indices. *)
Definition np_take {X} (xs : list X) (indices : list nat) : result (list X) :=
  list_comp (λ i, match xs !! i with
                  | Some x => Ok x
                  | None => Raise IndexError
                  end) indices.

(** What the splitter hands on as a dataset: a [CortDataGenerator] over the
    selected rows (lazy tokenization) or the selected arrays themselves. *)
Inductive Source (Row : Type) :=
| Generator (ids : list Row) (sections labels : list Z)
    (generator_steps : Z) (shuffle : bool)
| Arrays (ids : list Row) (sections labels : list Z).
Arguments Generator {Row} ids sections labels generator_steps shuffle.
Arguments Arrays {Row} ids sections labels.

Record FoldedDatasetOutput (Row : Type) := {
  training : Source Row;
  validation : Source Row;
  steps_per_epoch : Z;
  sections_cw : gmap Z Qc;
  labels_cw : gmap Z Qc
}.
Arguments training {Row} f.
Arguments validation {Row} f.
Arguments steps_per_epoch {Row} f.
Arguments sections_cw {Row} f.
Arguments labels_cw {Row} f.

(** The calls of [logging.info]. *)
Inductive LogRecord :=
| InfoLine (line : string)
| InfoWeight (prefix : string) (i : Z) (w : Qc).

(** [for i in range(n): logging.info(fmt.format(i, cw[i]))] *)
Definition log_weights (prefix : string) (n : Z) (cw : gmap Z Qc)
  : result (list LogRecord) :=
  list_comp (λ i, match cw !! i with
                  | Some w => Ok (InfoWeight prefix i w)
                  | None => Raise (KeyError (str_of_int i))
                  end) (py_range 0 n).

Definition invalid_fold_error (cfg : Config) : exn :=
  ValueError ("Invalid current fold number: " +:+ str_of_int (current_fold cfg)
              +:+ " out of total " +:+ str_of_int (num_k_fold cfg) +:+ " folds").

Section WithFoldGenerator.

Context {Row : Type}.

(** [StratifiedKFold(n_splits, shuffle=True, random_state).split(X, y)]: the
    pairs of train and validation indices it yields, or sklearn's error. *)
Variable fold_split :
  Z → Z → list Row → list Z → result (list (list nat * list nat)).

(** The body of the loop for the selected fold (lines 68-112). *)
Definition fold_body (cfg : Config) (input_ids : list Row)
  (sections labels : list Z) (train_indices valid_indices : list nat)
  : result (FoldedDatasetOutput Row * list LogRecord) :=
  train_input_ids ← np_take input_ids train_indices;
  train_sections ← np_take sections train_indices;
  train_labels ← np_take labels train_indices;
  valid_input_ids ← np_take input_ids valid_indices;
  valid_sections ← np_take sections valid_indices;
  valid_labels ← np_take labels valid_indices;
  per_batch ← floordiv (Z.of_nat (length train_input_ids)) (batch_size cfg);
  steps ← floordiv per_batch (gradient_accumulation_steps cfg);
  let sections_cw := class_weight_table train_sections in
  let labels_cw := class_weight_table train_labels in
  datasets ←
    (if dynamic_datagen cfg then
       train_steps ← floordiv (Z.of_nat (length train_input_ids)) (batch_size cfg);
       valid_steps ← ceil_div (Z.of_nat (length valid_input_ids)) (batch_size cfg);
       Ok (Generator train_input_ids train_sections train_labels train_steps true,
           Generator valid_input_ids valid_sections valid_labels valid_steps false)
     else
       Ok (Arrays train_input_ids train_sections train_labels,
           Arrays valid_input_ids valid_sections valid_labels));
  section_lines ← log_weights "  - Section #" (num_sections cfg) sections_cw;
  label_lines ← log_weights "  - Label #" (num_labels cfg) labels_cw;
  Ok ({| training := datasets.1; validation := datasets.2;
         steps_per_epoch := steps;
         sections_cw := sections_cw; labels_cw := labels_cw |},
      [InfoLine "Class weights:"; InfoLine "- Sections:"] ++ section_lines
      ++ [InfoLine "- Labels:"] ++ label_lines).

(** The loop over [enumerate(fold.split(...))] and the error after it. *)
Fixpoint fold_loop (cfg : Config) (input_ids : list Row)
  (sections labels : list Z) (splits : list (nat * (list nat * list nat)))
  : result (FoldedDatasetOutput Row * list LogRecord) :=
  match splits with
  | [] => Raise (invalid_fold_error cfg)
  | (index, (train_indices, valid_indices)) :: rest =>
      if decide (Z.of_nat index ≠ current_fold cfg)
      then fold_loop cfg input_ids sections labels rest
      else fold_body cfg input_ids sections labels train_indices valid_indices
  end.

Definition splits_into_fold (cfg : Config) (input_ids : list Row)
  (labels : list Z * list Z)
  : result (FoldedDatasetOutput Row * list LogRecord) :=
  let '(sections, labels) := labels in
  splits ← fold_split (num_k_fold cfg) (seed cfg) input_ids labels;
  fold_loop cfg input_ids sections labels (enumerate splits).

(** The rows a source was built from. *)
Definition source_rows (s : Source Row) : list Row * list Z * list Z :=
  match s with
  | Generator ids sections labels _ _ => (ids, sections, labels)
  | Arrays ids sections labels => (ids, sections, labels)
  end.

Lemma log_weights_total prefix n (y : list Z) :
  n ≤ Z.of_nat (length (np_unique y)) →
  ∃ lines, log_weights prefix n (class_weight_table y) = Ok lines.
Proof.
  intros Hn. apply list_comp_total, Forall_forall.
  intros i [Hi0 Hin]%elem_of_py_range.
  unfold class_weight_table. rewrite lookup_dict_enumerate, decide_True by done.
  destruct (compute_class_weight y !! Z.to_nat i) as [w|] eqn:Hw; [by eexists|].
  apply lookup_ge_None in Hw. unfold compute_class_weight in Hw.
  rewrite length_fmap in Hw. lia.
Qed.

Lemma fold_loop_selects cfg input_ids sections labels splits k f tr va :
  (k ≤ f)%nat → Z.of_nat f = current_fold cfg →
  splits !! (f - k)%nat = Some (tr, va) →
  fold_loop cfg input_ids sections labels (enumerate_from k splits)
  = fold_body cfg input_ids sections labels tr va.
Proof.
  revert k. induction splits as [|[tr' va'] splits IH]; intros k Hk Hf Hl; [done|].
  simpl. destruct (decide (Z.of_nat k ≠ current_fold cfg)) as [Hne|Heq].
  - assert (k < f)%nat as Hlt.
    { destruct (decide (k = f)) as [->|]; [done|lia]. }
    apply IH; [lia|done|].
    replace (f - k)%nat with (S (f - S k)) in Hl by lia. done.
  - assert (k = f) as -> by lia.
    rewrite Nat.sub_diag in Hl. simpl in Hl. by injection Hl as -> ->.
Qed.

Lemma fold_loop_invalid cfg input_ids sections labels splits k :
  (∀ i, (i < length splits)%nat → Z.of_nat (k + i) ≠ current_fold cfg) →
  fold_loop cfg input_ids sections labels (enumerate_from k splits)
  = Raise (invalid_fold_error cfg).
Proof.
  revert k. induction splits as [|[tr va] splits IH]; intros k Hne; [done|].
  simpl. rewrite decide_True.
  2:{ specialize (Hne 0%nat). rewrite Nat.add_0_r in Hne. apply Hne. simpl. lia. }
  apply IH. intros i Hi. replace (S k + i)%nat with (k + S i)%nat by lia.
  apply Hne. simpl. lia.
Qed.

Lemma fold_body_Ok cfg input_ids sections labels tr va
    tr_ids tr_sec tr_lab va_ids va_sec va_lab :
  np_take input_ids tr = Ok tr_ids → np_take sections tr = Ok tr_sec →
  np_take labels tr = Ok tr_lab →
  np_take input_ids va = Ok va_ids → np_take sections va = Ok va_sec →
  np_take labels va = Ok va_lab →
  batch_size cfg ≠ 0 → gradient_accumulation_steps cfg ≠ 0 →
  num_sections cfg ≤ Z.of_nat (length (np_unique tr_sec)) →
  num_labels cfg ≤ Z.of_nat (length (np_unique tr_lab)) →
  ∃ out log,
    fold_body cfg input_ids sections labels tr va = Ok (out, log)
    ∧ source_rows (training out) = (tr_ids, tr_sec, tr_lab)
    ∧ source_rows (validation out) = (va_ids, va_sec, va_lab)
    ∧ sections_cw out = class_weight_table tr_sec
    ∧ labels_cw out = class_weight_table tr_lab
    ∧ steps_per_epoch out
      = (Z.of_nat (length tr_ids) `div` batch_size cfg)
          `div` gradient_accumulation_steps cfg.
Proof.
  intros H1 H2 H3 H4 H5 H6 Hb Hg Hs Hl. unfold fold_body.
  rewrite H1, H2, H3, H4, H5, H6. simpl.
  unfold floordiv, ceil_div. rewrite !decide_False by done. simpl.
  rewrite decide_False by done. simpl.
  destruct (log_weights_total "  - Section #" _ _ Hs) as [sl ->].
  destruct (log_weights_total "  - Label #" _ _ Hl) as [ll ->].
  destruct (dynamic_datagen cfg); simpl; do 2 eexists; by repeat split.
Qed.

(** C8: once sklearn has produced its [num_k_fold] splits, a fold index
    inside [0, K) makes the splitter run the body of the loop on the split
    of exactly that index, and so return that split's train and validation
    rows (with the class weights of its train rows) whenever the body
    itself goes through; a fold index outside [0, K) raises [ValueError]
    with the message "Invalid current fold number: f out of total K folds". *)
Theorem fold_index_selects_split (cfg : Config) (input_ids : list Row)
    (sections labels : list Z) (splits : list (list nat * list nat)) :
  fold_split (num_k_fold cfg) (seed cfg) input_ids labels = Ok splits →
  length splits = Z.to_nat (num_k_fold cfg) →
  (0 ≤ current_fold cfg < num_k_fold cfg →
     ∃ tr va,
       splits !! Z.to_nat (current_fold cfg) = Some (tr, va)
       ∧ splits_into_fold cfg input_ids (sections, labels)
         = fold_body cfg input_ids sections labels tr va
       ∧ ∀ tr_ids tr_sec tr_lab va_ids va_sec va_lab,
           np_take input_ids tr = Ok tr_ids → np_take sections tr = Ok tr_sec →
           np_take labels tr = Ok tr_lab →
           np_take input_ids va = Ok va_ids → np_take sections va = Ok va_sec →
           np_take labels va = Ok va_lab →
           batch_size cfg ≠ 0 → gradient_accumulation_steps cfg ≠ 0 →
           num_sections cfg ≤ Z.of_nat (length (np_unique tr_sec)) →
           num_labels cfg ≤ Z.of_nat (length (np_unique tr_lab)) →
           ∃ out log,
             splits_into_fold cfg input_ids (sections, labels) = Ok (out, log)
             ∧ source_rows (training out) = (tr_ids, tr_sec, tr_lab)
             ∧ source_rows (validation out) = (va_ids, va_sec, va_lab)
             ∧ sections_cw out = class_weight_table tr_sec
             ∧ labels_cw out = class_weight_table tr_lab)
  ∧ (¬ (0 ≤ current_fold cfg < num_k_fold cfg) →
       splits_into_fold cfg input_ids (sections, labels)
       = Raise (ValueError ("Invalid current fold number: "
                            +:+ str_of_int (current_fold cfg)
                            +:+ " out of total "
                            +:+ str_of_int (num_k_fold cfg) +:+ " folds"))).
Proof.
  intros Hsplit Hlen. split.
  - intros Hf.
    destruct (splits !! Z.to_nat (current_fold cfg)) as [[tr va]|] eqn:Hl.
    2:{ apply lookup_ge_None in Hl. lia. }
    assert (Hrun : splits_into_fold cfg input_ids (sections, labels)
                   = fold_body cfg input_ids sections labels tr va).
    { unfold splits_into_fold. rewrite Hsplit. simpl.
      apply (fold_loop_selects _ _ _ _ _ 0%nat (Z.to_nat (current_fold cfg)));
        [lia|lia|]. by rewrite Nat.sub_0_r. }
    exists tr, va. split; [done|]. split; [done|].
    intros tr_ids tr_sec tr_lab va_ids va_sec va_lab H1 H2 H3 H4 H5 H6 Hb Hg Hs Hn.
    destruct (fold_body_Ok cfg input_ids sections labels tr va _ _ _ _ _ _
                H1 H2 H3 H4 H5 H6 Hb Hg Hs Hn)
      as (out & log & Hbody & Htr & Hva & Hsc & Hlc & _).
    exists out, log. by rewrite Hrun.
  - intros Hf. unfold splits_into_fold. rewrite Hsplit. simpl.
    apply (fold_loop_invalid _ _ _ _ _ 0%nat). intros i Hi. simpl. lia.
Qed.

(** *** What the body of the selected fold computes *)

Lemma np_take_Ok {X} (xs : list X) indices ys :
  np_take xs indices = Ok ys ↔ Forall2 (λ i y, xs !! i = Some y) indices ys.
Proof.
  unfold np_take. rewrite list_comp_Ok.
  split; intros H; eapply Forall2_impl; [exact H| |exact H|]; intros i y; simpl.
  - destruct (xs !! i); [by intros [= ->]|done].
  - by intros ->.
Qed.

Lemma np_take_total {X} (xs : list X) indices :
  Forall (λ i, (i < length xs)%nat) indices → ∃ ys, np_take xs indices = Ok ys.
Proof.
  intros H. apply list_comp_total. eapply Forall_impl; [exact H|].
  intros i Hi. simpl in Hi. apply lookup_lt_is_Some in Hi as [x ->]. by eexists.
Qed.

Lemma fold_loop_Ok cfg (input_ids : list Row) sections labels splits k r :
  fold_loop cfg input_ids sections labels (enumerate_from k splits) = Ok r →
  ∃ i tr va,
    splits !! i = Some (tr, va) ∧ Z.of_nat (k + i) = current_fold cfg
    ∧ fold_body cfg input_ids sections labels tr va = Ok r.
Proof.
  revert k. induction splits as [|[tr va] splits IH]; intros k; [done|].
  simpl. destruct (decide (Z.of_nat k ≠ current_fold cfg)) as [Hne|Heq].
  - intros (i & tr' & va' & Hl & Hi & Hb)%IH.
    exists (S i), tr', va'. split; [done|]. split; [lia|done].
  - intros Hb. exists 0%nat, tr, va. split; [done|].
    split; [|done]. apply dec_stable in Heq. lia.
Qed.

Lemma splits_into_fold_Ok cfg (input_ids : list Row) sections labels r :
  splits_into_fold cfg input_ids (sections, labels) = Ok r →
  ∃ splits tr va,
    fold_split (num_k_fold cfg) (seed cfg) input_ids labels = Ok splits
    ∧ 0 ≤ current_fold cfg
    ∧ splits !! Z.to_nat (current_fold cfg) = Some (tr, va)
    ∧ fold_body cfg input_ids sections labels tr va = Ok r.
Proof.
  unfold splits_into_fold. intros (splits & Hs & Hl)%bind_Ok.
  apply fold_loop_Ok in Hl as (i & tr & va & Hl & Hi & Hb).
  exists splits, tr, va. split; [done|]. split; [lia|].
  split; [|done]. by replace (Z.to_nat (current_fold cfg)) with i by lia.
Qed.

Lemma splits_into_fold_selected cfg (input_ids : list Row) sections labels
    splits tr va :
  fold_split (num_k_fold cfg) (seed cfg) input_ids labels = Ok splits →
  0 ≤ current_fold cfg →
  splits !! Z.to_nat (current_fold cfg) = Some (tr, va) →
  splits_into_fold cfg input_ids (sections, labels)
  = fold_body cfg input_ids sections labels tr va.
Proof.
  intros Hs Hf Hl. unfold splits_into_fold. rewrite Hs. simpl.
  apply (fold_loop_selects _ _ _ _ _ 0%nat (Z.to_nat (current_fold cfg)));
    [lia|lia|]. by rewrite Nat.sub_0_r.
Qed.

(** The sources of the two modes (lines 81-96). *)
Definition fold_sources (cfg : Config)
  (tr_ids : list Row) (tr_sec tr_lab : list Z)
  (va_ids : list Row) (va_sec va_lab : list Z) : Source Row * Source Row :=
  if dynamic_datagen cfg then
    (Generator tr_ids tr_sec tr_lab
       (Z.of_nat (length tr_ids) `div` batch_size cfg) true,
     Generator va_ids va_sec va_lab
       (- ((- Z.of_nat (length va_ids)) `div` batch_size cfg)) false)
  else (Arrays tr_ids tr_sec tr_lab, Arrays va_ids va_sec va_lab).

Lemma fold_body_inv cfg (input_ids : list Row) sections labels tr va out log :
  fold_body cfg input_ids sections labels tr va = Ok (out, log) →
  ∃ tr_ids tr_sec tr_lab va_ids va_sec va_lab,
    np_take input_ids tr = Ok tr_ids ∧ np_take sections tr = Ok tr_sec
    ∧ np_take labels tr = Ok tr_lab
    ∧ np_take input_ids va = Ok va_ids ∧ np_take sections va = Ok va_sec
    ∧ np_take labels va = Ok va_lab
    ∧ batch_size cfg ≠ 0 ∧ gradient_accumulation_steps cfg ≠ 0
    ∧ steps_per_epoch out
      = (Z.of_nat (length tr_ids) `div` batch_size cfg)
          `div` gradient_accumulation_steps cfg
    ∧ (training out, validation out)
      = fold_sources cfg tr_ids tr_sec tr_lab va_ids va_sec va_lab
    ∧ sections_cw out = class_weight_table tr_sec
    ∧ labels_cw out = class_weight_table tr_lab.
Proof.
  unfold fold_body. intros H.
  apply bind_Ok in H as (tr_ids & H1 & H). apply bind_Ok in H as (tr_sec & H2 & H).
  apply bind_Ok in H as (tr_lab & H3 & H). apply bind_Ok in H as (va_ids & H4 & H).
  apply bind_Ok in H as (va_sec & H5 & H). apply bind_Ok in H as (va_lab & H6 & H).
  apply bind_Ok in H as (per_batch & Hb & H). apply bind_Ok in H as (steps & Hg & H).
  apply bind_Ok in H as (datasets & Hd & H).
  apply bind_Ok in H as (sl & Hsl & H). apply bind_Ok in H as (ll & Hll & H).
  injection H as <- <-.
  unfold floordiv in Hb, Hg.
  destruct (decide (batch_size cfg = 0)) as [|Hb0]; [done|]. injection Hb as <-.
  destruct (decide (gradient_accumulation_steps cfg = 0)) as [|Hg0]; [done|].
  injection Hg as <-.
  exists tr_ids, tr_sec, tr_lab, va_ids, va_sec, va_lab.
  split; [exact H1|]. split; [exact H2|]. split; [exact H3|]. split; [exact H4|].
  split; [exact H5|]. split; [exact H6|]. split; [exact Hb0|]. split; [exact Hg0|].
  split; [reflexivity|]. split; [|split; reflexivity].
  unfold fold_sources. simpl. destruct (dynamic_datagen cfg).
  - unfold floordiv, ceil_div in Hd. rewrite !decide_False in Hd by done.
    simpl in Hd. by injection Hd as <-.
  - by injection Hd as <-.
Qed.


Lemma list_comp_Raise_at {X Y} (f : X → result Y) xs x xs' e :
  Forall (λ x, ∃ y, f x = Ok y) xs → f x = Raise e →
  list_comp f (xs ++ x :: xs') = Raise e.
Proof.
  intros Hxs Hx. induction Hxs as [|x0 xs [y Hy] _ IH]; simpl.
  - by rewrite Hx.
  - by rewrite Hy, IH.
Qed.

Lemma py_range_split lo mid hi :
  lo ≤ mid < hi → py_range lo hi = py_range lo mid ++ mid :: py_range (mid + 1) hi.
Proof.
  intros H. unfold py_range.
  replace (Z.to_nat (hi - lo))
    with (Z.to_nat (mid - lo) + S (Z.to_nat (hi - (mid + 1))))%nat by lia.
  rewrite seq_app, fmap_app. f_equal. simpl. f_equal; [lia|].
  replace (S (Z.to_nat (mid - lo))) with (S (Z.to_nat (mid - lo)) + 0)%nat by lia.
  rewrite <-fmap_add_seq, <-list_fmap_compose. apply list_fmap_ext.
  intros _ i _. simpl. lia.
Qed.

(** The log loop of lines 100-104 stops at the first class the table
    does not have, which is the number of its entries. *)
Lemma log_weights_missing prefix n (y : list Z) :
  Z.of_nat (length (np_unique y)) < n →
  log_weights prefix n (class_weight_table y)
  = Raise (KeyError (str_of_int (Z.of_nat (length (np_unique y))))).
Proof.
  intros Hn. unfold log_weights.
  rewrite (py_range_split 0 (Z.of_nat (length (np_unique y))) n) by lia.
  assert (Hlen : length (compute_class_weight y) = length (np_unique y)).
  { unfold compute_class_weight. by rewrite length_fmap. }
  apply list_comp_Raise_at.
  - apply Forall_forall. intros i [Hi0 Hin]%elem_of_py_range.
    unfold class_weight_table. rewrite lookup_dict_enumerate, decide_True by done.
    destruct (compute_class_weight y !! Z.to_nat i) as [w|] eqn:Hw; [by eexists|].
    apply lookup_ge_None in Hw. lia.
  - unfold class_weight_table. rewrite lookup_dict_enumerate, decide_True by lia.
    rewrite Nat2Z.id. by rewrite (proj2 (lookup_ge_None _ _)) by lia.
Qed.

(** The rows of a source are the rows of the arrays at given positions. *)
Definition rows_at (input_ids : list Row) (sections labels : list Z)
  (indices : list nat) (rows : list Row * list Z * list Z) : Prop :=
  Forall2 (λ i x, input_ids !! i = Some x) indices rows.1.1
  ∧ Forall2 (λ i s, sections !! i = Some s) indices rows.1.2
  ∧ Forall2 (λ i l, labels !! i = Some l) indices rows.2.

Lemma source_rows_fold_sources cfg tr_ids tr_sec tr_lab va_ids va_sec va_lab :
  source_rows (fold_sources cfg tr_ids tr_sec tr_lab va_ids va_sec va_lab).1
  = (tr_ids, tr_sec, tr_lab)
  ∧ source_rows (fold_sources cfg tr_ids tr_sec tr_lab va_ids va_sec va_lab).2
    = (va_ids, va_sec, va_lab).
Proof. unfold fold_sources. by destruct (dynamic_datagen cfg). Qed.

Lemma picked_Permutation {X} (xs : list X) indices ys :
  Forall2 (λ i y, xs !! i = Some y) indices ys →
  indices ≡ₚ seq 0 (length xs) → ys ≡ₚ xs.
Proof.
  intros Hp Hperm.
  assert (Hys : ys = omap (λ i, xs !! i) indices).
  { clear Hperm. induction Hp as [|i y indices ys Hi _ IH]; [done|].
    cbn [omap list_omap]. rewrite Hi. by f_equal. }
  rewrite Hys, Hperm. clear.
  assert (H : ∀ n, (n ≤ length xs)%nat →
                omap (λ i, xs !! i) (seq 0 n) = take n xs).
  { induction n as [|n IH]; intros Hn; [done|].
    rewrite seq_S, omap_app, IH by lia. simpl.
    destruct (xs !! n) as [x|] eqn:Hx.
    - by rewrite (take_S_r _ _ x).
    - apply lookup_ge_None in Hx. lia. }
  by rewrite H, firstn_all.
Qed.

(** *** Properties of the splitter beyond the choice of the fold *)

(** The step count of line 75: for a positive batch size and a positive
    number of accumulation steps, [steps_per_epoch] is the number of
    whole groups of [batch_size * gradient_accumulation_steps] training
    rows, so an epoch of [steps_per_epoch * gradient_accumulation_steps]
    batches needs no more rows than the training subset has and leaves
    fewer than one such group unused. *)
Theorem steps_per_epoch_counts_whole_groups (cfg : Config)
    (input_ids : list Row) (sections labels : list Z)
    (out : FoldedDatasetOutput Row) (log : list LogRecord) :
  splits_into_fold cfg input_ids (sections, labels) = Ok (out, log) →
  0 < batch_size cfg → 0 < gradient_accumulation_steps cfg →
  let n := Z.of_nat (length (source_rows (training out)).1.1) in
  let group := batch_size cfg * gradient_accumulation_steps cfg in
  steps_per_epoch out = n `div` group
  ∧ 0 ≤ steps_per_epoch out
  ∧ steps_per_epoch out * group ≤ n < (steps_per_epoch out + 1) * group.
Proof.
  intros Hrun Hb Hg n group.
  apply splits_into_fold_Ok in Hrun as (splits & tr & va & _ & _ & _ & Hbody).
  apply fold_body_inv in Hbody
    as (tr_ids & tr_sec & tr_lab & va_ids & va_sec & va_lab
        & _ & _ & _ & _ & _ & _ & _ & _ & Hsteps & Hsrc & _).
  assert (Hn : n = Z.of_nat (length tr_ids)).
  { unfold n. replace (training out) with (training out, validation out).1 by done.
    rewrite Hsrc.
    by rewrite (proj1 (source_rows_fold_sources cfg _ _ _ _ _ _)). }
  rewrite Hsteps, <-Hn, Z.div_div by lia. fold group.
  assert (0 < group) by (unfold group; lia).
  split; [done|]. split; [apply Z.div_pos; lia|].
  pose proof (Z.mul_div_le n group). pose proof (Z.mul_succ_div_gt n group). lia.
Qed.

(** A batch size of 0, or 0 accumulation steps, makes the division of
    line 75 fail: the splitter raises [ZeroDivisionError] once the rows of
    the selected fold have been picked. *)
Theorem zero_batch_size_is_a_division_error (cfg : Config)
    (input_ids : list Row) (sections labels : list Z)
    (splits : list (list nat * list nat)) (tr va : list nat) :
  fold_split (num_k_fold cfg) (seed cfg) input_ids labels = Ok splits →
  0 ≤ current_fold cfg →
  splits !! Z.to_nat (current_fold cfg) = Some (tr, va) →
  Forall (λ i, (i < length input_ids)%nat ∧ (i < length sections)%nat
               ∧ (i < length labels)%nat) (tr ++ va) →
  batch_size cfg = 0 ∨ gradient_accumulation_steps cfg = 0 →
  splits_into_fold cfg input_ids (sections, labels) = Raise ZeroDivisionError.
Proof.
  intros Hs Hf Hl Hin Hz.
  rewrite (splits_into_fold_selected _ _ _ _ _ _ _ Hs Hf Hl).
  apply Forall_app in Hin as [Htr Hva].
  destruct (np_take_total input_ids tr) as [a1 H1];
    [eapply Forall_impl; [exact Htr|]; simpl; tauto|].
  destruct (np_take_total sections tr) as [a2 H2];
    [eapply Forall_impl; [exact Htr|]; simpl; tauto|].
  destruct (np_take_total labels tr) as [a3 H3];
    [eapply Forall_impl; [exact Htr|]; simpl; tauto|].
  destruct (np_take_total input_ids va) as [a4 H4];
    [eapply Forall_impl; [exact Hva|]; simpl; tauto|].
  destruct (np_take_total sections va) as [a5 H5];
    [eapply Forall_impl; [exact Hva|]; simpl; tauto|].
  destruct (np_take_total labels va) as [a6 H6];
    [eapply Forall_impl; [exact Hva|]; simpl; tauto|].
  unfold fold_body. rewrite H1, H2, H3, H4, H5, H6. simpl. unfold floordiv.
  destruct (decide (batch_size cfg = 0)); [done|]. simpl.
  destruct (decide (gradient_accumulation_steps cfg = 0)); [done|].
  by destruct Hz.
Qed.

(** The log loops of lines 100-104 read the tables at 0, ...,
    [num_sections - 1] and 0, ..., [num_labels - 1]. A table has one entry
    for each class that occurs among the training rows, so a configured
    number of classes above that makes the splitter raise [KeyError] for
    the first key that is missing, the number of entries of the table;
    the sections are read first. *)
Theorem configured_classes_beyond_table_raise_key_error (cfg : Config)
    (input_ids : list Row) (sections labels : list Z)
    (splits : list (list nat * list nat)) (tr va : list nat)
    (tr_sec tr_lab : list Z) :
  fold_split (num_k_fold cfg) (seed cfg) input_ids labels = Ok splits →
  0 ≤ current_fold cfg →
  splits !! Z.to_nat (current_fold cfg) = Some (tr, va) →
  Forall (λ i, (i < length input_ids)%nat ∧ (i < length sections)%nat
               ∧ (i < length labels)%nat) (tr ++ va) →
  batch_size cfg ≠ 0 → gradient_accumulation_steps cfg ≠ 0 →
  np_take sections tr = Ok tr_sec → np_take labels tr = Ok tr_lab →
  let section_classes := Z.of_nat (length (np_unique tr_sec)) in
  let label_classes := Z.of_nat (length (np_unique tr_lab)) in
  (section_classes < num_sections cfg →
     splits_into_fold cfg input_ids (sections, labels)
     = Raise (KeyError (str_of_int section_classes)))
  ∧ (num_sections cfg ≤ section_classes → label_classes < num_labels cfg →
       splits_into_fold cfg input_ids (sections, labels)
       = Raise (KeyError (str_of_int label_classes))).
Proof.
  intros Hs Hf Hl Hin Hb Hg H2 H3 section_classes label_classes.
  rewrite (splits_into_fold_selected _ _ _ _ _ _ _ Hs Hf Hl).
  apply Forall_app in Hin as [Htr Hva].
  destruct (np_take_total input_ids tr) as [a1 H1];
    [eapply Forall_impl; [exact Htr|]; simpl; tauto|].
  destruct (np_take_total input_ids va) as [a4 H4];
    [eapply Forall_impl; [exact Hva|]; simpl; tauto|].
  destruct (np_take_total sections va) as [a5 H5];
    [eapply Forall_impl; [exact Hva|]; simpl; tauto|].
  destruct (np_take_total labels va) as [a6 H6];
    [eapply Forall_impl; [exact Hva|]; simpl; tauto|].
  unfold fold_body. rewrite H1, H2, H3, H4, H5, H6. simpl.
  unfold floordiv, ceil_div. rewrite !decide_False by done. simpl.
  rewrite !decide_False by done. simpl.
  assert (Hd : ∃ d : Source Row * Source Row,
    (if dynamic_datagen cfg
     then Ok (Generator a1 tr_sec tr_lab
                (Z.of_nat (length a1) `div` batch_size cfg) true,
              Generator a4 a5 a6
                (- ((- Z.of_nat (length a4)) `div` batch_size cfg)) false)
     else Ok (Arrays a1 tr_sec tr_lab, Arrays a4 a5 a6)) = Ok d).
  { destruct (dynamic_datagen cfg); by eexists. }
  destruct Hd as [d ->]. simpl. split.
  - intros Hn. by rewrite (log_weights_missing "  - Section #" _ tr_sec Hn).
  - intros Hn Hm.
    destruct (log_weights_total "  - Section #" _ _ Hn) as [sl ->]. simpl.
    by rewrite (log_weights_missing "  - Label #" _ tr_lab Hm).
Qed.

(** The same positions pick the inputs, the sections and the labels
    (lines 68-73): the rows of the training source are the rows of the
    three arrays at the train indices of the selected split, in their
    order, and likewise for the validation source. When the two index
    lists of the split are together a rearrangement of all positions, as
    a k-fold split has them, every row of the data ends up in exactly one
    of the two sources. *)
Theorem split_rows_stay_aligned (cfg : Config)
    (input_ids : list Row) (sections labels : list Z)
    (out : FoldedDatasetOutput Row) (log : list LogRecord) :
  splits_into_fold cfg input_ids (sections, labels) = Ok (out, log) →
  ∃ splits tr va,
    fold_split (num_k_fold cfg) (seed cfg) input_ids labels = Ok splits
    ∧ splits !! Z.to_nat (current_fold cfg) = Some (tr, va)
    ∧ rows_at input_ids sections labels tr (source_rows (training out))
    ∧ rows_at input_ids sections labels va (source_rows (validation out))
    ∧ (tr ++ va ≡ₚ seq 0 (length input_ids) →
       (source_rows (training out)).1.1 ++ (source_rows (validation out)).1.1
       ≡ₚ input_ids)
    ∧ (tr ++ va ≡ₚ seq 0 (length labels) →
       (source_rows (training out)).2 ++ (source_rows (validation out)).2
       ≡ₚ labels).
Proof.
  intros Hrun.
  apply splits_into_fold_Ok in Hrun as (splits & tr & va & Hs & _ & Hl & Hbody).
  apply fold_body_inv in Hbody
    as (tr_ids & tr_sec & tr_lab & va_ids & va_sec & va_lab
        & H1 & H2 & H3 & H4 & H5 & H6 & _ & _ & _ & Hsrc & _).
  exists splits, tr, va. split; [done|]. split; [done|].
  assert (Htr : training out
                 = (fold_sources cfg tr_ids tr_sec tr_lab va_ids va_sec va_lab).1)
    by by rewrite <-Hsrc.
  assert (Hva : validation out
                 = (fold_sources cfg tr_ids tr_sec tr_lab va_ids va_sec va_lab).2)
    by by rewrite <-Hsrc.
  rewrite Htr, Hva.
  destruct (source_rows_fold_sources cfg tr_ids tr_sec tr_lab va_ids va_sec va_lab)
    as [-> ->].
  apply np_take_Ok in H1, H2, H3, H4, H5, H6. simpl.
  split; [done|]. split; [done|]. split.
  - apply picked_Permutation. by apply Forall2_app.
  - apply picked_Permutation. by apply Forall2_app.
Qed.

(** In the lazy mode (lines 81-93) the training generator is given
    [len(train) // batch_size] steps and shuffles, the validation
    generator [ceil(len(valid) / batch_size)] steps and does not. For a
    positive batch size the validation steps are just enough to reach
    every validation row, and the training steps are at least the
    [steps_per_epoch * gradient_accumulation_steps] batches an epoch
    takes. In the eager mode the sources are the picked arrays. *)
Theorem lazy_sources_step_counts (cfg : Config)
    (input_ids : list Row) (sections labels : list Z)
    (out : FoldedDatasetOutput Row) (log : list LogRecord) :
  splits_into_fold cfg input_ids (sections, labels) = Ok (out, log) →
  0 < batch_size cfg → 0 < gradient_accumulation_steps cfg →
  if dynamic_datagen cfg then
    ∃ tr_ids tr_sec tr_lab train_steps va_ids va_sec va_lab valid_steps,
      training out = Generator tr_ids tr_sec tr_lab train_steps true
      ∧ validation out = Generator va_ids va_sec va_lab valid_steps false
      ∧ train_steps = Z.of_nat (length tr_ids) `div` batch_size cfg
      ∧ steps_per_epoch out * gradient_accumulation_steps cfg ≤ train_steps
      ∧ (valid_steps - 1) * batch_size cfg < Z.of_nat (length va_ids)
        ≤ valid_steps * batch_size cfg
  else
    ∃ tr_ids tr_sec tr_lab va_ids va_sec va_lab,
      training out = Arrays tr_ids tr_sec tr_lab
      ∧ validation out = Arrays va_ids va_sec va_lab.
Proof.
  intros Hrun Hb Hg.
  apply splits_into_fold_Ok in Hrun as (splits & tr & va & _ & _ & _ & Hbody).
  apply fold_body_inv in Hbody
    as (tr_ids & tr_sec & tr_lab & va_ids & va_sec & va_lab
        & _ & _ & _ & _ & _ & _ & _ & _ & Hsteps & Hsrc & _).
  unfold fold_sources in Hsrc. destruct (dynamic_datagen cfg).
  - injection Hsrc as Htr Hva.
    exists tr_ids, tr_sec, tr_lab, (Z.of_nat (length tr_ids) `div` batch_size cfg),
      va_ids, va_sec, va_lab,
      (- ((- Z.of_nat (length va_ids)) `div` batch_size cfg)).
    split; [done|]. split; [done|]. split; [done|]. split.
    + rewrite Hsteps. rewrite Z.mul_comm. apply Z.mul_div_le. lia.
    + pose proof (Z.mul_div_le (- Z.of_nat (length va_ids)) (batch_size cfg) Hb).
      pose proof (Z.mul_succ_div_gt (- Z.of_nat (length va_ids)) (batch_size cfg) Hb).
      lia.
  - injection Hsrc as Htr Hva. by exists tr_ids, tr_sec, tr_lab, va_ids, va_sec, va_lab.
Qed.

End WithFoldGenerator.

(** A two-fold run over three rows, second fold selected. *)
Definition two_folds (_ _ : Z) (_ : list nat) (_ : list Z)
  : result (list (list nat * list nat)) :=
  Ok [([1%nat; 2%nat], [0%nat]); ([0%nat; 2%nat], [1%nat])].

Definition demo_config : Config :=
  {| num_k_fold := 2; current_fold := 1; seed := 42; batch_size := 1;
     gradient_accumulation_steps := 1; epochs := 1; initial_epoch := 0;
     num_sections := 1; num_labels := 2; dynamic_datagen := false;
     include_sections := false; distribute := false; skip_early_eval := false;
     restore_checkpoint := None |}.

Example demo_split :
  (λ r, source_rows (training r.1)) <$>
    splits_into_fold two_folds demo_config [10%nat; 11%nat; 12%nat] ([0; 0; 0], [0; 1; 1])
  = Ok ([10%nat; 12%nat], [0; 0], [0; 1]).
Proof. reflexivity. Qed.

Lemma fold_index_selects_split_witness :
  two_folds (num_k_fold demo_config) (seed demo_config)
      [10%nat; 11%nat; 12%nat] [0; 1; 1]
    = Ok [([1%nat; 2%nat], [0%nat]); ([0%nat; 2%nat], [1%nat])]
  ∧ length [([1%nat; 2%nat], [0%nat]); ([0%nat; 2%nat], [1%nat])]
    = Z.to_nat (num_k_fold demo_config)
  ∧ 0 ≤ current_fold demo_config < num_k_fold demo_config
  ∧ ∃ out log,
      splits_into_fold two_folds demo_config [10%nat; 11%nat; 12%nat]
        ([0; 0; 0], [0; 1; 1]) = Ok (out, log)
      ∧ source_rows (training out) = ([10%nat; 12%nat], [0; 0], [0; 1])
      ∧ source_rows (validation out) = ([11%nat], [0], [1]).
Proof.
  split; [reflexivity|]. split; [reflexivity|]. split; [simpl; lia|].
  destruct (fold_index_selects_split two_folds demo_config
              [10%nat; 11%nat; 12%nat] [0; 0; 0] [0; 1; 1] _ eq_refl eq_refl)
    as [Hin _].
  destruct Hin as (tr & va & Hl & _ & Hok); [simpl; lia|].
  simpl in Hl. injection Hl as <- <-.
  destruct (Hok [10%nat; 12%nat] [0; 0] [0; 1] [11%nat] [0] [1])
    as (out & log & Hrun & Htr & Hva & _);
    [reflexivity|reflexivity|reflexivity|reflexivity|reflexivity|reflexivity
    |simpl; lia|simpl; lia|vm_compute; discriminate|vm_compute; discriminate|].
  exists out, log. split; [exact Hrun|]. split; [exact Htr|exact Hva].
Defined.

(** Three rows split in two folds: the second fold trains on rows 0 and 2. *)
Definition split_config (batch_size gradient_accumulation_steps num_labels : Z)
    (dynamic_datagen : bool) : Config :=
  {| num_k_fold := 2; current_fold := 1; seed := 42; batch_size := batch_size;
     gradient_accumulation_steps := gradient_accumulation_steps;
     epochs := 1; initial_epoch := 0;
     num_sections := 1; num_labels := num_labels;
     dynamic_datagen := dynamic_datagen;
     include_sections := false; distribute := false; skip_early_eval := false;
     restore_checkpoint := None |}.

Lemma steps_per_epoch_counts_whole_groups_witness :
  ∃ out log,
    splits_into_fold two_folds (split_config 1 2 2 false)
      [10%nat; 11%nat; 12%nat] ([0; 0; 0], [0; 1; 1]) = Ok (out, log)
    ∧ steps_per_epoch out = 1.
Proof.
  destruct (splits_into_fold two_folds (split_config 1 2 2 false)
              [10%nat; 11%nat; 12%nat] ([0; 0; 0], [0; 1; 1]))
    as [[out log]| |] eqn:Hrun.
  - exists out, log. split; [reflexivity|].
    destruct (steps_per_epoch_counts_whole_groups two_folds _ _ _ _ out log Hrun)
      as (Hsteps & _); [simpl; lia|simpl; lia|].
    rewrite Hsteps.
    apply splits_into_fold_Ok in Hrun as (splits & tr & va & Hs & _ & Hl & Hbody).
    injection Hs as <-. simpl in Hl. injection Hl as <- <-.
    apply fold_body_inv in Hbody
      as (tr_ids & ? & ? & ? & ? & ? & H1 & _ & _ & _ & _ & _ & _ & _ & _ & Hsrc & _).
    injection H1 as <-. simpl in Hsrc. injection Hsrc as -> _. reflexivity.
  - vm_compute in Hrun. discriminate.
  - vm_compute in Hrun. discriminate.
Defined.

Lemma zero_batch_size_is_a_division_error_witness :
  splits_into_fold two_folds (split_config 0 1 2 false)
    [10%nat; 11%nat; 12%nat] ([0; 0; 0], [0; 1; 1]) = Raise ZeroDivisionError.
Proof.
  apply (zero_batch_size_is_a_division_error two_folds (split_config 0 1 2 false)
           [10%nat; 11%nat; 12%nat] [0; 0; 0] [0; 1; 1] _ [0%nat; 2%nat] [1%nat]
           eq_refl).
  - simpl. lia.
  - reflexivity.
  - repeat constructor.
  - by left.
Defined.

Lemma configured_classes_beyond_table_raise_key_error_witness :
  splits_into_fold two_folds (split_config 1 1 3 false)
    [10%nat; 11%nat; 12%nat] ([0; 0; 0], [0; 1; 1]) = Raise (KeyError "2").
Proof.
  refine (proj2 (configured_classes_beyond_table_raise_key_error two_folds
                   (split_config 1 1 3 false)
                   [10%nat; 11%nat; 12%nat] [0; 0; 0] [0; 1; 1] _
                   [0%nat; 2%nat] [1%nat] [0; 0] [0; 1] eq_refl _ eq_refl _ _ _
                   eq_refl eq_refl) _ _).
  - simpl. lia.
  - repeat constructor.
  - simpl. lia.
  - simpl. lia.
  - vm_compute. discriminate.
  - vm_compute. reflexivity.
Defined.

Lemma split_rows_stay_aligned_witness :
  ∃ out log,
    splits_into_fold two_folds (split_config 1 1 2 false)
      [10%nat; 11%nat; 12%nat] ([0; 0; 0], [0; 1; 1]) = Ok (out, log)
    ∧ (source_rows (training out)).1.1 ++ (source_rows (validation out)).1.1
      ≡ₚ [10%nat; 11%nat; 12%nat].
Proof.
  destruct (splits_into_fold two_folds (split_config 1 1 2 false)
              [10%nat; 11%nat; 12%nat] ([0; 0; 0], [0; 1; 1]))
    as [[out log]| |] eqn:Hrun.
  - exists out, log. split; [reflexivity|].
    destruct (split_rows_stay_aligned two_folds _ _ _ _ out log Hrun)
      as (splits & tr & va & Hs & Hl & _ & _ & Hperm & _).
    injection Hs as <-. simpl in Hl. injection Hl as <- <-.
    apply Hperm. simpl. apply perm_skip, perm_swap.
  - vm_compute in Hrun. discriminate.
  - vm_compute in Hrun. discriminate.
Defined.

Lemma lazy_sources_step_counts_witness :
  ∃ out log tr_ids tr_sec tr_lab va_ids va_sec va_lab,
    splits_into_fold two_folds (split_config 2 1 2 true)
      [10%nat; 11%nat; 12%nat] ([0; 0; 0], [0; 1; 1]) = Ok (out, log)
    ∧ training out = Generator tr_ids tr_sec tr_lab 1 true
    ∧ validation out = Generator va_ids va_sec va_lab 1 false.
Proof.
  destruct (splits_into_fold two_folds (split_config 2 1 2 true)
              [10%nat; 11%nat; 12%nat] ([0; 0; 0], [0; 1; 1]))
    as [[out log]| |] eqn:Hrun.
  - pose proof (lazy_sources_step_counts two_folds _ _ _ _ out log Hrun) as H.
    simpl in H.
    destruct H as (tr_ids & tr_sec & tr_lab & ts & va_ids & va_sec & va_lab & vs
                   & Htr & Hva & Hts & _ & Hvs); [lia|lia|].
    exists out, log, tr_ids, tr_sec, tr_lab, va_ids, va_sec, va_lab.
    split; [reflexivity|].
    apply splits_into_fold_Ok in Hrun as (splits & tr & va & Hs & _ & Hl & Hbody).
    injection Hs as <-. simpl in Hl. injection Hl as <- <-.
    apply fold_body_inv in Hbody
      as (a1 & ? & ? & a4 & ? & ? & H1 & _ & _ & H4 & _ & _ & _ & _ & _ & Hsrc & _).
    injection H1 as <-. injection H4 as <-. simpl in Hsrc.
    rewrite Htr, Hva in Hsrc. injection Hsrc as -> -> -> -> -> -> -> ->.
    split; [rewrite Htr|rewrite Hva]; reflexivity.
  - vm_compute in Hrun. discriminate.
  - vm_compute in Hrun. discriminate.
Defined.

End Splitter.

(** ** The training loop [run_train] (lines 154-393) *)

Module Train.

Import Wrap.

(** *** Tensors and the reduction across replicas *)

Definition tensor_add (a b : Tensor) : Tensor := zip_with Qcplus a b.

Definition tensor_div (a : Tensor) (d : Qc) : Tensor := (λ x, x / d)%Qc <$> a.

Definition zeros_like (a : Tensor) : Tensor := (λ _, 0%Qc) <$> a.

Inductive ReduceOp := SUM | MEAN.

(** [strategy.reduce(op, value, axis=None)]: [value] holds one tensor per
    replica; they are added, and for [MEAN] divided by their number. *)
Definition strategy_reduce (op : ReduceOp) (value : list Tensor) : Tensor :=
  let total :=
    match value with
    | [] => []
    | v :: vs => foldl tensor_add v vs
    end in
  match op with
  | SUM => total
  | MEAN => tensor_div total (Qc_of_nat (length value))
  end.

(** [strategy_reduce_mean] (lines 248-253). *)
Definition strategy_reduce_mean (unscaled_loss : list Tensor)
  (outputs : gmap string (list Tensor)) : Tensor * gmap string Tensor :=
  let features := strategy_reduce MEAN <$> outputs in
  let unscaled_loss := strategy_reduce MEAN unscaled_loss in
  (unscaled_loss, features).

(** *** The arithmetic of the entries

    TensorFlow's tensors hold binary floating-point numbers, which
    [strategy.reduce] adds and divides with rounding. [Entries] is the
    arithmetic the reduction needs, and [strategy_reduce_in] is
    [strategy_reduce] over any such arithmetic. *)
Class Entries (F : Type) : Type := {
  entry_add : F → F → F;
  entry_div : F → F → F;
  entry_of_nat : nat → F
}.

Definition strategy_reduce_in {F : Type} `{Entries F}
  (op : ReduceOp) (value : list (list F)) : list F :=
  let total :=
    match value with
    | [] => []
    | v :: vs => foldl (zip_with entry_add) v vs
    end in
  match op with
  | SUM => total
  | MEAN => (λ x, entry_div x (entry_of_nat (length value))) <$> total
  end.

(** The exact arithmetic of the development. *)
Global Instance exact_entries : Entries Qc :=
  {| entry_add := Qcplus; entry_div := Qcdiv; entry_of_nat := Qc_of_nat |}.

(** IEEE 754 binary floating point with [prec] bits of precision and
    exponents below [emax], rounding to nearest, ties to even. *)
Definition float_entries (prec emax : Z) : Entries SpecFloat.spec_float :=
  {| entry_add := SpecFloat.SFadd prec emax;
     entry_div := SpecFloat.SFdiv prec emax;
     entry_of_nat n :=
       SpecFloat.binary_normalize prec emax (Z.of_nat n) 0 false |}.

(** [tf.float32] and [tf.float64]. *)
Definition binary32 : Entries SpecFloat.spec_float := float_entries 24 128.
Definition binary64 : Entries SpecFloat.spec_float := float_entries 53 1024.

(** The float [p / q] of a format. *)
Definition float_ratio (E : Entries SpecFloat.spec_float) (p q : nat)
  : SpecFloat.spec_float :=
  @entry_div _ E (@entry_of_nat _ E p) (@entry_of_nat _ E q).

(** *** The gradient accumulator *)

(** Modelled from the spec: the [GradientAccumulator] of
    [cort.optimization], which is not among the sources. Per section 4.1 it
    keeps one running sum per parameter, [None] standing for a parameter
    without gradient; accumulating adds each incoming gradient to its sum,
    position by position; resetting zeroes every sum; a gradient sequence
    that does not line up with the sums is a fatal error. Before the first
    call there are no sums yet, and the first gradients become the sums. *)
Definition add_gradient (sg : option Tensor * option Tensor)
  : result (option Tensor) :=
  match sg with
  | (Some s, Some g) =>
      if decide (length s = length g) then Ok (Some (tensor_add s g))
      else Raise (ValueError "gradient does not match its accumulated sum")
  | (s, _) => Ok s
  end.

(** Modelled from the spec: [accumulate(gradients)] of the same
    [GradientAccumulator] (section 4.1), on the running sums [sums]. *)
Definition accumulate (sums grads : list (option Tensor))
  : result (list (option Tensor)) :=
  if decide (sums = []) then Ok grads
  else if decide (length sums ≠ length grads) then
    Raise (ValueError "gradients do not match the accumulated sums")
  else list_comp add_gradient (zip sums grads).

(** Modelled from the spec: [reset()] of the same [GradientAccumulator]
    (section 4.1): every running sum becomes zero. *)
Definition accumulator_reset (sums : list (option Tensor))
  : list (option Tensor) :=
  (λ s : option Tensor, zeros_like <$> s) <$> sums.

(** *** Dictionaries and events *)

(** [d[key]] *)
Definition dict_get {X} (d : gmap string X) (key : string) : result X :=
  match d !! key with
  | Some x => Ok x
  | None => Raise (KeyError key)
  end.

(** The metric classes of Keras and TensorFlow Addons other than [Mean]. *)
Inductive LibKind :=
| CategoricalAccuracy
| Precision
| Recall
| F1Score (num_classes : Z) (average : string).

(** What the loop does to the outside: the calls of [wandb.log], of the
    callback list, of the progress bar, of [print] and of [logging.info]. *)
Inductive Event :=
| WandbLog (logs : gmap string Qc) (step : nat)
| OnTestBegin
| OnTestBatchBegin (index : nat)
| OnTestBatchEnd (index : nat) (logs : gmap string Qc)
| OnTestEnd (logs : gmap string Qc)
| OnTrainBegin
| OnEpochBegin (epoch : Z)
| OnTrainBatchBegin (batch : nat)
| OnTrainBatchEnd (batch : nat) (logs : gmap string Qc)
| OnEpochEnd (epoch : Z) (logs : gmap string Qc)
| OnTrainEnd (logs : option (gmap string Qc))
| ProgbarUpdate (current : Z) (values : gmap string Qc) (finalize : bool)
| Printed (text : string)
| LoggingInfo (text : string).

(** [{'val_' + key: value for key, value in logs.items()}] *)
Definition val_prefix (key : string) : string := "val_" +:+ key.

Definition with_val_prefix (logs : gmap string Qc) : gmap string Qc :=
  kmap val_prefix logs.

(** A validation log is a [wandb.log] of [val_]-prefixed metrics, a
    training batch log one of the metrics under their own names, and the
    learning rate is logged on its own. *)
Definition is_val_log (e : Event) : bool :=
  match e with
  | WandbLog logs _ => bool_decide (is_Some (logs !! "val_total_loss"))
  | _ => false
  end.

Definition is_batch_log (e : Event) : bool :=
  match e with
  | WandbLog logs _ => bool_decide (is_Some (logs !! "total_loss"))
  | _ => false
  end.

Definition is_learning_rate_log (e : Event) : bool :=
  match e with
  | WandbLog logs _ => bool_decide (is_Some (logs !! "learning_rate"))
  | _ => false
  end.

Definition count_events (p : Event → bool) (es : list Event) : nat :=
  length (filter (λ e, p e = true) es).

Section Loop.

(** The tensors inside the elements of the datasets. *)
Context {A : Type}.

(** The model's variables together with the optimizer's, and the state of
    a library metric. *)
Variables (Weights LibState : Type).

(** Lines 155-165: the model that is built (with the checkpoint restored
    when one is configured) and the optimizer made for the given number of
    training steps. *)
Variable build : Config → Z → Weights.

(** [model(inputs, training)]: the total loss and the named outputs. *)
Variable model : Weights → list (PyVal A) → bool → Tensor * gmap string Tensor.

(** [tape.gradient(total_loss, model.trainable_variables)] *)
Variable tape_gradient : Weights → list (PyVal A) → list (option Tensor).

(** [tf.clip_by_global_norm(gradients, clip_norm)], first component. *)
Variable clip_by_global_norm : list (option Tensor) → Qc → list (option Tensor).

(** [optimizer.apply_gradients(zip(gradients, model.trainable_variables))] *)
Variable apply_gradients : Weights → list (option Tensor) → Weights.

Variable learning_rate_fn : nat → Qc.

(** Keras' [CategoricalAccuracy], [Precision], [Recall] and the [F1Score]
    of TensorFlow Addons: the state of a metric just built, which is also
    the state after [reset_state()], its update and its result. *)
Variable lib_init : LibKind → LibState.
Variable lib_update : LibKind → LibState → Tensor → Tensor → LibState.
Variable lib_result : LibKind → LibState → Qc.

(** *** The state of the loop *)

(** What a training step reads and writes: the variables, the running
    gradient sums and [optimizer.iterations], the number of updates
    applied so far. *)
Record TrainState := {
  weights : Weights;
  accumulator : list (option Tensor);
  iterations : nat
}.

(** [strategy.run(train_step, ...)] and [strategy.run(test_step, ...)]:
    the distribution runtime runs the step on every replica and hands
    back one loss and one value per named output for each replica. *)
Variable strategy_run_train_step :
  TrainState → list (PyVal A) → bool →
  result (TrainState * (list Tensor * gmap string (list Tensor))).
Variable strategy_run_test_step :
  Weights → list (PyVal A) → result (list Tensor * gmap string (list Tensor)).

Inductive Metric :=
| Mean (total count : Qc)
| Lib (kind : LibKind) (s : LibState).

Record State := {
  train_state : TrainState;
  num_steps : nat;
  local_step : nat;
  train_metrics : gmap string Metric;      (* metric_maps['train'] *)
  valid_metrics : gmap string Metric;      (* metric_maps['valid'] *)
  training_logs : option (gmap string Qc);
  pulled : nat;              (* elements taken from the training source *)
  events : list Event
}.

Definition emit (e : Event) (st : State) : State :=
  {| train_state := train_state st; num_steps := num_steps st;
     local_step := local_step st; train_metrics := train_metrics st;
     valid_metrics := valid_metrics st; training_logs := training_logs st;
     pulled := pulled st; events := events st ++ [e] |}.

Definition emit_if (b : bool) (e : Event) (st : State) : State :=
  if b then emit e st else st.

Definition set_train_state (ts : TrainState) (st : State) : State :=
  {| train_state := ts; num_steps := num_steps st;
     local_step := local_step st; train_metrics := train_metrics st;
     valid_metrics := valid_metrics st; training_logs := training_logs st;
     pulled := pulled st; events := events st |}.

Definition set_train_metrics (m : gmap string Metric) (st : State) : State :=
  {| train_state := train_state st; num_steps := num_steps st;
     local_step := local_step st; train_metrics := m;
     valid_metrics := valid_metrics st; training_logs := training_logs st;
     pulled := pulled st; events := events st |}.

Definition set_valid_metrics (m : gmap string Metric) (st : State) : State :=
  {| train_state := train_state st; num_steps := num_steps st;
     local_step := local_step st; train_metrics := train_metrics st;
     valid_metrics := m; training_logs := training_logs st;
     pulled := pulled st; events := events st |}.

(** *** The metric registry (lines 169-232 and 331-334) *)

Definition f1_score (num_classes : Z) (average : string) : Metric :=
  Lib (F1Score num_classes average) (lib_init (F1Score num_classes average)).

Definition create_metric_map (cfg : Config) : gmap string Metric :=
  let metric_map : gmap string Metric :=
    <["macro_f1_score" := f1_score (num_labels cfg) "macro"]>
    (<["micro_f1_score" := f1_score (num_labels cfg) "micro"]>
    (<["recall" := Lib Recall (lib_init Recall)]>
    (<["precision" := Lib Precision (lib_init Precision)]>
    (<["accuracy" := Lib CategoricalAccuracy (lib_init CategoricalAccuracy)]>
    (<["cross_entropy_loss" := Mean 0 0]>
    (<["contrastive_loss" := Mean 0 0]>
    (<["total_loss" := Mean 0 0]> ∅))))))) in
  if include_sections cfg then
    <["section_macro_f1_score" := f1_score (num_sections cfg) "macro"]>
    (<["section_micro_f1_score" := f1_score (num_sections cfg) "micro"]>
    (<["section_recall" := Lib Recall (lib_init Recall)]>
    (<["section_precision" := Lib Precision (lib_init Precision)]>
    (<["section_accuracy" :=
         Lib CategoricalAccuracy (lib_init CategoricalAccuracy)]>
    (<["section_cross_entropy_loss" := Mean 0 0]>
    (<["section_contrastive_loss" := Mean 0 0]> metric_map))))))
  else metric_map.

(** [metric.update_state(values)] of a [Mean]: the sum and the number of
    the values are added to its two variables. *)
Definition update_mean (values : Tensor) (m : Metric) : result Metric :=
  match m with
  | Mean total count =>
      Ok (Mean (total + tensor_sum values) (count + Qc_of_nat (length values)))
  | Lib _ _ => Raise (TypeError "update_state() missing arguments")
  end.

(** [metric.update_state(y_true=..., y_pred=...)] *)
Definition update_confusion (y_true y_pred : Tensor) (m : Metric)
  : result Metric :=
  match m with
  | Lib kind s => Ok (Lib kind (lib_update kind s y_true y_pred))
  | Mean _ _ => Raise (TypeError "update_state() got an unexpected keyword")
  end.

(** [metric.reset_state()] *)
Definition reset_state (m : Metric) : Metric :=
  match m with
  | Mean _ _ => Mean 0 0
  | Lib kind _ => Lib kind (lib_init kind)
  end.

(** [metric.result()]; the mean of no value at all is 0. *)
Definition metric_result (m : Metric) : Qc :=
  match m with
  | Mean total count => (total / count)%Qc
  | Lib kind s => lib_result kind s
  end.

(** [dicts[key].update_state(d[name])] *)
Definition update_mean_from (d : gmap string Tensor) (name : string)
  (dicts : gmap string Metric) (key : string) : result (gmap string Metric) :=
  m ← dict_get dicts key;
  values ← dict_get d name;
  m' ← update_mean values m;
  Ok (<[key := m']> dicts).

(** [dicts[key].update_state(y_true=d[true_name], y_pred=d[pred_name])] *)
Definition update_confusion_from (d : gmap string Tensor)
  (true_name pred_name : string)
  (dicts : gmap string Metric) (key : string) : result (gmap string Metric) :=
  m ← dict_get dicts key;
  y_true ← dict_get d true_name;
  y_pred ← dict_get d pred_name;
  m' ← update_confusion y_true y_pred m;
  Ok (<[key := m']> dicts).

Definition confusion_keys : list string :=
  ["accuracy"; "precision"; "recall"; "micro_f1_score"; "macro_f1_score"].

(** [metric_fn] (lines 199-220). *)
Definition metric_fn (cfg : Config) (dicts : gmap string Metric)
  (model_outputs : gmap string Tensor) : result (gmap string Metric) :=
  let d := model_outputs in
  dicts ← update_mean_from d "contrastive_loss" dicts "contrastive_loss";
  dicts ← update_mean_from d "cross_entropy_loss" dicts "cross_entropy_loss";
  dicts ← for_each (update_confusion_from d "ohe_labels" "probs")
            dicts confusion_keys;
  if include_sections cfg then
    dicts ← update_mean_from d "section_contrastive_loss"
              dicts "section_contrastive_loss";
    dicts ← update_mean_from d "section_cross_entropy_loss"
              dicts "section_cross_entropy_loss";
    for_each (update_confusion_from d "section_ohe_labels" "section_probs")
      dicts ((λ key, "section_" +:+ key) <$> confusion_keys)
  else Ok dicts.

(** [metric_maps[split]['total_loss'].update_state(values=loss)] followed
    by [metric_fn(metric_maps[split], outputs)]. *)
Definition assign_new_metrics (cfg : Config) (dicts : gmap string Metric)
  (loss : Tensor) (outputs : gmap string Tensor)
  : result (gmap string Metric) :=
  m ← dict_get dicts "total_loss";
  m' ← update_mean loss m;
  metric_fn cfg (<["total_loss" := m']> dicts) outputs.

(** [create_metric_logs] (lines 222-227). *)
Definition create_metric_logs (dicts : gmap string Metric) : gmap string Qc :=
  metric_result <$> dicts.

(** [reset_metrics] (lines 331-334): every metric of both registries. *)
Definition reset_metrics (st : State) : State :=
  set_valid_metrics (reset_state <$> valid_metrics st)
    (set_train_metrics (reset_state <$> train_metrics st) st).

(** *** The steps (lines 268-306) *)

(** [train_step]. For [gradient_accumulation_steps = 0] TensorFlow divides
    by a float zero; the loop never gets there, since it then takes no
    batch at all. *)
Definition train_step (cfg : Config) (ts : TrainState)
  (inputs : list (PyVal A)) (take_step : bool)
  : result (TrainState * (Tensor * gmap string Tensor)) :=
  wrapped ← wrap_inputs (include_sections cfg) inputs;
  let '(total_loss, outputs) := model (weights ts) wrapped true in
  let unscaled_loss := total_loss in
  let grads := tape_gradient (weights ts) wrapped in
  sums ← accumulate (accumulator ts) grads;
  if take_step then
    let reduced_accumulated_gradients :=
      (λ g : option Tensor,
         (λ t, tensor_div t (Qc_of_Z (gradient_accumulation_steps cfg))) <$> g)
      <$> sums in
    let clipped_accumulated_gradients :=
      clip_by_global_norm reduced_accumulated_gradients 1%Qc in
    Ok ({| weights := apply_gradients (weights ts) clipped_accumulated_gradients;
           accumulator := accumulator_reset sums;
           iterations := S (iterations ts) |},
        (unscaled_loss, outputs))
  else
    Ok ({| weights := weights ts; accumulator := sums;
           iterations := iterations ts |},
        (unscaled_loss, outputs)).

Definition distributed_train_step (ts : TrainState)
  (inputs : list (PyVal A)) (take_step : bool)
  : result (TrainState * (Tensor * gmap string Tensor)) :=
  '(ts', (unscaled_loss, outputs)) ← strategy_run_train_step ts inputs take_step;
  Ok (ts', strategy_reduce_mean unscaled_loss outputs).

Definition test_step (cfg : Config) (w : Weights) (inputs : list (PyVal A))
  : result (Tensor * gmap string Tensor) :=
  wrapped ← wrap_inputs (include_sections cfg) inputs;
  Ok (model w wrapped false).

Definition distributed_test_step (w : Weights) (inputs : list (PyVal A))
  : result (Tensor * gmap string Tensor) :=
  '(unscaled_loss, outputs) ← strategy_run_test_step w inputs;
  Ok (strategy_reduce_mean unscaled_loss outputs).

Definition train_fn (cfg : Config) :=
  if distribute cfg then distributed_train_step else train_step cfg.

Definition test_fn (cfg : Config) :=
  if distribute cfg then distributed_test_step else test_step cfg.

(** *** Evaluation and the epochs (lines 308-393) *)

(** One batch of [evaluate]'s loop (lines 312-321). *)
Definition evaluate_batch (cfg : Config) (run_callback : bool) (st : State)
  (indexed : nat * list (PyVal A)) : result State :=
  let '(index, inputs) := indexed in
  let st := emit_if run_callback (OnTestBatchBegin index) st in
  '(total_loss, outputs) ← test_fn cfg (weights (train_state st)) inputs;
  dicts ← assign_new_metrics cfg (valid_metrics st) total_loss outputs;
  let st := set_valid_metrics dicts st in
  Ok (emit_if run_callback
        (OnTestBatchEnd index (create_metric_logs (valid_metrics st))) st).

(** [evaluate] (lines 308-329); the validation source is a finite list
    of batches. *)
Definition evaluate (cfg : Config) (valid_dataset : list (list (PyVal A)))
  (run_callback : bool) (st : State) : result (State * gmap string Qc) :=
  let st := emit_if run_callback OnTestBegin st in
  st ← for_each (evaluate_batch cfg run_callback) st (enumerate valid_dataset);
  let logs := create_metric_logs (valid_metrics st) in
  let st := emit_if run_callback (OnTestEnd logs) st in
  let val_logs := with_val_prefix logs in
  let st := emit (WandbLog val_logs (num_steps st)) st in
  Ok (st, val_logs).

(** The condition of line 356. *)
Definition accumulation_step (cfg : Config) (step num_steps : nat)
  : result bool :=
  if decide (gradient_accumulation_steps cfg = 0) then Raise ZeroDivisionError
  else Ok (bool_decide
             ((Z.of_nat step + 1) `mod` gradient_accumulation_steps cfg = 0)
           || bool_decide (num_steps = 0%nat)).

(** One micro-batch of the epoch's loop (lines 353-380). *)
Definition micro_step (cfg : Config) (st : State)
  (indexed : nat * list (PyVal A)) : result State :=
  let '(step, input_batches) := indexed in
  let st :=
    {| train_state := train_state st; num_steps := num_steps st;
       local_step := local_step st; train_metrics := train_metrics st;
       valid_metrics := valid_metrics st; training_logs := training_logs st;
       pulled := S (pulled st); events := events st |} in
  boundary ← accumulation_step cfg step (num_steps st);
  let st := emit_if boundary (OnTrainBatchBegin (local_step st)) st in
  '(ts, (training_loss, eval_inputs)) ←
     train_fn cfg (train_state st) input_batches boundary;
  let st := set_train_state ts st in
  if boundary then
    dicts ← assign_new_metrics cfg (train_metrics st) training_loss eval_inputs;
    let st := set_train_metrics dicts st in
    let batch_logs := create_metric_logs (train_metrics st) in
    let st := emit (ProgbarUpdate (Z.of_nat (local_step st)) batch_logs false) st in
    let st := emit (WandbLog batch_logs (num_steps st)) st in
    let st :=
      emit (WandbLog {[ "learning_rate" := learning_rate_fn (num_steps st) ]}
              (num_steps st)) st in
    let st := emit (OnTrainBatchEnd (local_step st) batch_logs) st in
    Ok {| train_state := train_state st; num_steps := S (num_steps st);
          local_step := S (local_step st); train_metrics := train_metrics st;
          valid_metrics := valid_metrics st; training_logs := training_logs st;
          pulled := pulled st; events := events st |}
  else Ok st.

(** [dataset.take(count)] on the training source, which [main] makes
    endless with [repeat()]: the first [count] elements, and for a
    negative [count] all of them, so that the loop over it has no end. *)
Definition dataset_take (count : Z) (dataset : nat → list (PyVal A))
  : result (list (list (PyVal A))) :=
  if decide (count < 0) then Diverge
  else Ok (dataset <$> seq 0 (Z.to_nat count)).

Definition epoch_banner (cfg : Config) (epoch : Z) : string :=
  String (Ascii.ascii_of_nat 10) ("Epoch " +:+ str_of_int (epoch + 1) +:+ "/"
                +:+ str_of_int (epochs cfg)).

(** The head of an epoch (lines 345-352): both registries are reset, the
    running gradient sums are zeroed and [local_step] starts again at 0. *)
Definition epoch_begin (cfg : Config) (st : State) (epoch : Z) : State :=
  let st := reset_metrics st in
  let st := emit (OnEpochBegin epoch) st in
  let st := emit (Printed (epoch_banner cfg epoch)) st in
  let st :=
    set_train_state
      {| weights := weights (train_state st);
         accumulator := accumulator_reset (accumulator (train_state st));
         iterations := iterations (train_state st) |} st in
  {| train_state := train_state st; num_steps := num_steps st;
     local_step := 0; train_metrics := train_metrics st;
     valid_metrics := valid_metrics st; training_logs := training_logs st;
     pulled := pulled st; events := events st |}.

(** The loop over the micro-batches of an epoch (lines 353-380).
    [train_dataset epoch] is the sequence of batches the shuffled source
    yields when it is iterated in that epoch. *)
Definition epoch_train (cfg : Config)
  (train_dataset : Z → nat → list (PyVal A)) (steps_per_epoch : Z)
  (st : State) (epoch : Z) : result State :=
  batches ← dataset_take (steps_per_epoch * gradient_accumulation_steps cfg)
              (train_dataset epoch);
  for_each (micro_step cfg) st (enumerate batches).

(** The tail of an epoch (lines 382-392). *)
Definition epoch_end (cfg : Config)
  (valid_dataset : list (list (PyVal A))) (steps_per_epoch : Z)
  (st : State) (epoch : Z) : result State :=
  let train_logs := create_metric_logs (train_metrics st) in
  '(st, eval_logs) ← evaluate cfg valid_dataset true st;
  let epoch_logs := eval_logs ∪ train_logs in
  let st := emit (ProgbarUpdate steps_per_epoch epoch_logs true) st in
  let st :=
    {| train_state := train_state st; num_steps := num_steps st;
       local_step := local_step st; train_metrics := train_metrics st;
       valid_metrics := valid_metrics st; training_logs := Some epoch_logs;
       pulled := pulled st; events := events st |} in
  Ok (emit (OnEpochEnd epoch epoch_logs) st).

(** One epoch (lines 345-392). *)
Definition run_epoch (cfg : Config)
  (train_dataset : Z → nat → list (PyVal A))
  (valid_dataset : list (list (PyVal A))) (steps_per_epoch : Z)
  (st : State) (epoch : Z) : result State :=
  st ← epoch_train cfg train_dataset steps_per_epoch
         (epoch_begin cfg st epoch) epoch;
  epoch_end cfg valid_dataset steps_per_epoch st epoch.

(** The state when the loop starts (lines 155-232). *)
Definition initial_state (cfg : Config) (steps_per_epoch : Z) : State :=
  {| train_state :=
       {| weights := build cfg (epochs cfg * steps_per_epoch);
          accumulator := []; iterations := 0 |};
     num_steps := 0; local_step := 0;
     train_metrics := create_metric_map cfg;
     valid_metrics := create_metric_map cfg;
     training_logs := None; pulled := 0; events := [] |}.

(** Lines 336-343: the first evaluation, unless it is skipped. *)
Definition early_eval (cfg : Config) (valid_dataset : list (list (PyVal A)))
  (st : State) : result State :=
  if skip_early_eval cfg then Ok (emit (LoggingInfo "Skipping early evaluation") st)
  else fst <$> evaluate cfg valid_dataset false st.

(** [run_train] (lines 154-393), from the state [st] on. *)
Definition run_train_from (cfg : Config)
  (train_dataset : Z → nat → list (PyVal A))
  (valid_dataset : list (list (PyVal A))) (steps_per_epoch : Z)
  (st : State) : result State :=
  st ← early_eval cfg valid_dataset st;
  let st := emit OnTrainBegin st in
  st ← for_each (run_epoch cfg train_dataset valid_dataset steps_per_epoch) st
         (py_range (initial_epoch cfg) (epochs cfg));
  Ok (emit (OnTrainEnd (training_logs st)) st).

Definition run_train (cfg : Config)
  (train_dataset : Z → nat → list (PyVal A))
  (valid_dataset : list (list (PyVal A))) (steps_per_epoch : Z)
  : result State :=
  run_train_from cfg train_dataset valid_dataset steps_per_epoch
    (initial_state cfg steps_per_epoch).

(** *** Notions used to state the properties of the loop *)

(** The events of one accumulation boundary (lines 358 and 369-378). *)
Definition boundary_events (st : State) (batch_logs : gmap string Qc)
  : list Event :=
  [OnTrainBatchBegin (local_step st);
   ProgbarUpdate (Z.of_nat (local_step st)) batch_logs false;
   WandbLog batch_logs (num_steps st);
   WandbLog {[ "learning_rate" := learning_rate_fn (num_steps st) ]}
     (num_steps st);
   OnTrainBatchEnd (local_step st) batch_logs].

Definition is_wandb_log (e : Event) : bool :=
  match e with
  | WandbLog _ _ => true
  | _ => false
  end.

(** Events among which there is no call of [wandb.log]. *)
Definition quiet (es : list Event) : Prop :=
  Forall (λ e, is_wandb_log e = false) es.

(** Everything of the state that evaluation leaves alone. *)
Definition same_training (st st' : State) : Prop :=
  train_state st' = train_state st
  ∧ num_steps st' = num_steps st
  ∧ local_step st' = local_step st
  ∧ train_metrics st' = train_metrics st
  ∧ training_logs st' = training_logs st
  ∧ pulled st' = pulled st.

(** The registry after the batches of the validation source have been
    folded into [dicts], the model having the variables [w]. *)
Definition eval_metrics (cfg : Config) (w : Weights)
  (valid_dataset : list (list (PyVal A))) (dicts : gmap string Metric)
  : result (gmap string Metric) :=
  for_each (λ dicts inputs,
              '(total_loss, outputs) ← test_fn cfg w inputs;
              assign_new_metrics cfg dicts total_loss outputs)
    dicts valid_dataset.

(** A registry has the metrics of [create_metric_map] under their names:
    resetting it gives the registry as it was built. *)
Definition registry_ok (cfg : Config) (dicts : gmap string Metric) : Prop :=
  reset_state <$> dicts = create_metric_map cfg.

(** The outputs [metric_fn] reads. *)
Definition required_outputs (cfg : Config) : list string :=
  ["contrastive_loss"; "cross_entropy_loss"; "ohe_labels"; "probs"]
  ++ (if include_sections cfg then
        ["section_contrastive_loss"; "section_cross_entropy_loss";
         "section_ohe_labels"; "section_probs"]
      else []).

Definition outputs_ok (cfg : Config) (outputs : gmap string Tensor) : Prop :=
  Forall (λ name, is_Some (outputs !! name)) (required_outputs cfg).

(** A training or test step that goes through with the outputs the
    metrics need. [good] is a property of the training state that the
    steps keep, such as the gradient sums lining up with the gradients. *)
Definition train_step_ok (cfg : Config) (good : TrainState → Prop)
  (inputs : list (PyVal A)) : Prop :=
  ∀ ts take_step, good ts → ∃ ts' loss outputs,
    train_fn cfg ts inputs take_step = Ok (ts', (loss, outputs))
    ∧ outputs_ok cfg outputs ∧ good ts'.

Definition test_step_ok (cfg : Config) (inputs : list (PyVal A)) : Prop :=
  ∀ w, ∃ loss outputs,
    test_fn cfg w inputs = Ok (loss, outputs) ∧ outputs_ok cfg outputs.

(** Zeroing the sums keeps the property. *)
Definition reset_ok (good : TrainState → Prop) : Prop :=
  ∀ ts, good ts →
    good {| weights := weights ts;
            accumulator := accumulator_reset (accumulator ts);
            iterations := iterations ts |}.

(** The batches of one epoch. *)
Definition epoch_batches (cfg : Config)
  (train_dataset : Z → nat → list (PyVal A)) (steps_per_epoch epoch : Z)
  : list (list (PyVal A)) :=
  train_dataset epoch
    <$> seq 0 (Z.to_nat (steps_per_epoch * gradient_accumulation_steps cfg)).

(** What one epoch does, seen from outside. *)
Record epoch_effect (cfg : Config) (steps_per_epoch : Z) (epochs_run : nat)
    (st st' : State) : Prop := {
  effect_take : epochs_run = 0%nat
                ∨ 0 ≤ steps_per_epoch * gradient_accumulation_steps cfg;
  effect_pulled :
    pulled st'
    = (pulled st + epochs_run
         * Z.to_nat (steps_per_epoch * gradient_accumulation_steps cfg))%nat;
  effect_num_steps : (num_steps st ≤ num_steps st')%nat;
  effect_every_step :
    gradient_accumulation_steps cfg = 1 →
    num_steps st' = (num_steps st + epochs_run * Z.to_nat steps_per_epoch)%nat;
  effect_train_registry : registry_ok cfg (train_metrics st');
  effect_valid_registry : registry_ok cfg (valid_metrics st');
  effect_events :
    ∃ es, events st' = events st ++ es
          ∧ count_events is_val_log es = epochs_run
          ∧ count_events is_batch_log es = (num_steps st' - num_steps st)%nat
          ∧ count_events is_learning_rate_log es
            = (num_steps st' - num_steps st)%nat
}.

(** The state a step leaves: on a boundary the sums, each divided by
    [gradient_accumulation_steps], are clipped by global norm 1.0 and
    applied, and the sums are zeroed; otherwise only the sums change. *)
Definition after_step (cfg : Config) (ts : TrainState)
  (sums : list (option Tensor)) (take_step : bool) : TrainState :=
  if take_step then
    {| weights :=
         apply_gradients (weights ts)
           (clip_by_global_norm
              ((λ g : option Tensor,
                  (λ t, tensor_div t (Qc_of_Z (gradient_accumulation_steps cfg)))
                  <$> g) <$> sums) 1%Qc);
       accumulator := accumulator_reset sums;
       iterations := S (iterations ts) |}
  else
    {| weights := weights ts; accumulator := sums; iterations := iterations ts |}.

(** A registry after a sequence of steps, each with its loss and outputs,
    has been folded into it. *)
Definition fold_updates (cfg : Config) (dicts : gmap string Metric)
  (steps : list (Tensor * gmap string Tensor)) : result (gmap string Metric) :=
  for_each (λ dicts step, assign_new_metrics cfg dicts step.1 step.2)
    dicts steps.

(** Two states that differ at most in what their registries hold. *)
Definition same_but_metrics (st1 st2 : State) : Prop :=
  train_state st1 = train_state st2
  ∧ num_steps st1 = num_steps st2
  ∧ local_step st1 = local_step st2
  ∧ training_logs st1 = training_logs st2
  ∧ pulled st1 = pulled st2
  ∧ events st1 = events st2.

(** [num_steps] is 0 exactly as long as no batch has been taken from the
    training source. *)
Definition first_step_inv (st : State) : Prop :=
  num_steps st = 0%nat ↔ pulled st = 0%nat.

(** *** What the steps of the loop do to the state *)

Lemma accumulation_step_Ok cfg step n b :
  accumulation_step cfg step n = Ok b ↔
  gradient_accumulation_steps cfg ≠ 0
  ∧ b = (bool_decide ((Z.of_nat step + 1) `mod` gradient_accumulation_steps cfg = 0)
         || bool_decide (n = 0%nat)).
Proof.
  unfold accumulation_step. destruct (decide _) as [H0|H0]; split.
  - done.
  - by intros [? _].
  - by intros [= <-].
  - by intros [_ ->].
Qed.

Lemma micro_step_Ok cfg st step inputs st' :
  micro_step cfg st (step, inputs) = Ok st' →
  ∃ boundary ts loss outputs,
    accumulation_step cfg step (num_steps st) = Ok boundary
    ∧ train_fn cfg (train_state st) inputs boundary = Ok (ts, (loss, outputs))
    ∧ train_state st' = ts
    ∧ pulled st' = S (pulled st)
    ∧ valid_metrics st' = valid_metrics st
    ∧ training_logs st' = training_logs st
    ∧ (if boundary then
         ∃ dicts,
           assign_new_metrics cfg (train_metrics st) loss outputs = Ok dicts
           ∧ train_metrics st' = dicts
           ∧ num_steps st' = S (num_steps st)
           ∧ local_step st' = S (local_step st)
           ∧ events st'
             = events st ++ boundary_events st (create_metric_logs dicts)
       else
         train_metrics st' = train_metrics st
         ∧ num_steps st' = num_steps st
         ∧ local_step st' = local_step st
         ∧ events st' = events st).
Proof.
  unfold micro_step. intros (boundary & Hb & H)%bind_Ok.
  apply bind_Ok in H as ([ts [loss outputs]] & Htrain & H).
  exists boundary, ts, loss, outputs.
  destruct st as [ts0 n l tm vm tl p ev]. simpl in *.
  destruct boundary; simpl in *.
  - apply bind_Ok in H as (dicts & Hd & [= <-]). simpl.
    repeat (split; [done|]). exists dicts. repeat (split; [done|]).
    unfold boundary_events. simpl. by rewrite <-!app_assoc.
  - injection H as <-. simpl. by repeat split.
Qed.

Lemma same_training_refl st : same_training st st.
Proof. by repeat split. Qed.

Lemma same_training_trans st1 st2 st3 :
  same_training st1 st2 → same_training st2 st3 → same_training st1 st3.
Proof.
  intros (?&?&?&?&?&?) (?&?&?&?&?&?). repeat split; congruence.
Qed.

Lemma same_training_emit_if b e st : same_training st (emit_if b e st).
Proof. destruct b; by repeat split. Qed.

Lemma events_emit_if b e st :
  events (emit_if b e st) = events st ++ (if b then [e] else []).
Proof. destruct b; simpl; [done|by rewrite app_nil_r]. Qed.

Lemma valid_metrics_emit_if b e st :
  valid_metrics (emit_if b e st) = valid_metrics st.
Proof. by destruct b. Qed.

Lemma quiet_if (b : bool) e : is_wandb_log e = false → quiet (if b then [e] else []).
Proof. intros He. destruct b; [by repeat constructor|constructor]. Qed.

Lemma evaluate_batch_Ok cfg rc st index inputs st' :
  evaluate_batch cfg rc st (index, inputs) = Ok st' →
  same_training st st'
  ∧ (∃ loss outputs,
       test_fn cfg (weights (train_state st)) inputs = Ok (loss, outputs)
       ∧ assign_new_metrics cfg (valid_metrics st) loss outputs
         = Ok (valid_metrics st'))
  ∧ ∃ es, events st' = events st ++ es ∧ quiet es.
Proof.
  unfold evaluate_batch.
  intros ([loss outputs] & Htest & H)%bind_Ok.
  apply bind_Ok in H as (dicts & Hd & [= <-]).
  destruct st as [ts0 n l tm vm tl p ev]. destruct rc; simpl in *.
  - split; [by unfold same_training|]. split; [by exists loss, outputs|].
    exists [OnTestBatchBegin index; OnTestBatchEnd index (create_metric_logs dicts)].
    rewrite <-app_assoc. split; [done|]. by repeat constructor.
  - split; [by unfold same_training|]. split; [by exists loss, outputs|].
    exists []. rewrite app_nil_r. split; [done|constructor].
Qed.

Lemma evaluate_loop_Ok cfg rc valid_dataset k st st' :
  for_each (evaluate_batch cfg rc) st (enumerate_from k valid_dataset) = Ok st' →
  same_training st st'
  ∧ eval_metrics cfg (weights (train_state st)) valid_dataset (valid_metrics st)
    = Ok (valid_metrics st')
  ∧ ∃ es, events st' = events st ++ es ∧ quiet es.
Proof.
  revert k st. induction valid_dataset as [|inputs valid_dataset IH];
    intros k st; simpl.
  - intros [= <-]. split; [apply same_training_refl|]. split; [done|].
    exists []. rewrite app_nil_r. split; [done|constructor].
  - intros (st1 & H1 & H2)%bind_Ok.
    apply evaluate_batch_Ok in H1 as (Hs1 & (loss & outputs & Ht & Hm) & es1 & He1 & Hq1).
    apply IH in H2 as (Hs2 & Hm2 & es2 & He2 & Hq2).
    split; [by eapply same_training_trans|]. split.
    + unfold eval_metrics. simpl. rewrite Ht. simpl. rewrite Hm. simpl.
      destruct Hs1 as (Hts & _). rewrite Hts in Hm2. exact Hm2.
    + exists (es1 ++ es2). rewrite He2, He1, app_assoc. split; [done|].
      by apply Forall_app.
Qed.

Lemma evaluate_Ok cfg valid_dataset rc st st' logs :
  evaluate cfg valid_dataset rc st = Ok (st', logs) →
  same_training st st'
  ∧ eval_metrics cfg (weights (train_state st)) valid_dataset (valid_metrics st)
    = Ok (valid_metrics st')
  ∧ logs = with_val_prefix (create_metric_logs (valid_metrics st'))
  ∧ ∃ es, events st' = events st ++ es ++ [WandbLog logs (num_steps st)]
          ∧ quiet es.
Proof.
  unfold evaluate. intros (st1 & Hloop & [= <- <-])%bind_Ok.
  apply evaluate_loop_Ok in Hloop as (Hs & Hm & es & He & Hq).
  rewrite valid_metrics_emit_if in Hm.
  pose proof (same_training_emit_if rc OnTestBegin st) as Hs0.
  assert (Hw : weights (train_state (emit_if rc OnTestBegin st))
               = weights (train_state st)) by (by destruct rc).
  rewrite Hw in Hm.
  assert (Hst : same_training st st1) by (by eapply same_training_trans).
  split.
  { eapply same_training_trans; [exact Hst|].
    eapply same_training_trans; [apply (same_training_emit_if rc)|].
    by repeat split. }
  simpl. rewrite valid_metrics_emit_if. split; [done|]. split; [done|].
  rewrite events_emit_if, He, events_emit_if.
  destruct Hst as (_ & Hn & _).
  assert (Hn' : num_steps (emit_if rc (OnTestEnd (create_metric_logs (valid_metrics st1))) st1) = num_steps st).
  { by destruct rc. }
  rewrite Hn'.
  exists ((if rc then [OnTestBegin] else []) ++ es
          ++ (if rc then [OnTestEnd (create_metric_logs (valid_metrics st1))]
              else [])).
  rewrite <-!app_assoc. split; [done|].
  apply Forall_app. split; [by apply quiet_if|].
  apply Forall_app. split; [done|]. by apply quiet_if.
Qed.

Lemma evaluate_loop_total cfg rc valid_dataset k st dicts :
  eval_metrics cfg (weights (train_state st)) valid_dataset (valid_metrics st)
    = Ok dicts →
  ∃ st', for_each (evaluate_batch cfg rc) st (enumerate_from k valid_dataset)
         = Ok st'.
Proof.
  revert k st. induction valid_dataset as [|inputs valid_dataset IH];
    intros k st; [by eexists|].
  unfold eval_metrics. cbn [for_each enumerate_from].
  intros (m1 & H1 & H2)%bind_Ok.
  apply bind_Ok in H1 as ([loss outputs] & Ht & Hm).
  assert (Hb : ∃ st1, evaluate_batch cfg rc st (k, inputs) = Ok st1
                      ∧ weights (train_state st1) = weights (train_state st)
                      ∧ valid_metrics st1 = m1).
  { unfold evaluate_batch.
    assert (Hw : weights (train_state (emit_if rc (OnTestBatchBegin k) st))
                 = weights (train_state st)) by (by destruct rc).
    rewrite Hw, Ht. simpl. rewrite valid_metrics_emit_if, Hm. simpl.
    eexists. split; [done|]. by destruct rc. }
  destruct Hb as (st1 & -> & Hw1 & Hm1). simpl.
  apply IH. rewrite Hw1, Hm1. exact H2.
Qed.

Lemma evaluate_total cfg valid_dataset rc st dicts :
  eval_metrics cfg (weights (train_state st)) valid_dataset (valid_metrics st)
    = Ok dicts →
  ∃ st' logs, evaluate cfg valid_dataset rc st = Ok (st', logs).
Proof.
  intros Hm. unfold evaluate.
  destruct (evaluate_loop_total cfg rc valid_dataset 0 (emit_if rc OnTestBegin st) dicts)
    as [st1 H1].
  { rewrite valid_metrics_emit_if.
    by replace (weights (train_state (emit_if rc OnTestBegin st)))
      with (weights (train_state st)) by (by destruct rc). }
  unfold enumerate. rewrite H1. simpl. by do 2 eexists.
Qed.

(** *** The shape of a registry *)

Lemma reset_state_idemp m : reset_state (reset_state m) = reset_state m.
Proof. by destruct m. Qed.

Lemma registry_ok_fresh cfg : registry_ok cfg (create_metric_map cfg).
Proof.
  unfold registry_ok, create_metric_map.
  destruct (include_sections cfg); by rewrite !fmap_insert, fmap_empty.
Qed.

Lemma registry_ok_reset cfg dicts :
  registry_ok cfg dicts → reset_state <$> dicts = create_metric_map cfg
                          ∧ registry_ok cfg (reset_state <$> dicts).
Proof.
  intros H. split; [done|]. unfold registry_ok.
  rewrite <-map_fmap_compose. etrans; [|exact H]. apply map_fmap_ext.
  intros k m _. apply reset_state_idemp.
Qed.

Lemma registry_ok_insert cfg dicts key m m' :
  registry_ok cfg dicts → dicts !! key = Some m →
  reset_state m' = reset_state m → registry_ok cfg (<[key := m']> dicts).
Proof.
  unfold registry_ok. intros H Hk Hm. rewrite fmap_insert, Hm, <-H.
  apply insert_id. by rewrite lookup_fmap, Hk.
Qed.

Lemma registry_lookup cfg dicts key m0 :
  registry_ok cfg dicts → create_metric_map cfg !! key = Some m0 →
  ∃ m, dicts !! key = Some m ∧ reset_state m = m0.
Proof.
  unfold registry_ok. intros H Hk. rewrite <-H, lookup_fmap in Hk.
  destruct (dicts !! key) as [m|]; [|done]. injection Hk as <-. by exists m.
Qed.

Lemma update_mean_Ok values m m' :
  update_mean values m = Ok m' → reset_state m' = reset_state m.
Proof. destruct m; simpl; [by intros [= <-]|done]. Qed.

Lemma update_confusion_Ok y_true y_pred m m' :
  update_confusion y_true y_pred m = Ok m' → reset_state m' = reset_state m.
Proof. destruct m; simpl; [done|by intros [= <-]]. Qed.

Lemma dict_get_Ok {X} (d : gmap string X) key x :
  dict_get d key = Ok x ↔ d !! key = Some x.
Proof.
  unfold dict_get. destruct (d !! key); split; (done || by intros [= <-]).
Qed.

Lemma update_mean_from_ok cfg d name dicts key dicts' :
  registry_ok cfg dicts → update_mean_from d name dicts key = Ok dicts' →
  registry_ok cfg dicts'.
Proof.
  intros Hok. unfold update_mean_from.
  intros (m & Hm%dict_get_Ok & H)%bind_Ok.
  apply bind_Ok in H as (values & _ & H).
  apply bind_Ok in H as (m' & Hm' & [= <-]).
  eapply registry_ok_insert; [done|done|]. by eapply update_mean_Ok.
Qed.

Lemma update_confusion_from_ok cfg d tn pn dicts key dicts' :
  registry_ok cfg dicts → update_confusion_from d tn pn dicts key = Ok dicts' →
  registry_ok cfg dicts'.
Proof.
  intros Hok. unfold update_confusion_from.
  intros (m & Hm%dict_get_Ok & H)%bind_Ok.
  apply bind_Ok in H as (yt & _ & H). apply bind_Ok in H as (yp & _ & H).
  apply bind_Ok in H as (m' & Hm' & [= <-]).
  eapply registry_ok_insert; [done|done|]. by eapply update_confusion_Ok.
Qed.

Lemma metric_fn_ok cfg dicts outputs dicts' :
  registry_ok cfg dicts → metric_fn cfg dicts outputs = Ok dicts' →
  registry_ok cfg dicts'.
Proof.
  intros Hok. unfold metric_fn.
  intros (d1 & H1 & H)%bind_Ok. apply bind_Ok in H as (d2 & H2 & H).
  apply bind_Ok in H as (d3 & H3 & H).
  apply (update_mean_from_ok cfg) in H1; [|done].
  apply (update_mean_from_ok cfg) in H2; [|done].
  assert (Hf : ∀ tn pn keys da db, registry_ok cfg da →
            for_each (update_confusion_from outputs tn pn) da keys = Ok db →
            registry_ok cfg db).
  { intros tn pn keys da db Ha. revert Ha.
    apply (for_each_invariant (registry_ok cfg)).
    intros s x s' _ Hs. by apply update_confusion_from_ok. }
  apply Hf in H3; [|done].
  destruct (include_sections cfg); [|by injection H as <-].
  apply bind_Ok in H as (d4 & H4 & H). apply bind_Ok in H as (d5 & H5 & H).
  apply (update_mean_from_ok cfg) in H4; [|done].
  apply (update_mean_from_ok cfg) in H5; [|done].
  by apply Hf in H.
Qed.

Lemma assign_new_metrics_ok cfg dicts loss outputs dicts' :
  registry_ok cfg dicts → assign_new_metrics cfg dicts loss outputs = Ok dicts' →
  registry_ok cfg dicts'.
Proof.
  intros Hok. unfold assign_new_metrics.
  intros (m & Hm%dict_get_Ok & H)%bind_Ok.
  apply bind_Ok in H as (m' & Hm' & H).
  eapply metric_fn_ok; [|exact H].
  eapply registry_ok_insert; [done|done|]. by eapply update_mean_Ok.
Qed.

Lemma update_mean_from_total cfg d name dicts key :
  registry_ok cfg dicts → create_metric_map cfg !! key = Some (Mean 0 0) →
  is_Some (d !! name) →
  ∃ dicts', update_mean_from d name dicts key = Ok dicts'
            ∧ registry_ok cfg dicts'.
Proof.
  intros Hok Hk [values Hv].
  destruct (registry_lookup cfg dicts key _ Hok Hk) as (m & Hm & Hr).
  destruct m as [t c|]; [|done].
  assert (H : update_mean_from d name dicts key
              = Ok (<[key := Mean (t + tensor_sum values)
                               (c + Qc_of_nat (length values))]> dicts)).
  { unfold update_mean_from, dict_get. by rewrite Hm, Hv. }
  eexists. split; [exact H|]. by eapply update_mean_from_ok.
Qed.

Lemma update_confusion_from_total cfg d tn pn dicts key kind :
  registry_ok cfg dicts →
  create_metric_map cfg !! key = Some (Lib kind (lib_init kind)) →
  is_Some (d !! tn) → is_Some (d !! pn) →
  ∃ dicts', update_confusion_from d tn pn dicts key = Ok dicts'
            ∧ registry_ok cfg dicts'.
Proof.
  intros Hok Hk [yt Ht] [yp Hp].
  destruct (registry_lookup cfg dicts key _ Hok Hk) as (m & Hm & Hr).
  destruct m as [|k s]; [done|].
  assert (H : update_confusion_from d tn pn dicts key
              = Ok (<[key := Lib k (lib_update k s yt yp)]> dicts)).
  { unfold update_confusion_from, dict_get. by rewrite Hm, Ht, Hp. }
  eexists. split; [exact H|]. by eapply update_confusion_from_ok.
Qed.

Lemma confusion_loop_total cfg d tn pn keys dicts :
  Forall (λ key, ∃ kind, create_metric_map cfg !! key
                         = Some (Lib kind (lib_init kind))) keys →
  is_Some (d !! tn) → is_Some (d !! pn) → registry_ok cfg dicts →
  ∃ dicts', for_each (update_confusion_from d tn pn) dicts keys = Ok dicts'
            ∧ registry_ok cfg dicts'.
Proof.
  intros Hkeys Ht Hp. apply for_each_total. intros s key Hin Hs.
  rewrite Forall_forall in Hkeys. destruct (Hkeys key Hin) as [kind Hk].
  by eapply update_confusion_from_total.
Qed.

Lemma metric_fn_total cfg dicts outputs :
  registry_ok cfg dicts → outputs_ok cfg outputs →
  ∃ dicts', metric_fn cfg dicts outputs = Ok dicts' ∧ registry_ok cfg dicts'.
Proof.
  intros Hok Hout. unfold outputs_ok, required_outputs in Hout.
  apply Forall_app in Hout as [Hbase Hsec].
  apply Forall_cons in Hbase as [Hcl Hbase].
  apply Forall_cons in Hbase as [Hce Hbase].
  apply Forall_cons in Hbase as [Hoh Hbase].
  apply Forall_cons in Hbase as [Hpr _].
  unfold metric_fn.
  destruct (update_mean_from_total cfg outputs "contrastive_loss" dicts
              "contrastive_loss" Hok) as (d1 & -> & Hok1); [|done|].
  { unfold create_metric_map. by destruct (include_sections cfg). }
  rewrite bind_Ok_l.
  destruct (update_mean_from_total cfg outputs "cross_entropy_loss" d1
              "cross_entropy_loss" Hok1) as (d2 & -> & Hok2); [|done|].
  { unfold create_metric_map. by destruct (include_sections cfg). }
  rewrite bind_Ok_l.
  destruct (confusion_loop_total cfg outputs "ohe_labels" "probs"
              confusion_keys d2) as (d3 & -> & Hok3); [|done|done|done|].
  { unfold create_metric_map, confusion_keys, f1_score.
    destruct (include_sections cfg); repeat constructor; by eexists. }
  rewrite bind_Ok_l. destruct (include_sections cfg) eqn:Hsections; [|by exists d3].
  apply Forall_cons in Hsec as [Hscl Hsec].
  apply Forall_cons in Hsec as [Hsce Hsec].
  apply Forall_cons in Hsec as [Hsoh Hsec].
  apply Forall_cons in Hsec as [Hspr _].
  destruct (update_mean_from_total cfg outputs "section_contrastive_loss" d3
              "section_contrastive_loss" Hok3) as (d4 & -> & Hok4); [|done|].
  { unfold create_metric_map. by rewrite Hsections. }
  rewrite bind_Ok_l.
  destruct (update_mean_from_total cfg outputs "section_cross_entropy_loss" d4
              "section_cross_entropy_loss" Hok4) as (d5 & -> & Hok5); [|done|].
  { unfold create_metric_map. by rewrite Hsections. }
  rewrite bind_Ok_l.
  apply confusion_loop_total; [|done|done|done].
  unfold create_metric_map, confusion_keys, f1_score. rewrite Hsections.
  repeat constructor; by eexists.
Qed.

Lemma assign_new_metrics_total cfg dicts loss outputs :
  registry_ok cfg dicts → outputs_ok cfg outputs →
  ∃ dicts', assign_new_metrics cfg dicts loss outputs = Ok dicts'
            ∧ registry_ok cfg dicts'.
Proof.
  intros Hok Hout. unfold assign_new_metrics.
  destruct (registry_lookup cfg dicts "total_loss" (Mean 0 0) Hok)
    as (m & Hm & Hr).
  { unfold create_metric_map. by destruct (include_sections cfg). }
  destruct m as [t c|]; [|done].
  unfold dict_get. rewrite Hm. simpl.
  apply metric_fn_total; [|done].
  by eapply registry_ok_insert.
Qed.

(** The names under which a registry logs are those of [create_metric_map]. *)
Lemma registry_logs_keys cfg dicts key :
  registry_ok cfg dicts →
  is_Some (create_metric_logs dicts !! key)
  ↔ is_Some (create_metric_map cfg !! key).
Proof.
  unfold registry_ok, create_metric_logs. intros <-.
  rewrite !lookup_fmap, !fmap_is_Some. done.
Qed.

(** *** Counting the logs *)

Lemma count_events_app p es1 es2 :
  count_events p (es1 ++ es2) = (count_events p es1 + count_events p es2)%nat.
Proof. unfold count_events. by rewrite filter_app, length_app. Qed.

Lemma count_events_quiet p es :
  (∀ e, p e = true → is_wandb_log e = true) → quiet es → count_events p es = 0%nat.
Proof.
  intros Hp. unfold count_events. induction 1 as [|e es He _ IH]; [done|].
  rewrite filter_cons. destruct (decide (p e = true)) as [Hpe|]; [|done].
  apply Hp in Hpe. congruence.
Qed.

Lemma val_log_is_wandb e : is_val_log e = true → is_wandb_log e = true.
Proof. by destruct e. Qed.

Lemma batch_log_is_wandb e : is_batch_log e = true → is_wandb_log e = true.
Proof. by destruct e. Qed.

Lemma learning_rate_log_is_wandb e :
  is_learning_rate_log e = true → is_wandb_log e = true.
Proof. by destruct e. Qed.

Global Instance val_prefix_inj : Inj (=) (=) val_prefix.
Proof. intros a b H. by injection H. Qed.

Lemma lookup_with_val_prefix logs key :
  with_val_prefix logs !! val_prefix key = logs !! key.
Proof. unfold with_val_prefix. apply (lookup_kmap val_prefix). Qed.

Lemma lookup_with_val_prefix_other logs key :
  (∀ k, key ≠ val_prefix k) → with_val_prefix logs !! key = None.
Proof.
  intros Hk. unfold with_val_prefix. apply lookup_kmap_None; [apply _|].
  intros k ->. by destruct (Hk k).
Qed.

Lemma registry_names cfg :
  is_Some (create_metric_map cfg !! "total_loss")
  ∧ create_metric_map cfg !! "val_total_loss" = None
  ∧ create_metric_map cfg !! "learning_rate" = None.
Proof. unfold create_metric_map. by destruct (include_sections cfg). Qed.

(** A log of a registry is a training batch log and nothing else. *)
Lemma registry_log_kind cfg dicts n :
  registry_ok cfg dicts →
  is_batch_log (WandbLog (create_metric_logs dicts) n) = true
  ∧ is_val_log (WandbLog (create_metric_logs dicts) n) = false
  ∧ is_learning_rate_log (WandbLog (create_metric_logs dicts) n) = false.
Proof.
  intros Hok. destruct (registry_names cfg) as (H1 & H2 & H3). simpl.
  split; [|split].
  - apply bool_decide_eq_true_2. by apply (registry_logs_keys cfg).
  - apply bool_decide_eq_false_2. rewrite (registry_logs_keys cfg) by done.
    rewrite H2. by intros [? ?].
  - apply bool_decide_eq_false_2. rewrite (registry_logs_keys cfg) by done.
    rewrite H3. by intros [? ?].
Qed.

(** A log of the prefixed snapshot of a registry is a validation log and
    nothing else. *)
Lemma val_log_kind cfg dicts n :
  registry_ok cfg dicts →
  is_val_log (WandbLog (with_val_prefix (create_metric_logs dicts)) n) = true
  ∧ is_batch_log (WandbLog (with_val_prefix (create_metric_logs dicts)) n) = false
  ∧ is_learning_rate_log
      (WandbLog (with_val_prefix (create_metric_logs dicts)) n) = false.
Proof.
  intros Hok. destruct (registry_names cfg) as (H1 & H2 & H3). simpl.
  split; [|split].
  - apply bool_decide_eq_true_2.
    change "val_total_loss" with (val_prefix "total_loss").
    rewrite lookup_with_val_prefix. by apply (registry_logs_keys cfg).
  - apply bool_decide_eq_false_2.
    rewrite lookup_with_val_prefix_other; [by intros [? ?]|].
    intros k. unfold val_prefix. simpl. discriminate.
  - apply bool_decide_eq_false_2.
    rewrite lookup_with_val_prefix_other; [by intros [? ?]|].
    intros k. unfold val_prefix. simpl. discriminate.
Qed.

Lemma boundary_events_counts cfg st dicts :
  registry_ok cfg dicts →
  count_events is_val_log (boundary_events st (create_metric_logs dicts)) = 0%nat
  ∧ count_events is_batch_log (boundary_events st (create_metric_logs dicts))
    = 1%nat
  ∧ count_events is_learning_rate_log
      (boundary_events st (create_metric_logs dicts)) = 1%nat.
Proof.
  intros Hok.
  destruct (registry_log_kind cfg dicts (num_steps st) Hok) as (Hb & Hv & Hl).
  unfold boundary_events, count_events.
  rewrite !filter_cons, filter_nil. rewrite Hb, Hv, Hl. by simpl.
Qed.

(** *** The loop over the micro-batches *)

Lemma micro_step_frame cfg st step inputs st' :
  micro_step cfg st (step, inputs) = Ok st' →
  pulled st' = S (pulled st)
  ∧ valid_metrics st' = valid_metrics st
  ∧ training_logs st' = training_logs st
  ∧ (num_steps st ≤ num_steps st')%nat
  ∧ (num_steps st' + local_step st = num_steps st + local_step st')%nat
  ∧ (registry_ok cfg (train_metrics st) → registry_ok cfg (train_metrics st'))
  ∧ ∃ es, events st' = events st ++ es
          ∧ (registry_ok cfg (train_metrics st) →
             count_events is_val_log es = 0%nat
             ∧ count_events is_batch_log es = (num_steps st' - num_steps st)%nat
             ∧ count_events is_learning_rate_log es
               = (num_steps st' - num_steps st)%nat).
Proof.
  intros (boundary & ts & loss & outputs & Hb & Ht & Hts & Hp & Hv & Hl & H)%micro_step_Ok.
  split; [done|]. split; [done|]. split; [done|].
  destruct boundary.
  - destruct H as (dicts & Hd & Hm & Hn & Hls & He).
    split; [lia|]. split; [lia|]. split.
    { intros Hok. rewrite Hm. by eapply assign_new_metrics_ok. }
    eexists. split; [exact He|]. intros Hok. rewrite Hn.
    replace (S (num_steps st) - num_steps st)%nat with 1%nat by lia.
    apply (boundary_events_counts cfg). by eapply assign_new_metrics_ok.
  - destruct H as (Hm & Hn & Hls & He).
    split; [lia|]. split; [lia|]. split; [by rewrite Hm|].
    exists []. rewrite app_nil_r. split; [done|]. intros _. rewrite Hn.
    by rewrite Nat.sub_diag.
Qed.

Lemma micro_loop_Ok cfg batches k st st' :
  for_each (micro_step cfg) st (enumerate_from k batches) = Ok st' →
  pulled st' = (pulled st + length batches)%nat
  ∧ valid_metrics st' = valid_metrics st
  ∧ training_logs st' = training_logs st
  ∧ (num_steps st ≤ num_steps st')%nat
  ∧ (num_steps st' + local_step st = num_steps st + local_step st')%nat
  ∧ (registry_ok cfg (train_metrics st) → registry_ok cfg (train_metrics st'))
  ∧ ∃ es, events st' = events st ++ es
          ∧ (registry_ok cfg (train_metrics st) →
             count_events is_val_log es = 0%nat
             ∧ count_events is_batch_log es = (num_steps st' - num_steps st)%nat
             ∧ count_events is_learning_rate_log es
               = (num_steps st' - num_steps st)%nat).
Proof.
  revert k st. induction batches as [|inputs batches IH]; intros k st.
  - intros [= <-]. simpl. rewrite Nat.add_0_r, Nat.sub_diag.
    repeat (split; [done|]). exists []. by rewrite app_nil_r.
  - cbn [enumerate_from for_each]. intros (st1 & H1 & H2)%bind_Ok.
    apply micro_step_frame in H1
      as (Hp1 & Hv1 & Hl1 & Hn1 & Hs1 & Hok1 & es1 & He1 & Hc1).
    apply IH in H2 as (Hp2 & Hv2 & Hl2 & Hn2 & Hs2 & Hok2 & es2 & He2 & Hc2).
    split; [simpl; lia|]. split; [congruence|]. split; [congruence|].
    split; [lia|]. split; [lia|]. split; [by intros Hok; apply Hok2, Hok1|].
    exists (es1 ++ es2). split; [by rewrite He2, He1, app_assoc|].
    intros Hok. destruct (Hc1 Hok) as (Hv & Hb & Hr).
    destruct (Hc2 (Hok1 Hok)) as (Hv' & Hb' & Hr').
    rewrite !count_events_app. lia.
Qed.

(** With [gradient_accumulation_steps = 1] every micro-batch is a boundary. *)
Lemma micro_loop_every_step cfg batches k st st' :
  gradient_accumulation_steps cfg = 1 →
  for_each (micro_step cfg) st (enumerate_from k batches) = Ok st' →
  num_steps st' = (num_steps st + length batches)%nat.
Proof.
  intros Hg. revert k st. induction batches as [|inputs batches IH]; intros k st.
  - intros [= <-]. simpl. lia.
  - cbn [enumerate_from for_each]. intros (st1 & H1 & H2)%bind_Ok.
    apply IH in H2. rewrite H2.
    apply micro_step_Ok in H1
      as (boundary & ts & loss & outputs & Hb & _ & _ & _ & _ & _ & H).
    apply accumulation_step_Ok in Hb as [_ ->]. rewrite Hg, Z.mod_1_r in H.
    rewrite bool_decide_eq_true_2 in H by done. simpl in H.
    destruct H as (dicts & _ & _ & -> & _). simpl. lia.
Qed.

Lemma elem_of_enumerate_from {X} k (xs : list X) i x :
  (i, x) ∈ enumerate_from k xs → x ∈ xs.
Proof.
  revert k. induction xs as [|y xs IH]; intros k; simpl.
  - by intros ?%elem_of_nil.
  - intros [[= -> ->]|H]%elem_of_cons; [left|right]. by eapply IH.
Qed.

Lemma micro_step_total cfg good st step inputs :
  gradient_accumulation_steps cfg ≠ 0 → train_step_ok cfg good inputs →
  registry_ok cfg (train_metrics st) → good (train_state st) →
  ∃ st', micro_step cfg st (step, inputs) = Ok st' ∧ good (train_state st').
Proof.
  intros Hg Hstep Hok Hgood. unfold micro_step, accumulation_step.
  rewrite decide_False by done. rewrite bind_Ok_l.
  set (boundary := bool_decide _ || bool_decide _).
  destruct st as [ts0 n l tm vm tl p ev]. simpl in *.
  destruct (Hstep ts0 boundary Hgood) as (ts' & loss & outputs & Ht & Hout & Hg').
  destruct boundary; simpl; rewrite Ht; simpl.
  - destruct (assign_new_metrics_total cfg tm loss outputs Hok Hout)
      as (dicts & -> & _). simpl. by eexists.
  - by eexists.
Qed.

Lemma micro_loop_total cfg good batches k st :
  gradient_accumulation_steps cfg ≠ 0 →
  Forall (train_step_ok cfg good) batches →
  registry_ok cfg (train_metrics st) → good (train_state st) →
  ∃ st', for_each (micro_step cfg) st (enumerate_from k batches) = Ok st'
         ∧ good (train_state st').
Proof.
  intros Hg Hall Hok Hgood.
  destruct (for_each_total
              (λ s, registry_ok cfg (train_metrics s) ∧ good (train_state s))
              (micro_step cfg) (enumerate_from k batches)) with (s := st)
    as (st' & H & _ & Hgood'); [|done|by exists st'].
  intros s [i inputs] Hin [Hs Hgs].
  rewrite Forall_forall in Hall.
  destruct (micro_step_total cfg good s i inputs Hg) as (s' & Hs' & Hgs');
    [|done|done|].
  { apply Hall. by eapply elem_of_enumerate_from. }
  exists s'. split; [done|]. split; [|done].
  by apply micro_step_frame in Hs' as (_ & _ & _ & _ & _ & Hk & _); apply Hk.
Qed.

(** *** Evaluation passes and epochs *)

Lemma eval_metrics_total cfg w valid_dataset dicts :
  Forall (test_step_ok cfg) valid_dataset → registry_ok cfg dicts →
  ∃ dicts', eval_metrics cfg w valid_dataset dicts = Ok dicts'
            ∧ registry_ok cfg dicts'.
Proof.
  intros Hall. unfold eval_metrics. apply for_each_total.
  intros s inputs Hin Hs. rewrite Forall_forall in Hall.
  destruct (Hall inputs Hin w) as (loss & outputs & -> & Hout).
  rewrite bind_Ok_l. by apply assign_new_metrics_total.
Qed.

Lemma eval_metrics_ok cfg w valid_dataset dicts dicts' :
  registry_ok cfg dicts → eval_metrics cfg w valid_dataset dicts = Ok dicts' →
  registry_ok cfg dicts'.
Proof.
  unfold eval_metrics. apply (for_each_invariant (registry_ok cfg)).
  intros s inputs s' _ Hs ([loss outputs] & _ & H)%bind_Ok.
  by eapply assign_new_metrics_ok.
Qed.

(** One evaluation pass: nothing of the training side moves, the
    validation registry takes in every batch, and exactly one log, a
    validation log at the current [num_steps], is sent. *)
Lemma evaluate_pass cfg valid_dataset rc st st' logs :
  registry_ok cfg (valid_metrics st) →
  evaluate cfg valid_dataset rc st = Ok (st', logs) →
  same_training st st'
  ∧ registry_ok cfg (valid_metrics st')
  ∧ ∃ es, events st' = events st ++ es
          ∧ count_events is_val_log es = 1%nat
          ∧ count_events is_batch_log es = 0%nat
          ∧ count_events is_learning_rate_log es = 0%nat
          ∧ last es = Some (WandbLog logs (num_steps st)).
Proof.
  intros Hok (Hs & Hm & -> & es & He & Hq)%evaluate_Ok.
  pose proof (eval_metrics_ok _ _ _ _ _ Hok Hm) as Hok'.
  split; [done|]. split; [done|].
  eexists. split; [exact He|].
  destruct (val_log_kind cfg (valid_metrics st') (num_steps st) Hok')
    as (Hv & Hb & Hl).
  rewrite !count_events_app.
  rewrite (count_events_quiet is_val_log es val_log_is_wandb Hq).
  rewrite (count_events_quiet is_batch_log es batch_log_is_wandb Hq).
  rewrite (count_events_quiet is_learning_rate_log es learning_rate_log_is_wandb Hq).
  unfold count_events. rewrite !filter_cons, !filter_nil, Hv, Hb, Hl.
  repeat (split; [done|]). by rewrite last_snoc.
Qed.

Lemma epoch_begin_state cfg st epoch :
  num_steps (epoch_begin cfg st epoch) = num_steps st
  ∧ local_step (epoch_begin cfg st epoch) = 0%nat
  ∧ pulled (epoch_begin cfg st epoch) = pulled st
  ∧ training_logs (epoch_begin cfg st epoch) = training_logs st
  ∧ train_metrics (epoch_begin cfg st epoch) = reset_state <$> train_metrics st
  ∧ valid_metrics (epoch_begin cfg st epoch) = reset_state <$> valid_metrics st
  ∧ weights (train_state (epoch_begin cfg st epoch)) = weights (train_state st)
  ∧ iterations (train_state (epoch_begin cfg st epoch))
    = iterations (train_state st)
  ∧ events (epoch_begin cfg st epoch)
    = events st ++ [OnEpochBegin epoch; Printed (epoch_banner cfg epoch)].
Proof.
  destruct st as [ts0 n l tm vm tl p ev]. simpl.
  repeat (split; [done|]). by rewrite <-app_assoc.
Qed.

Lemma epoch_train_Ok cfg train_dataset steps_per_epoch st epoch st' :
  epoch_train cfg train_dataset steps_per_epoch st epoch = Ok st' ↔
  0 ≤ steps_per_epoch * gradient_accumulation_steps cfg
  ∧ for_each (micro_step cfg) st
      (enumerate (epoch_batches cfg train_dataset steps_per_epoch epoch))
    = Ok st'.
Proof.
  unfold epoch_train, dataset_take, epoch_batches.
  destruct (decide _) as [Hneg|Hpos]; simpl.
  - split; [done|]. intros [? _]. lia.
  - split; [intros H; split; [lia|done]|by intros [_ H]].
Qed.

Lemma epoch_end_Ok cfg valid_dataset steps_per_epoch st epoch st' :
  registry_ok cfg (valid_metrics st) →
  epoch_end cfg valid_dataset steps_per_epoch st epoch = Ok st' →
  ∃ st2 eval_logs es,
    evaluate cfg valid_dataset true st = Ok (st2, eval_logs)
    ∧ train_state st' = train_state st
    ∧ num_steps st' = num_steps st
    ∧ local_step st' = local_step st
    ∧ pulled st' = pulled st
    ∧ train_metrics st' = train_metrics st
    ∧ valid_metrics st' = valid_metrics st2
    ∧ registry_ok cfg (valid_metrics st')
    ∧ training_logs st'
      = Some (eval_logs ∪ create_metric_logs (train_metrics st))
    ∧ events st' = events st ++ es
    ∧ count_events is_val_log es = 1%nat
    ∧ count_events is_batch_log es = 0%nat
    ∧ count_events is_learning_rate_log es = 0%nat.
Proof.
  intros Hok. unfold epoch_end.
  intros ([st2 eval_logs] & Hev & [= <-])%bind_Ok.
  destruct (evaluate_pass _ _ _ _ _ _ Hok Hev)
    as ((Hts & Hn & Hls & Htm & Htl & Hp) & Hok2 & es & He & Hv & Hb & Hl & _).
  exists st2, eval_logs.
  exists (es ++ [ProgbarUpdate steps_per_epoch
                   (eval_logs ∪ create_metric_logs (train_metrics st)) true;
                 OnEpochEnd epoch
                   (eval_logs ∪ create_metric_logs (train_metrics st))]).
  simpl. repeat (split; [done|]). split.
  { rewrite He, <-!app_assoc. done. }
  rewrite !count_events_app, Hv, Hb, Hl. done.
Qed.

Lemma run_epoch_Ok cfg train_dataset valid_dataset steps_per_epoch st epoch st' :
  registry_ok cfg (train_metrics st) → registry_ok cfg (valid_metrics st) →
  run_epoch cfg train_dataset valid_dataset steps_per_epoch st epoch = Ok st' →
  epoch_effect cfg steps_per_epoch 1 st st'
  ∧ (local_step st' = num_steps st' - num_steps st)%nat.
Proof.
  intros Hokt Hokv. unfold run_epoch.
  intros (st1 & [Hpos Hloop]%epoch_train_Ok & Hend)%bind_Ok.
  destruct (epoch_begin_state cfg st epoch)
    as (Hn0 & Hl0 & Hp0 & Htl0 & Htm0 & Hvm0 & Hw0 & Hi0 & He0).
  destruct (registry_ok_reset cfg _ Hokt) as [Hrt Hokt0].
  destruct (registry_ok_reset cfg _ Hokv) as [Hrv Hokv0].
  rewrite <-Htm0 in Hokt0. rewrite <-Hvm0 in Hokv0.
  pose proof Hloop as Hloop'.
  apply micro_loop_Ok in Hloop
    as (Hp1 & Hv1 & Hl1 & Hn1 & Hs1 & Hok1 & es1 & He1 & Hc1).
  specialize (Hok1 Hokt0). destruct (Hc1 Hokt0) as (Hcv & Hcb & Hcl).
  rewrite <-Hv1 in Hokv0.
  apply (epoch_end_Ok _ _ _ _ _ _ Hokv0) in Hend
    as (st2 & logs & es2 & _ & Hts & Hn2 & Hls2 & Hp2 & Htm2 & Hvm2 & Hok2
        & Htl2 & He2 & Hv2 & Hb2 & Hlr2).
  unfold epoch_batches in Hp1. rewrite length_fmap, length_seq in Hp1.
  split; [|lia].
  split.
  - by right.
  - lia.
  - lia.
  - intros Hg. apply (micro_loop_every_step cfg _ 0 _ _ Hg) in Hloop'.
    unfold epoch_batches in Hloop'. rewrite length_fmap, length_seq in Hloop'.
    rewrite Hg, Z.mul_1_r in Hloop'. lia.
  - by rewrite Htm2.
  - done.
  - exists ([OnEpochBegin epoch; Printed (epoch_banner cfg epoch)] ++ es1 ++ es2).
    split; [by rewrite He2, He1, He0, <-!app_assoc|].
    rewrite !count_events_app, Hcv, Hcb, Hcl, Hv2, Hb2, Hlr2.
    rewrite Hn2, Hn0. unfold count_events. simpl. lia.
Qed.

Lemma run_epoch_total cfg good train_dataset valid_dataset steps_per_epoch
    st epoch :
  registry_ok cfg (train_metrics st) → registry_ok cfg (valid_metrics st) →
  good (train_state st) → reset_ok good →
  0 ≤ steps_per_epoch * gradient_accumulation_steps cfg →
  (∀ i, train_step_ok cfg good (train_dataset epoch i)) →
  Forall (test_step_ok cfg) valid_dataset →
  ∃ st', run_epoch cfg train_dataset valid_dataset steps_per_epoch st epoch
         = Ok st'
         ∧ good (train_state st').
Proof.
  intros Hokt Hokv Hgood Hreset Hpos Htrain Htest.
  destruct (epoch_begin_state cfg st epoch)
    as (Hn0 & Hl0 & Hp0 & Htl0 & Htm0 & Hvm0 & Hw0 & Hi0 & He0).
  destruct (registry_ok_reset cfg _ Hokt) as [Hrt Hokt0].
  destruct (registry_ok_reset cfg _ Hokv) as [Hrv Hokv0].
  rewrite <-Htm0 in Hokt0. rewrite <-Hvm0 in Hokv0.
  assert (Hgood0 : good (train_state (epoch_begin cfg st epoch))).
  { destruct st as [ts0 n l tm vm tl p ev]. simpl. by apply Hreset. }
  assert (Hloop : ∃ st1, for_each (micro_step cfg) (epoch_begin cfg st epoch)
            (enumerate (epoch_batches cfg train_dataset steps_per_epoch epoch))
          = Ok st1 ∧ good (train_state st1)).
  { destruct (decide (gradient_accumulation_steps cfg = 0)) as [H0|H0].
    - unfold epoch_batches. rewrite H0, Z.mul_0_r. by eexists.
    - apply micro_loop_total; [done| |done|done].
      apply Forall_fmap, Forall_true. intros i. apply Htrain. }
  destruct Hloop as (st1 & Hloop & Hgood1).
  unfold run_epoch.
  rewrite (proj2 (epoch_train_Ok _ _ _ _ _ st1) (conj Hpos Hloop)), bind_Ok_l.
  apply micro_loop_Ok in Hloop as (_ & Hv1 & _).
  rewrite <-Hv1 in Hokv0.
  destruct (eval_metrics_total cfg (weights (train_state st1)) valid_dataset
              (valid_metrics st1) Htest Hokv0) as (dicts & Hm & _).
  destruct (evaluate_total cfg valid_dataset true st1 dicts Hm)
    as (st2 & logs & Hev).
  unfold epoch_end. rewrite Hev. simpl. eexists. split; [done|]. simpl.
  apply evaluate_Ok in Hev as ((Hts & _) & _). by rewrite Hts.
Qed.

(** *** The whole run *)

Lemma epoch_effect_refl cfg steps_per_epoch st :
  registry_ok cfg (train_metrics st) → registry_ok cfg (valid_metrics st) →
  epoch_effect cfg steps_per_epoch 0 st st.
Proof.
  intros Hokt Hokv. split.
  - by left.
  - lia.
  - lia.
  - intros _. lia.
  - done.
  - done.
  - exists []. rewrite app_nil_r, Nat.sub_diag. done.
Qed.

Lemma epoch_effect_trans cfg steps_per_epoch n1 n2 st1 st2 st3 :
  epoch_effect cfg steps_per_epoch n1 st1 st2 →
  epoch_effect cfg steps_per_epoch n2 st2 st3 →
  epoch_effect cfg steps_per_epoch (n1 + n2) st1 st3.
Proof.
  intros [Ht1 Hp1 Hn1 Hg1 Hokt1 Hokv1 (es1 & He1 & Hv1 & Hb1 & Hl1)]
         [Ht2 Hp2 Hn2 Hg2 Hokt2 Hokv2 (es2 & He2 & Hv2 & Hb2 & Hl2)].
  split.
  - destruct Ht1 as [->|?]; [|by right]. destruct Ht2 as [->|?]; [by left|by right].
  - lia.
  - lia.
  - intros Hg. rewrite (Hg2 Hg), (Hg1 Hg). lia.
  - done.
  - done.
  - exists (es1 ++ es2). split; [by rewrite He2, He1, app_assoc|].
    rewrite !count_events_app. lia.
Qed.

Lemma epochs_loop_Ok cfg train_dataset valid_dataset steps_per_epoch
    epoch_list st st' :
  registry_ok cfg (train_metrics st) → registry_ok cfg (valid_metrics st) →
  for_each (run_epoch cfg train_dataset valid_dataset steps_per_epoch) st
    epoch_list = Ok st' →
  epoch_effect cfg steps_per_epoch (length epoch_list) st st'.
Proof.
  revert st. induction epoch_list as [|epoch epoch_list IH]; intros st Hokt Hokv.
  - intros [= <-]. by apply epoch_effect_refl.
  - cbn [for_each]. intros (st1 & H1 & H2)%bind_Ok.
    apply run_epoch_Ok in H1 as [H1 _]; [|done|done].
    apply IH in H2; [|apply H1|apply H1].
    apply (epoch_effect_trans _ _ 1 _ _ _ _ H1 H2).
Qed.

Lemma epochs_loop_total cfg good train_dataset valid_dataset steps_per_epoch
    epoch_list st :
  registry_ok cfg (train_metrics st) → registry_ok cfg (valid_metrics st) →
  good (train_state st) → reset_ok good →
  0 ≤ steps_per_epoch * gradient_accumulation_steps cfg →
  (∀ epoch i, train_step_ok cfg good (train_dataset epoch i)) →
  Forall (test_step_ok cfg) valid_dataset →
  ∃ st', for_each (run_epoch cfg train_dataset valid_dataset steps_per_epoch) st
           epoch_list = Ok st'.
Proof.
  intros Hokt Hokv Hgood Hreset Hpos Htrain Htest.
  destruct (for_each_total
              (λ s, registry_ok cfg (train_metrics s)
                    ∧ registry_ok cfg (valid_metrics s)
                    ∧ good (train_state s))
              (run_epoch cfg train_dataset valid_dataset steps_per_epoch)
              epoch_list) with (s := st) as (st' & H & _); [|done|by exists st'].
  intros s epoch _ (Hs1 & Hs2 & Hs3).
  destruct (run_epoch_total cfg good train_dataset valid_dataset steps_per_epoch
              s epoch) as (s' & Hs' & Hgs'); [done..|].
  exists s'. split; [done|].
  apply run_epoch_Ok in Hs' as [Hs' _]; [|done|done].
  split; [apply Hs'|]. split; [apply Hs'|done].
Qed.

Lemma early_eval_Ok cfg valid_dataset st st' :
  registry_ok cfg (valid_metrics st) →
  early_eval cfg valid_dataset st = Ok st' →
  same_training st st'
  ∧ registry_ok cfg (valid_metrics st')
  ∧ ∃ es, events st' = events st ++ es
          ∧ count_events is_val_log es
            = (if skip_early_eval cfg then 0 else 1)%nat
          ∧ count_events is_batch_log es = 0%nat
          ∧ count_events is_learning_rate_log es = 0%nat.
Proof.
  intros Hok. unfold early_eval. destruct (skip_early_eval cfg).
  - intros [= <-]. split; [by unfold same_training|]. split; [done|].
    by exists [LoggingInfo "Skipping early evaluation"].
  - intros ([st1 logs] & Hev & ->)%fmap_Ok.
    destruct (evaluate_pass _ _ _ _ _ _ Hok Hev)
      as (Hs & Hok' & es & He & Hv & Hb & Hl & _).
    split; [done|]. split; [done|]. by exists es.
Qed.

Lemma early_eval_total cfg valid_dataset st :
  registry_ok cfg (valid_metrics st) →
  Forall (test_step_ok cfg) valid_dataset →
  ∃ st', early_eval cfg valid_dataset st = Ok st'.
Proof.
  intros Hok Htest. unfold early_eval.
  destruct (skip_early_eval cfg); [by eexists|].
  destruct (eval_metrics_total cfg (weights (train_state st)) valid_dataset
              (valid_metrics st) Htest Hok) as (dicts & Hm & _).
  destruct (evaluate_total cfg valid_dataset false st dicts Hm)
    as (st1 & logs & ->).
  by eexists.
Qed.

(** The run as a whole: how many batches it takes, how far [num_steps]
    gets and what it logs. *)
Lemma run_train_from_Ok cfg train_dataset valid_dataset steps_per_epoch st st' :
  registry_ok cfg (train_metrics st) → registry_ok cfg (valid_metrics st) →
  run_train_from cfg train_dataset valid_dataset steps_per_epoch st = Ok st' →
  let epochs_run := Z.to_nat (epochs cfg - initial_epoch cfg) in
  pulled st'
  = (pulled st + epochs_run
       * Z.to_nat (steps_per_epoch * gradient_accumulation_steps cfg))%nat
  ∧ (num_steps st ≤ num_steps st')%nat
  ∧ (gradient_accumulation_steps cfg = 1 →
     num_steps st' = (num_steps st + epochs_run * Z.to_nat steps_per_epoch)%nat)
  ∧ ∃ es, events st' = events st ++ es
          ∧ count_events is_val_log es
            = ((if skip_early_eval cfg then 0 else 1) + epochs_run)%nat
          ∧ count_events is_batch_log es = (num_steps st' - num_steps st)%nat
          ∧ count_events is_learning_rate_log es
            = (num_steps st' - num_steps st)%nat.
Proof.
  intros Hokt Hokv. unfold run_train_from.
  intros (st1 & Hearly & H)%bind_Ok.
  apply bind_Ok in H as (st2 & Hloop & [= <-]).
  apply early_eval_Ok in Hearly
    as ((Hts & Hn & Hls & Htm & Htl & Hp) & Hokv1 & es1 & He1 & Hv1 & Hb1 & Hl1);
    [|done].
  apply epochs_loop_Ok in Hloop; [|simpl; by rewrite Htm|done].
  rewrite length_py_range in Hloop.
  destruct Hloop as [Ht2 Hp2 Hn2 Hg2 Hokt2 Hokv2 (es2 & He2 & Hv2 & Hb2 & Hl2)].
  simpl in *. split; [lia|]. split; [lia|]. split.
  { intros Hg. rewrite (Hg2 Hg). lia. }
  exists (es1 ++ [OnTrainBegin] ++ es2 ++ [OnTrainEnd (training_logs st2)]).
  split; [by rewrite He2, He1, <-!app_assoc|].
  rewrite !count_events_app, Hv1, Hb1, Hl1, Hv2, Hb2, Hl2.
  unfold count_events. simpl. lia.
Qed.

Lemma run_train_from_total cfg good train_dataset valid_dataset
    steps_per_epoch st :
  registry_ok cfg (train_metrics st) → registry_ok cfg (valid_metrics st) →
  good (train_state st) → reset_ok good →
  0 ≤ steps_per_epoch * gradient_accumulation_steps cfg →
  (∀ epoch i, train_step_ok cfg good (train_dataset epoch i)) →
  Forall (test_step_ok cfg) valid_dataset →
  ∃ st', run_train_from cfg train_dataset valid_dataset steps_per_epoch st
         = Ok st'.
Proof.
  intros Hokt Hokv Hgood Hreset Hpos Htrain Htest. unfold run_train_from.
  destruct (early_eval_total cfg valid_dataset st Hokv Htest) as [st1 H1].
  rewrite H1, bind_Ok_l.
  apply early_eval_Ok in H1 as ((Hts & _ & _ & Htm & _) & Hokv1 & _); [|done].
  destruct (epochs_loop_total cfg good train_dataset valid_dataset
              steps_per_epoch
              (py_range (initial_epoch cfg) (epochs cfg)) (emit OnTrainBegin st1))
    as [st2 H2]; [simpl; by rewrite Htm|done|simpl; by rewrite Hts|done..|].
  rewrite H2. simpl. by eexists.
Qed.

(** *** The mean across replicas *)

Lemma Qc_of_nat_S n : Qc_of_nat (S n) = (Qc_of_nat n + 1)%Qc.
Proof.
  unfold Qc_of_nat. by rewrite Nat2Z.inj_succ, <-Z.add_1_r, Z2Qc_inj_add, Z2Qc_inj_1.
Qed.

Lemma Qc_of_nat_S_ne_0 n : Qc_of_nat (S n) ≠ 0%Qc.
Proof.
  unfold Qc_of_nat. rewrite <-Z2Qc_inj_0. intros H%Z2Qc_inj. lia.
Qed.

Lemma tensor_add_scaled (c : Qc) (v : Tensor) :
  tensor_add ((λ x, c * x)%Qc <$> v) v = (λ x, (c + 1) * x)%Qc <$> v.
Proof.
  unfold tensor_add. induction v as [|x v IH]; csimpl; [done|].
  rewrite IH. f_equal. ring.
Qed.

Lemma foldl_tensor_add_replicate (c : Qc) (v : Tensor) (n : nat) :
  foldl tensor_add ((λ x, c * x)%Qc <$> v) (replicate n v)
  = (λ x, (c + Qc_of_nat n) * x)%Qc <$> v.
Proof.
  assert (H0 : Qc_of_nat 0 = 0%Qc) by apply Z2Qc_inj_0.
  revert c. induction n as [|n IH]; intros c; cbn [replicate foldl].
  - apply list_fmap_ext. intros _ x _. cbv beta. rewrite H0. ring.
  - rewrite tensor_add_scaled, IH. apply list_fmap_ext. intros _ x _. cbv beta.
    rewrite Qc_of_nat_S. ring.
Qed.

Lemma strategy_reduce_sum_replicate (n : nat) (v : Tensor) :
  strategy_reduce SUM (replicate (S n) v)
  = (λ x, Qc_of_nat (S n) * x)%Qc <$> v.
Proof.
  cbn [strategy_reduce replicate].
  assert (Hv : v = (λ x, 1 * x)%Qc <$> v).
  { rewrite <-(list_fmap_id v) at 1. apply list_fmap_ext. intros _ x _.
    cbv [id]. ring. }
  rewrite Hv at 1.
  rewrite foldl_tensor_add_replicate. apply list_fmap_ext. intros _ x _.
  cbv beta. rewrite Qc_of_nat_S. ring.
Qed.

Lemma strategy_reduce_mean_replicate (n : nat) (v : Tensor) :
  strategy_reduce MEAN (replicate (S n) v) = v.
Proof.
  pose proof (strategy_reduce_sum_replicate n v) as Hsum.
  unfold strategy_reduce in *. rewrite Hsum, length_replicate.
  unfold tensor_div. rewrite <-list_fmap_compose.
  rewrite <-(list_fmap_id v) at 2. apply list_fmap_ext. intros _ x _.
  cbv [compose id]. pose proof (Qc_of_nat_S_ne_0 n). by field.
Qed.

(** An entry of the reduction of same-shaped replicas: the replicas'
    entries at that place, added from the first replica on, and for
    [MEAN] divided by the number of replicas. This holds in any
    arithmetic, rounded or not. *)
Lemma foldl_zip_with_lookup {F : Type} (add : F → F → F)
    (vs : list (list F)) (v : list F) (i : nat) (x : F) (xs : list F) :
  v !! i = Some x → Forall2 (λ w y, w !! i = Some y) vs xs →
  foldl (zip_with add) v vs !! i = Some (foldl add x xs).
Proof.
  intros Hv Hvs. revert v x Hv.
  induction Hvs as [|w y vs xs Hw _ IH]; intros v x Hv; cbn [foldl]; [done|].
  apply IH. rewrite lookup_zip_with, Hv. simpl. by rewrite Hw.
Qed.

Lemma strategy_reduce_in_lookup {F : Type} `{Entries F}
    (value : list (list F)) (i : nat) (x : F) (xs : list F) :
  Forall2 (λ v y, v !! i = Some y) value (x :: xs) →
  strategy_reduce_in SUM value !! i = Some (foldl entry_add x xs)
  ∧ strategy_reduce_in MEAN value !! i
    = Some (entry_div (foldl entry_add x xs) (entry_of_nat (length value))).
Proof.
  intros Hall. inversion Hall as [|v y vs ys Hv Hvs]; subst.
  pose proof (foldl_zip_with_lookup entry_add vs v i x xs Hv Hvs) as Hsum.
  unfold strategy_reduce_in. split; [done|].
  by rewrite list_lookup_fmap, Hsum.
Qed.

Lemma strategy_reduce_exact (op : ReduceOp) (value : list Tensor) :
  strategy_reduce op value = strategy_reduce_in op value.
Proof. by destruct op. Qed.

(** C4, as the claim states it, fails in the arithmetic TensorFlow
    computes in: the mean of three equal floats need not be the float.
    In binary64 the float [1/10] is [7205759403792794 * 2^-56], and the
    mean of three replicas holding it is [7205759403792795 * 2^-56]
    ([0.1] and [0.10000000000000002]); in binary32 the float [9/10] is
    [15099494 * 2^-24] and the mean of three replicas holding it is
    [15099493 * 2^-24]. The sum of three replicas is rounded before it
    is divided. With two replicas both means are the value. *)
Lemma mean_of_three_equal_floats_is_rounded :
  float_ratio binary64 1 10 = SpecFloat.S754_finite false 7205759403792794 (-56)
  ∧ @strategy_reduce_in _ binary64 MEAN (replicate 3 [float_ratio binary64 1 10])
    = [SpecFloat.S754_finite false 7205759403792795 (-56)]
  ∧ float_ratio binary32 9 10 = SpecFloat.S754_finite false 15099494 (-24)
  ∧ @strategy_reduce_in _ binary32 MEAN (replicate 3 [float_ratio binary32 9 10])
    = [SpecFloat.S754_finite false 15099493 (-24)]
  ∧ @strategy_reduce_in _ binary64 MEAN (replicate 2 [float_ratio binary64 1 10])
    = [float_ratio binary64 1 10]
  ∧ @strategy_reduce_in _ binary32 MEAN (replicate 2 [float_ratio binary32 9 10])
    = [float_ratio binary32 9 10].
Proof. repeat split; vm_compute; reflexivity. Qed.

(** C4 (amended): in a distributed run the loss and every named output of
    a step are reduced with [ReduceOp.MEAN], and it is these means that
    the loop folds into the metrics. An entry of the mean of same-shaped
    replicas is the sum of the replicas' entries divided by the number of
    replicas, in exact arithmetic and in any rounded one; an entry of the
    sum is that sum undivided. In exact arithmetic a value that is the
    same on all [N] replicas is reduced to itself, where a sum would have
    given [N] times the value. *)
Theorem distributed_outputs_reduced_by_mean (cfg : Config) :
  (∀ (losses : list Tensor) (outputs : gmap string (list Tensor)),
     strategy_reduce_mean losses outputs
     = (strategy_reduce MEAN losses, strategy_reduce MEAN <$> outputs))
  ∧ (∀ (losses : list Tensor) (outputs : gmap string (list Tensor)) name,
       (strategy_reduce_mean losses outputs).2 !! name
       = strategy_reduce MEAN <$> (outputs !! name))
  ∧ (∀ (value : list Tensor) (i : nat) (x : Qc) (xs : list Qc),
       Forall2 (λ v y, v !! i = Some y) value (x :: xs) →
       strategy_reduce MEAN value !! i
       = Some (foldl Qcplus x xs / Qc_of_nat (length value))%Qc
       ∧ strategy_reduce SUM value !! i = Some (foldl Qcplus x xs))
  ∧ (∀ (op : ReduceOp) (value : list Tensor),
       strategy_reduce op value = strategy_reduce_in op value)
  ∧ (∀ (F : Type) (E : Entries F) (value : list (list F)) (i : nat)
       (x : F) (xs : list F),
       Forall2 (λ v y, v !! i = Some y) value (x :: xs) →
       strategy_reduce_in MEAN value !! i
       = Some (entry_div (foldl entry_add x xs) (entry_of_nat (length value)))
       ∧ strategy_reduce_in SUM value !! i = Some (foldl entry_add x xs))
  ∧ (∀ (n : nat) (v : Tensor),
       strategy_reduce MEAN (replicate (S n) v) = v
       ∧ strategy_reduce SUM (replicate (S n) v)
         = (λ x, Qc_of_nat (S n) * x)%Qc <$> v)
  ∧ (distribute cfg = true →
     ∀ ts inputs take_step ts' (loss : Tensor) (outputs : gmap string Tensor),
       train_fn cfg ts inputs take_step = Ok (ts', (loss, outputs)) ↔
       ∃ (losses : list Tensor) (per_replica : gmap string (list Tensor)),
         strategy_run_train_step ts inputs take_step
         = Ok (ts', (losses, per_replica))
         ∧ loss = strategy_reduce MEAN losses
         ∧ outputs = strategy_reduce MEAN <$> per_replica)
  ∧ (distribute cfg = true →
     ∀ w inputs (loss : Tensor) (outputs : gmap string Tensor),
       test_fn cfg w inputs = Ok (loss, outputs) ↔
       ∃ (losses : list Tensor) (per_replica : gmap string (list Tensor)),
         strategy_run_test_step w inputs = Ok (losses, per_replica)
         ∧ loss = strategy_reduce MEAN losses
         ∧ outputs = strategy_reduce MEAN <$> per_replica)
  ∧ (∀ st step inputs st',
       micro_step cfg st (step, inputs) = Ok st' →
       num_steps st' = S (num_steps st) →
       ∃ ts loss outputs,
         train_fn cfg (train_state st) inputs true = Ok (ts, (loss, outputs))
         ∧ assign_new_metrics cfg (train_metrics st) loss outputs
           = Ok (train_metrics st'))
  ∧ (∀ rc st index inputs st',
       evaluate_batch cfg rc st (index, inputs) = Ok st' →
       ∃ loss outputs,
         test_fn cfg (weights (train_state st)) inputs = Ok (loss, outputs)
         ∧ assign_new_metrics cfg (valid_metrics st) loss outputs
           = Ok (valid_metrics st')).
Proof.
  split; [done|]. split.
  { intros losses outputs name. unfold strategy_reduce_mean. simpl.
    by rewrite lookup_fmap. }
  split.
  { intros value i x xs Hall. rewrite !strategy_reduce_exact.
    destruct (strategy_reduce_in_lookup value i x xs Hall) as [Hsum Hmean].
    by split. }
  split; [exact strategy_reduce_exact|].
  split.
  { intros F E value i x xs Hall.
    destruct (strategy_reduce_in_lookup value i x xs Hall) as [Hsum Hmean].
    by split. }
  split.
  { intros n v. split; [apply strategy_reduce_mean_replicate
                       |apply strategy_reduce_sum_replicate]. }
  split.
  { intros Hd ts inputs take_step ts' loss outputs.
    unfold train_fn, distributed_train_step. rewrite Hd, bind_Ok. split.
    - intros ([ts1 [losses per_replica]] & Hrun & [= <- <- <-]).
      by exists losses, per_replica.
    - intros (losses & per_replica & Hrun & -> & ->).
      by exists (ts', (losses, per_replica)). }
  split.
  { intros Hd w inputs loss outputs.
    unfold test_fn, distributed_test_step. rewrite Hd, bind_Ok. split.
    - intros ([losses per_replica] & Hrun & [= <- <-]).
      by exists losses, per_replica.
    - intros (losses & per_replica & Hrun & -> & ->).
      by exists (losses, per_replica). }
  split.
  - intros st step inputs st' Hstep Hn.
    apply micro_step_Ok in Hstep
      as (boundary & ts & loss & outputs & _ & Ht & _ & _ & _ & _ & H).
    destruct boundary.
    + destruct H as (dicts & Hd & Hm & _). exists ts, loss, outputs.
      by rewrite Hm.
    + destruct H as (_ & Hn' & _). lia.
  - intros rc st index inputs st' H.
    by apply evaluate_batch_Ok in H as (_ & H & _).
Qed.

(** *** The training step *)

Lemma accumulate_first grads : accumulate [] grads = Ok grads.
Proof. done. Qed.

Lemma accumulate_lookup sums grads sums' i s g :
  sums ≠ [] → accumulate sums grads = Ok sums' →
  sums !! i = Some (Some s) → grads !! i = Some (Some g) →
  sums' !! i = Some (Some (tensor_add s g)).
Proof.
  intros Hne. unfold accumulate. rewrite decide_False by done.
  destruct (decide (length sums ≠ length grads)); [done|].
  intros Hall%list_comp_Ok Hs Hg.
  assert (Hz : zip sums grads !! i = Some (Some s, Some g)).
  { apply lookup_zip_with_Some. by exists (Some s), (Some g). }
  destruct (Forall2_lookup_l _ _ _ _ _ Hall Hz) as (y & Hy & Hadd).
  rewrite Hy. simpl in Hadd.
  destruct (decide (length s = length g)); [|done]. by injection Hadd as <-.
Qed.

Lemma accumulator_reset_zero sums i t :
  accumulator_reset sums !! i = Some (Some t) → Forall (λ x, x = 0%Qc) t.
Proof.
  unfold accumulator_reset. rewrite list_lookup_fmap.
  destruct (sums !! i) as [[s|]|]; simpl; [|done|done].
  intros [= <-]. unfold zeros_like. apply Forall_fmap, Forall_true. done.
Qed.

Lemma train_step_Ok cfg ts inputs take_step ts' r :
  train_step cfg ts inputs take_step = Ok (ts', r) ↔
  ∃ wrapped sums,
    wrap_inputs (include_sections cfg) inputs = Ok wrapped
    ∧ accumulate (accumulator ts) (tape_gradient (weights ts) wrapped) = Ok sums
    ∧ r = model (weights ts) wrapped true
    ∧ ts' = after_step cfg ts sums take_step.
Proof.
  unfold train_step, after_step. rewrite bind_Ok. split.
  - intros (wrapped & Hw & H). exists wrapped.
    destruct (model (weights ts) wrapped true) as [loss outputs].
    apply bind_Ok in H as (sums & Hs & H). exists sums.
    destruct take_step; injection H as <- <-; done.
  - intros (wrapped & sums & Hw & Hs & -> & ->). exists wrapped. split; [done|].
    destruct (model (weights ts) wrapped true) as [loss outputs].
    rewrite Hs, bind_Ok_l. by destruct take_step.
Qed.

(** C2: every training step adds its gradients to the running sums. If
    and only if the step is taken as an accumulation boundary, each sum is
    divided by [gradient_accumulation_steps], the set is clipped by global
    norm with threshold 1.0, the optimizer applies it (its iteration count
    goes up by one) and the sums are zeroed; on any other step the
    variables and the iteration count stay as they are and the sums are
    kept. The loop passes its boundary decision as [take_step]. *)
Theorem train_step_applies_on_boundary_only
    (cfg : Config) (ts ts' : TrainState) (inputs : list (PyVal A))
    (take_step : bool) (r : Tensor * gmap string Tensor) :
  (train_step cfg ts inputs take_step = Ok (ts', r) ↔
   ∃ wrapped sums,
     wrap_inputs (include_sections cfg) inputs = Ok wrapped
     ∧ accumulate (accumulator ts) (tape_gradient (weights ts) wrapped) = Ok sums
     ∧ r = model (weights ts) wrapped true
     ∧ weights ts'
       = (if take_step then
            apply_gradients (weights ts)
              (clip_by_global_norm
                 ((λ g : option Tensor,
                     (λ t, tensor_div t
                             (Qc_of_Z (gradient_accumulation_steps cfg)))
                     <$> g) <$> sums) 1%Qc)
          else weights ts)
     ∧ accumulator ts' = (if take_step then accumulator_reset sums else sums)
     ∧ iterations ts'
       = (if take_step then S (iterations ts) else iterations ts))
  ∧ (train_step cfg ts inputs take_step = Ok (ts', r) →
     (iterations ts' = S (iterations ts) ↔ take_step = true)
     ∧ (take_step = false → weights ts' = weights ts)
     ∧ (take_step = true →
        ∀ i t, accumulator ts' !! i = Some (Some t) → Forall (λ x, x = 0%Qc) t))
  ∧ (∀ grads, accumulate [] grads = Ok grads)
  ∧ (∀ sums grads sums' i s g,
       sums ≠ [] → accumulate sums grads = Ok sums' →
       sums !! i = Some (Some s) → grads !! i = Some (Some g) →
       sums' !! i = Some (Some (tensor_add s g)))
  ∧ (distribute cfg = false →
     ∀ st step st',
       micro_step cfg st (step, inputs) = Ok st' →
       ∃ boundary r',
         accumulation_step cfg step (num_steps st) = Ok boundary
         ∧ train_step cfg (train_state st) inputs boundary
           = Ok (train_state st', r')
         ∧ (iterations (train_state st') = S (iterations (train_state st))
            ↔ boundary = true)).
Proof.
  assert (Hiff : ∀ ts0 ts1 b r0, train_step cfg ts0 inputs b = Ok (ts1, r0) →
            (iterations ts1 = S (iterations ts0) ↔ b = true)).
  { intros ts0 ts1 b r0 (wrapped & sums & _ & _ & _ & ->)%train_step_Ok.
    destruct b; simpl; split; (done || lia). }
  split; [|split; [|split; [|split]]].
  - rewrite train_step_Ok. split.
    + intros (wrapped & sums & Hw & Hs & -> & ->). exists wrapped, sums.
      by destruct take_step.
    + intros (wrapped & sums & Hw & Hs & -> & H1 & H2 & H3).
      exists wrapped, sums. repeat (split; [done|]).
      destruct ts' as [w a n]. simpl in *. subst. by destruct take_step.
  - intros H. split; [by eapply Hiff|].
    apply train_step_Ok in H as (wrapped & sums & _ & _ & _ & ->). split.
    + by intros ->.
    + intros -> i t. simpl. apply accumulator_reset_zero.
  - apply accumulate_first.
  - apply accumulate_lookup.
  - intros Hd st step st' Hstep.
    apply micro_step_Ok in Hstep
      as (boundary & ts1 & loss & outputs & Hb & Ht & <- & _).
    unfold train_fn in Ht. rewrite Hd in Ht.
    exists boundary, (loss, outputs). split; [done|]. split; [done|].
    by eapply Hiff.
Qed.

(** *** The two counters *)

Lemma epoch_end_same cfg valid_dataset steps_per_epoch st epoch st' :
  epoch_end cfg valid_dataset steps_per_epoch st epoch = Ok st' →
  train_state st' = train_state st
  ∧ num_steps st' = num_steps st
  ∧ local_step st' = local_step st
  ∧ pulled st' = pulled st.
Proof.
  unfold epoch_end. intros ([st2 eval_logs] & Hev & [= <-])%bind_Ok.
  apply evaluate_Ok in Hev as ((Hts & Hn & Hls & _ & _ & Hp) & _). by simpl.
Qed.

Lemma run_epoch_counters cfg train_dataset valid_dataset steps_per_epoch
    st epoch st' :
  run_epoch cfg train_dataset valid_dataset steps_per_epoch st epoch = Ok st' →
  (num_steps st ≤ num_steps st')%nat
  ∧ local_step st' = (num_steps st' - num_steps st)%nat
  ∧ pulled st'
    = (pulled st
       + Z.to_nat (steps_per_epoch * gradient_accumulation_steps cfg))%nat.
Proof.
  unfold run_epoch.
  intros (st1 & [Hpos Hloop]%epoch_train_Ok & Hend)%bind_Ok.
  destruct (epoch_begin_state cfg st epoch) as (Hn0 & Hl0 & Hp0 & _).
  apply micro_loop_Ok in Hloop as (Hp1 & _ & _ & Hn1 & Hs1 & _).
  apply epoch_end_same in Hend as (_ & Hn2 & Hl2 & Hp2).
  unfold epoch_batches in Hp1. rewrite length_fmap, length_seq in Hp1. lia.
Qed.

Lemma epochs_loop_counters cfg train_dataset valid_dataset steps_per_epoch
    epoch_list st st' :
  for_each (run_epoch cfg train_dataset valid_dataset steps_per_epoch) st
    epoch_list = Ok st' →
  (num_steps st ≤ num_steps st')%nat.
Proof.
  intros H.
  eapply (for_each_invariant (λ s, (num_steps st ≤ num_steps s)%nat));
    [|apply Nat.le_refl|exact H].
  intros s epoch s' _ Hs Hrun. apply run_epoch_counters in Hrun. lia.
Qed.

Lemma run_train_from_counters cfg train_dataset valid_dataset steps_per_epoch
    st st' :
  run_train_from cfg train_dataset valid_dataset steps_per_epoch st = Ok st' →
  (num_steps st ≤ num_steps st')%nat.
Proof.
  unfold run_train_from. intros (st1 & Hearly & H)%bind_Ok.
  apply bind_Ok in H as (st2 & Hloop & [= <-]).
  apply epochs_loop_counters in Hloop. simpl in *.
  assert (num_steps st1 = num_steps st); [|lia].
  unfold early_eval in Hearly. destruct (skip_early_eval cfg).
  - by injection Hearly as <-.
  - apply fmap_Ok in Hearly as ([st0 logs] & Hev & ->).
    by apply evaluate_Ok in Hev as ((_ & Hn & _) & _).
Qed.

(** C6: [local_step] is set to 0 at the head of every epoch and
    [num_steps] is not touched there; a micro-batch adds one to both
    counters when it is an accumulation boundary and leaves both alone
    when it is not; evaluation leaves both alone. So [num_steps] never
    goes down, over an epoch or over the run, and at the end of an epoch
    [local_step] is the number of boundaries of that epoch. *)
Theorem step_counters_advance_on_boundaries (cfg : Config)
    (train_dataset : Z → nat → list (PyVal A))
    (valid_dataset : list (list (PyVal A))) (steps_per_epoch : Z) :
  (∀ st epoch,
     local_step (epoch_begin cfg st epoch) = 0%nat
     ∧ num_steps (epoch_begin cfg st epoch) = num_steps st)
  ∧ (∀ st step inputs st',
       micro_step cfg st (step, inputs) = Ok st' →
       ∃ boundary,
         accumulation_step cfg step (num_steps st) = Ok boundary
         ∧ num_steps st'
           = (if boundary then S (num_steps st) else num_steps st)
         ∧ local_step st'
           = (if boundary then S (local_step st) else local_step st))
  ∧ (∀ rc st st' logs,
       evaluate cfg valid_dataset rc st = Ok (st', logs) →
       num_steps st' = num_steps st ∧ local_step st' = local_step st)
  ∧ (∀ st epoch st',
       run_epoch cfg train_dataset valid_dataset steps_per_epoch st epoch
       = Ok st' →
       (num_steps st ≤ num_steps st')%nat
       ∧ local_step st' = (num_steps st' - num_steps st)%nat)
  ∧ (∀ st st',
       run_train_from cfg train_dataset valid_dataset steps_per_epoch st
       = Ok st' →
       (num_steps st ≤ num_steps st')%nat)
  ∧ num_steps (initial_state cfg steps_per_epoch) = 0%nat.
Proof.
  split; [|split; [|split; [|split; [|split]]]].
  - intros st epoch. by destruct (epoch_begin_state cfg st epoch) as (? & ? & _).
  - intros st step inputs st'
      (boundary & ts & loss & outputs & Hb & _ & _ & _ & _ & _ & H)%micro_step_Ok.
    exists boundary. split; [done|]. destruct boundary.
    + by destruct H as (dicts & _ & _ & -> & -> & _).
    + by destruct H as (_ & -> & -> & _).
  - intros rc st st' logs ((_ & Hn & Hl & _) & _)%evaluate_Ok. done.
  - intros st epoch st' (? & ? & _)%run_epoch_counters. done.
  - intros st st'. apply run_train_from_counters.
  - done.
Qed.

(** *** Resetting the metrics *)

Lemma fold_updates_ok cfg dicts steps dicts' :
  registry_ok cfg dicts → fold_updates cfg dicts steps = Ok dicts' →
  registry_ok cfg dicts'.
Proof.
  unfold fold_updates. apply (for_each_invariant (registry_ok cfg)).
  intros s x s' _ Hs H. by eapply assign_new_metrics_ok.
Qed.

Lemma epoch_begin_fresh cfg st epoch :
  registry_ok cfg (train_metrics st) → registry_ok cfg (valid_metrics st) →
  train_metrics (epoch_begin cfg st epoch) = create_metric_map cfg
  ∧ valid_metrics (epoch_begin cfg st epoch) = create_metric_map cfg.
Proof.
  intros Hokt Hokv.
  destruct (epoch_begin_state cfg st epoch) as (_ & _ & _ & _ & -> & -> & _).
  done.
Qed.

Lemma epoch_begin_same_but_metrics cfg st1 st2 epoch :
  same_but_metrics st1 st2 →
  registry_ok cfg (train_metrics st1) → registry_ok cfg (valid_metrics st1) →
  registry_ok cfg (train_metrics st2) → registry_ok cfg (valid_metrics st2) →
  epoch_begin cfg st1 epoch = epoch_begin cfg st2 epoch.
Proof.
  intros (Hts & Hn & Hl & Htl & Hp & He) Ht1 Hv1 Ht2 Hv2.
  destruct st1 as [ts1 n1 l1 tm1 vm1 tl1 p1 ev1].
  destruct st2 as [ts2 n2 l2 tm2 vm2 tl2 p2 ev2].
  unfold registry_ok in *. simpl in *. subst.
  unfold epoch_begin, reset_metrics. simpl. by rewrite Ht1, Hv1, Ht2, Hv2.
Qed.

(** C7: the head of every epoch resets both registries, and nothing but
    an evaluation pass touches the validation registry, so every
    evaluation pass, the first one included, starts from the registry as
    it was built, and so does the training part of every epoch. A
    registry that is reset after some updates behaves from then on as a
    new one, and what an epoch logs and leaves in the registries does not
    depend on what they held before it. *)
Theorem metrics_reset_isolates_epochs (cfg : Config)
    (train_dataset : Z → nat → list (PyVal A))
    (valid_dataset : list (list (PyVal A))) (steps_per_epoch : Z) :
  (∀ before after dicts,
     fold_updates cfg (create_metric_map cfg) before = Ok dicts →
     reset_state <$> dicts = create_metric_map cfg
     ∧ fold_updates cfg (reset_state <$> dicts) after
       = fold_updates cfg (create_metric_map cfg) after)
  ∧ (∀ st epoch,
       train_metrics (epoch_begin cfg st epoch) = reset_state <$> train_metrics st
       ∧ valid_metrics (epoch_begin cfg st epoch)
         = reset_state <$> valid_metrics st)
  ∧ (train_metrics (initial_state cfg steps_per_epoch) = create_metric_map cfg
     ∧ valid_metrics (initial_state cfg steps_per_epoch) = create_metric_map cfg
     ∧ registry_ok cfg (create_metric_map cfg))
  ∧ (∀ st st',
       registry_ok cfg (train_metrics st) → registry_ok cfg (valid_metrics st) →
       early_eval cfg valid_dataset st = Ok st' →
       registry_ok cfg (train_metrics st') ∧ registry_ok cfg (valid_metrics st'))
  ∧ (∀ st epoch st',
       registry_ok cfg (train_metrics st) → registry_ok cfg (valid_metrics st) →
       run_epoch cfg train_dataset valid_dataset steps_per_epoch st epoch
       = Ok st' →
       registry_ok cfg (train_metrics st') ∧ registry_ok cfg (valid_metrics st'))
  ∧ (∀ st epoch st1,
       registry_ok cfg (train_metrics st) → registry_ok cfg (valid_metrics st) →
       train_metrics (epoch_begin cfg st epoch) = create_metric_map cfg
       ∧ (epoch_train cfg train_dataset steps_per_epoch
            (epoch_begin cfg st epoch) epoch = Ok st1 →
          valid_metrics st1 = create_metric_map cfg))
  ∧ (∀ rc st st' logs,
       valid_metrics st = create_metric_map cfg →
       evaluate cfg valid_dataset rc st = Ok (st', logs) →
       eval_metrics cfg (weights (train_state st)) valid_dataset
         (create_metric_map cfg) = Ok (valid_metrics st')
       ∧ logs = with_val_prefix (create_metric_logs (valid_metrics st')))
  ∧ (∀ st1 st2 epoch,
       same_but_metrics st1 st2 →
       registry_ok cfg (train_metrics st1) → registry_ok cfg (valid_metrics st1) →
       registry_ok cfg (train_metrics st2) → registry_ok cfg (valid_metrics st2) →
       run_epoch cfg train_dataset valid_dataset steps_per_epoch st1 epoch
       = run_epoch cfg train_dataset valid_dataset steps_per_epoch st2 epoch).
Proof.
  split; [|split; [|split; [|split; [|split; [|split; [|split]]]]]].
  - intros before after dicts H.
    apply fold_updates_ok in H; [|apply registry_ok_fresh].
    split; [exact H|]. by rewrite H.
  - intros st epoch.
    by destruct (epoch_begin_state cfg st epoch) as (_ & _ & _ & _ & ? & ? & _).
  - split; [done|]. split; [done|]. apply registry_ok_fresh.
  - intros st st' Hokt Hokv H.
    apply early_eval_Ok in H as ((_ & _ & _ & Htm & _) & Hokv' & _); [|done].
    by rewrite Htm.
  - intros st epoch st' Hokt Hokv H.
    apply run_epoch_Ok in H as [H _]; [|done|done]. split; apply H.
  - intros st epoch st1 Hokt Hokv.
    destruct (epoch_begin_fresh cfg st epoch Hokt Hokv) as [Ht Hv].
    split; [done|].
    intros [_ Hloop]%epoch_train_Ok.
    apply micro_loop_Ok in Hloop as (_ & Hv1 & _). by rewrite Hv1.
  - intros rc st st' logs Hfresh (_ & Hm & Hlogs & _)%evaluate_Ok.
    by rewrite Hfresh in Hm.
  - intros st1 st2 epoch Hsame Ht1 Hv1 Ht2 Hv2. unfold run_epoch.
    by rewrite (epoch_begin_same_but_metrics cfg st1 st2 epoch).
Qed.

(** *** The accumulation boundary *)

Lemma micro_step_first cfg st step inputs st' :
  first_step_inv st → micro_step cfg st (step, inputs) = Ok st' →
  first_step_inv st' ∧ num_steps st' ≠ 0%nat.
Proof.
  unfold first_step_inv. intros Hinv
    (boundary & ts & loss & outputs & Hb & _ & _ & Hp & _ & _ & H)%micro_step_Ok.
  apply accumulation_step_Ok in Hb as [_ ->].
  destruct (decide (num_steps st = 0%nat)) as [H0|H0].
  - rewrite (bool_decide_eq_true_2 _ H0), orb_true_r in H.
    destruct H as (_ & _ & _ & Hn & _). lia.
  - assert (num_steps st ≤ num_steps st')%nat; [|lia].
    destruct (_ || _).
    + destruct H as (_ & _ & _ & Hn & _). lia.
    + destruct H as (_ & Hn & _). lia.
Qed.

Lemma micro_loop_first cfg batches k st st' :
  first_step_inv st →
  for_each (micro_step cfg) st (enumerate_from k batches) = Ok st' →
  first_step_inv st'.
Proof.
  apply (for_each_invariant first_step_inv).
  intros s [i inputs] s' _ Hs H. by eapply micro_step_first.
Qed.

Lemma same_training_first st st' :
  same_training st st' → first_step_inv st → first_step_inv st'.
Proof. unfold first_step_inv. intros (_ & -> & _ & _ & _ & ->). done. Qed.

Lemma run_epoch_first cfg train_dataset valid_dataset steps_per_epoch
    st epoch st' :
  first_step_inv st →
  run_epoch cfg train_dataset valid_dataset steps_per_epoch st epoch = Ok st' →
  first_step_inv st'.
Proof.
  intros Hinv. unfold run_epoch.
  intros (st1 & [_ Hloop]%epoch_train_Ok & Hend)%bind_Ok.
  apply micro_loop_first in Hloop.
  - apply epoch_end_same in Hend as (_ & Hn & _ & Hp).
    unfold first_step_inv in *. by rewrite Hn, Hp.
  - destruct (epoch_begin_state cfg st epoch) as (Hn0 & _ & Hp0 & _).
    unfold first_step_inv in *. by rewrite Hn0, Hp0.
Qed.

Lemma mod_4_boundary (step : nat) :
  (Z.of_nat step + 1) `mod` 4 = 0 ↔ ∃ j : nat, step = (4 * j + 3)%nat.
Proof.
  split.
  - intros H. exists (Z.to_nat ((Z.of_nat step + 1) `div` 4 - 1)).
    pose proof (Z.div_mod (Z.of_nat step + 1) 4 ltac:(lia)) as Hdm. lia.
  - intros [j ->].
    replace (Z.of_nat (4 * j + 3) + 1) with ((Z.of_nat j + 1) * 4) by lia.
    apply Z.mod_mul. lia.
Qed.

(** C1: a micro-batch is taken as an accumulation boundary exactly when
    [(step + 1) mod gradient_accumulation_steps] is 0 or [num_steps] is 0.
    That decision is the [take_step] the training step gets, and the
    counters advance exactly then. [num_steps] is 0 only until the first
    batch of the whole run has been processed: within an epoch it is 0 at
    position [k] only for [k = 0] of an epoch before which no batch was
    taken. With [gradient_accumulation_steps = 4] the boundaries are the
    positions 3, 7, 11, ... and that very first step. *)
Theorem accumulation_boundary_rule (cfg : Config)
    (train_dataset : Z → nat → list (PyVal A))
    (valid_dataset : list (list (PyVal A))) (steps_per_epoch : Z) :
  (∀ step n,
     gradient_accumulation_steps cfg ≠ 0 →
     ∃ boundary,
       accumulation_step cfg step n = Ok boundary
       ∧ (boundary = true ↔
          (Z.of_nat step + 1) `mod` gradient_accumulation_steps cfg = 0
          ∨ n = 0%nat))
  ∧ (∀ st step inputs st',
       micro_step cfg st (step, inputs) = Ok st' →
       ∃ boundary r,
         accumulation_step cfg step (num_steps st) = Ok boundary
         ∧ train_fn cfg (train_state st) inputs boundary
           = Ok (train_state st', r)
         ∧ (boundary = true ↔ num_steps st' = S (num_steps st))
         ∧ (boundary = false ↔ num_steps st' = num_steps st))
  ∧ first_step_inv (initial_state cfg steps_per_epoch)
  ∧ (∀ st st', first_step_inv st →
       early_eval cfg valid_dataset st = Ok st' → first_step_inv st')
  ∧ (∀ st epoch st', first_step_inv st →
       run_epoch cfg train_dataset valid_dataset steps_per_epoch st epoch
       = Ok st' → first_step_inv st')
  ∧ (∀ st epoch batches k st1,
       first_step_inv st → (k ≤ length batches)%nat →
       for_each (micro_step cfg) (epoch_begin cfg st epoch)
         (enumerate (take k batches)) = Ok st1 →
       (num_steps st1 = 0%nat ↔ k = 0%nat ∧ pulled st = 0%nat)
       ∧ pulled st1 = (pulled st + k)%nat)
  ∧ (gradient_accumulation_steps cfg = 4 →
     ∀ step n boundary,
       accumulation_step cfg step n = Ok boundary →
       (boundary = true ↔ (∃ j : nat, step = (4 * j + 3)%nat) ∨ n = 0%nat)).
Proof.
  assert (Hdec : ∀ step n b, accumulation_step cfg step n = Ok b →
            (b = true ↔
             (Z.of_nat step + 1) `mod` gradient_accumulation_steps cfg = 0
             ∨ n = 0%nat)).
  { intros step n b [_ ->]%accumulation_step_Ok.
    by rewrite orb_true_iff, !bool_decide_eq_true. }
  split; [|split; [|split; [|split; [|split; [|split]]]]].
  - intros step n Hg.
    assert (Hb : accumulation_step cfg step n
                 = Ok (bool_decide
                         ((Z.of_nat step + 1)
                            `mod` gradient_accumulation_steps cfg = 0)
                       || bool_decide (n = 0%nat))).
    { by apply accumulation_step_Ok. }
    eexists. split; [exact Hb|]. by apply Hdec in Hb.
  - intros st step inputs st'
      (boundary & ts & loss & outputs & Hb & Ht & <- & _ & _ & _ & H)%micro_step_Ok.
    exists boundary, (loss, outputs). split; [done|]. split; [done|].
    destruct boundary.
    + destruct H as (_ & _ & _ & -> & _). split; split; (done || lia).
    + destruct H as (_ & -> & _). split; split; (done || lia).
  - done.
  - intros st st' Hinv H. unfold early_eval in H.
    destruct (skip_early_eval cfg).
    + by injection H as <-.
    + apply fmap_Ok in H as ([st0 logs] & Hev & ->).
      apply evaluate_Ok in Hev as (Hs & _). simpl.
      by eapply same_training_first.
  - intros st epoch st'. apply run_epoch_first.
  - intros st epoch batches k st1 Hinv Hk Hloop.
    destruct (epoch_begin_state cfg st epoch) as (Hn0 & _ & Hp0 & _).
    assert (Hinv0 : first_step_inv (epoch_begin cfg st epoch)).
    { unfold first_step_inv in *. by rewrite Hn0, Hp0. }
    pose proof (micro_loop_first _ _ _ _ _ Hinv0 Hloop) as Hinv1.
    apply micro_loop_Ok in Hloop as (Hp1 & _).
    rewrite length_take in Hp1. unfold first_step_inv in Hinv1.
    split; [|lia]. rewrite Hinv1. lia.
  - intros Hg step n boundary Hb. rewrite (Hdec _ _ _ Hb), Hg.
    by rewrite mod_4_boundary.
Qed.

(** *** Batches taken and logs sent *)

Lemma evaluate_without_callbacks cfg valid_dataset st st' logs :
  evaluate cfg valid_dataset false st = Ok (st', logs) →
  events st' = events st ++ [WandbLog logs (num_steps st)].
Proof.
  unfold evaluate. intros (st1 & Hloop & [= <- <-])%bind_Ok. simpl in *.
  assert (Hst1 : events st1 = events st ∧ num_steps st1 = num_steps st).
  { revert Hloop. apply (for_each_invariant
      (λ s, events s = events st ∧ num_steps s = num_steps st)); [|done].
    intros s [i inputs] s' _ [He Hn] H. unfold evaluate_batch in H. simpl in H.
    apply bind_Ok in H as ([loss outputs] & _ & H).
    apply bind_Ok in H as (dicts & _ & [= <-]). done. }
  destruct Hst1 as [-> ->]. done.
Qed.

Lemma with_val_prefix_keys (logs : gmap string Qc) key :
  is_Some (with_val_prefix logs !! key) → ∃ k, key = "val_" +:+ k.
Proof.
  intros [v Hv]. unfold with_val_prefix in Hv.
  apply (lookup_kmap_Some val_prefix) in Hv as (k & -> & _). by exists k.
Qed.

(** C3 (amended): an epoch takes exactly
    [steps_per_epoch * gradient_accumulation_steps] batches from the
    training source and then makes one evaluation pass over the whole
    validation source, logged under [val_]-prefixed names; one more such
    pass comes before the first epoch unless [skip_early_eval] is set.
    With [initial_epoch = 0], [epochs = 1],
    [gradient_accumulation_steps = 1] and [skip_early_eval] unset, the run
    sends one validation log at step 0 before training begins, then
    [steps_per_epoch] training batch logs and one more validation log, and
    [num_steps] ends at [steps_per_epoch]. *)
Theorem epoch_takes_batches_then_evaluates (cfg : Config)
    (good : TrainState → Prop)
    (train_dataset : Z → nat → list (PyVal A))
    (valid_dataset : list (list (PyVal A))) (steps_per_epoch : Z) :
  reset_ok good →
  good (train_state (initial_state cfg steps_per_epoch)) →
  0 ≤ steps_per_epoch * gradient_accumulation_steps cfg →
  (∀ epoch i, train_step_ok cfg good (train_dataset epoch i)) →
  Forall (test_step_ok cfg) valid_dataset →
  (∀ st epoch st',
     registry_ok cfg (train_metrics st) → registry_ok cfg (valid_metrics st) →
     run_epoch cfg train_dataset valid_dataset steps_per_epoch st epoch
     = Ok st' →
     pulled st'
     = (pulled st
        + Z.to_nat (steps_per_epoch * gradient_accumulation_steps cfg))%nat
     ∧ ∃ st1 st2 logs es,
         epoch_train cfg train_dataset steps_per_epoch
           (epoch_begin cfg st epoch) epoch = Ok st1
         ∧ pulled st1 = pulled st'
         ∧ evaluate cfg valid_dataset true st1 = Ok (st2, logs)
         ∧ eval_metrics cfg (weights (train_state st1)) valid_dataset
             (create_metric_map cfg) = Ok (valid_metrics st2)
         ∧ logs = with_val_prefix (create_metric_logs (valid_metrics st2))
         ∧ events st' = events st ++ es
         ∧ count_events is_val_log es = 1%nat
         ∧ WandbLog logs (num_steps st') ∈ es)
  ∧ (∀ (logs : gmap string Qc) key,
       is_Some (with_val_prefix logs !! key) → ∃ k, key = "val_" +:+ k)
  ∧ (∀ st st',
       registry_ok cfg (valid_metrics st) →
       early_eval cfg valid_dataset st = Ok st' →
       ∃ es, events st' = events st ++ es
             ∧ count_events is_val_log es
               = (if skip_early_eval cfg then 0 else 1)%nat)
  ∧ (∃ st, run_train cfg train_dataset valid_dataset steps_per_epoch = Ok st)
  ∧ (∀ st,
       run_train cfg train_dataset valid_dataset steps_per_epoch = Ok st →
       let epochs_run := Z.to_nat (epochs cfg - initial_epoch cfg) in
       count_events is_val_log (events st)
       = ((if skip_early_eval cfg then 0 else 1) + epochs_run)%nat
       ∧ count_events is_batch_log (events st) = num_steps st
       ∧ pulled st
         = (epochs_run
            * Z.to_nat (steps_per_epoch * gradient_accumulation_steps cfg))%nat)
  ∧ (initial_epoch cfg = 0 → epochs cfg = 1 →
     gradient_accumulation_steps cfg = 1 → skip_early_eval cfg = false →
     ∃ st first_logs es,
       run_train cfg train_dataset valid_dataset steps_per_epoch = Ok st
       ∧ events st
         = [WandbLog first_logs 0; OnTrainBegin] ++ es
           ++ [OnTrainEnd (training_logs st)]
       ∧ is_val_log (WandbLog first_logs 0) = true
       ∧ count_events is_val_log es = 1%nat
       ∧ count_events is_batch_log es = Z.to_nat steps_per_epoch
       ∧ count_events is_val_log (events st) = 2%nat
       ∧ count_events is_batch_log (events st) = Z.to_nat steps_per_epoch
       ∧ num_steps st = Z.to_nat steps_per_epoch
       ∧ pulled st = Z.to_nat steps_per_epoch).
Proof.
  intros Hreset Hgood Hpos Htrain Htest.
  destruct (run_train_from_total cfg good train_dataset valid_dataset
              steps_per_epoch (initial_state cfg steps_per_epoch))
    as [st_end Hrun]; [apply registry_ok_fresh|apply registry_ok_fresh|done..|].
  split; [|split; [|split; [|split; [|split]]]].
  - intros st epoch st' Hokt Hokv Hepoch.
    pose proof (run_epoch_counters _ _ _ _ _ _ _ Hepoch) as (_ & _ & Hp).
    split; [done|].
    unfold run_epoch in Hepoch. apply bind_Ok in Hepoch as (st1 & Htr & Hend).
    destruct (epoch_begin_fresh cfg st epoch Hokt Hokv) as [Hft Hfv].
    pose proof Htr as [_ Hloop]%epoch_train_Ok.
    apply micro_loop_Ok in Hloop as (Hp1 & Hv1 & _ & _ & _ & _ & es1 & He1 & _).
    pose proof (epoch_end_same _ _ _ _ _ _ Hend) as (_ & Hn2 & _ & Hp2).
    unfold epoch_end in Hend.
    apply bind_Ok in Hend as ([st2 logs] & Hev & [= <-]).
    pose proof (run_epoch_Ok cfg train_dataset valid_dataset steps_per_epoch
                  st epoch) as Heff.
    unfold run_epoch in Heff. rewrite Htr, bind_Ok_l in Heff.
    unfold epoch_end in Heff. rewrite Hev in Heff.
    destruct (Heff _ Hokt Hokv eq_refl) as [[_ _ _ _ _ _ (es & He & Hcv & _)] _].
    exists st1, st2, logs, es.
    split; [done|]. split; [by rewrite Hp2|]. split; [done|].
    pose proof Hev as (Hs & Hm & Hlogs & es2 & He2 & _)%evaluate_Ok.
    rewrite Hv1, Hfv in Hm. split; [done|]. split; [done|].
    split; [done|]. split; [done|].
    simpl in He. rewrite He2, He1 in He.
    destruct (epoch_begin_state cfg st epoch) as (_ & _ & _ & _ & _ & _ & _ & _ & He0).
    rewrite He0, <-!app_assoc in He. apply app_inv_head in He. subst es.
    simpl. destruct Hs as (_ & Hns & _). rewrite Hns.
    rewrite !elem_of_cons, !elem_of_app, !elem_of_cons. tauto.
  - intros logs key. apply with_val_prefix_keys.
  - intros st st' Hokv H.
    apply early_eval_Ok in H as (_ & _ & es & He & Hv & _); [|done].
    by exists es.
  - by exists st_end.
  - intros st Hst epochs_run. unfold run_train in Hst.
    apply run_train_from_Ok in Hst
      as (Hp & _ & _ & es & He & Hv & Hb & _);
      [|apply registry_ok_fresh|apply registry_ok_fresh].
    simpl in *. subst es. fold epochs_run in Hv, Hp.
    split; [done|]. split; [lia|done].
  - intros Hi He Hg Hskip. unfold run_train in *. pose proof Hrun as Hrun0.
    unfold run_train_from in Hrun.
    apply bind_Ok in Hrun as (st1 & Hearly & H).
    apply bind_Ok in H as (st2 & Hloop & [= <-]).
    unfold early_eval in Hearly. rewrite Hskip in Hearly.
    apply fmap_Ok in Hearly as ([st0 first_logs] & Hev & ->). simpl in Hloop.
    pose proof (evaluate_without_callbacks _ _ _ _ _ Hev) as He1. simpl in He1.
    assert (Hok0 : registry_ok cfg
                     (valid_metrics (initial_state cfg steps_per_epoch)))
      by apply registry_ok_fresh.
    pose proof (evaluate_pass cfg _ _ _ _ _ Hok0 Hev)
      as ((Hts & Hn & _ & Htm & _ & Hp) & Hokv1 & es1 & He1' & Hv1 & _).
    simpl in *. rewrite He1 in He1'. apply (app_inv_head []) in He1'. subst es1.
    apply epochs_loop_Ok in Hloop; [|simpl; rewrite Htm; apply registry_ok_fresh
                                    |done].
    rewrite length_py_range, Hi, He in Hloop. simpl in Hloop.
    destruct Hloop as [_ Hp2 Hn2 Hg2 _ _ (es2 & He2 & Hv2 & Hb2 & _)].
    simpl in *. specialize (Hg2 Hg). rewrite Hg, Z.mul_1_r in Hp2.
    exists (emit (OnTrainEnd (training_logs st2)) st2), first_logs, es2.
    split; [exact Hrun0|]. simpl.
    split; [by rewrite He2, He1, <-!app_assoc|].
    assert (Hfirst : is_val_log (WandbLog first_logs 0) = true).
    { unfold count_events in Hv1. rewrite filter_cons, filter_nil in Hv1.
      destruct (decide (is_val_log (WandbLog first_logs 0) = true)); [done|].
      simpl in Hv1. lia. }
    split; [done|]. split; [done|]. split; [lia|].
    rewrite He2, He1, !count_events_app, Hv2, Hb2.
    unfold count_events at 1 2 3 4 5 6. rewrite !filter_cons, !filter_nil, Hfirst.
    assert (Hnb : is_batch_log (WandbLog first_logs 0) = false).
    { apply evaluate_Ok in Hev as (_ & _ & -> & _).
      by destruct (val_log_kind cfg (valid_metrics st0) 0 Hokv1) as (_ & ? & _). }
    rewrite Hnb. simpl. lia.
Qed.

(** *** How many updates an epoch makes *)

Lemma div_succ_boundary (g k : Z) :
  0 < g → 0 ≤ k →
  (k + 1) `div` g
  = k `div` g + (if bool_decide ((k + 1) `mod` g = 0) then 1 else 0).
Proof.
  intros Hg Hk.
  pose proof (Z.div_mod k g ltac:(lia)) as Hk1.
  pose proof (Z.mod_pos_bound k g Hg) as Hk2.
  pose proof (Z.div_mod (k + 1) g ltac:(lia)) as Hs1.
  pose proof (Z.mod_pos_bound (k + 1) g Hg) as Hs2.
  destruct (bool_decide_reflect ((k + 1) `mod` g = 0)) as [H0|H0]; nia.
Qed.

Lemma early_eval_same_training cfg valid_dataset st st' :
  early_eval cfg valid_dataset st = Ok st' → same_training st st'.
Proof.
  unfold early_eval. destruct (skip_early_eval cfg).
  - intros [= <-]. by repeat split.
  - intros ([st0 logs] & Hev & ->)%fmap_Ok.
    by apply evaluate_Ok in Hev as (Hs & _).
Qed.

(** Once [num_steps] has left 0, the boundaries among the positions
    [k, k + m) are the multiples of [gradient_accumulation_steps] among
    [k + 1, ..., k + m]. *)
Lemma micro_loop_count cfg batches k st st' :
  0 < gradient_accumulation_steps cfg →
  for_each (micro_step cfg) st (enumerate_from k batches) = Ok st' →
  num_steps st ≠ 0%nat →
  Z.of_nat (num_steps st')
  = Z.of_nat (num_steps st)
    + ((Z.of_nat k + Z.of_nat (length batches))
         `div` gradient_accumulation_steps cfg
       - Z.of_nat k `div` gradient_accumulation_steps cfg).
Proof.
  intros Hg. revert k st. induction batches as [|inputs batches IH]; intros k st.
  - intros [= <-] _. simpl. rewrite Z.add_0_r. lia.
  - cbn [enumerate_from for_each]. intros (st1 & H1 & H2)%bind_Ok Hn.
    apply micro_step_Ok in H1
      as (boundary & ts & loss & outputs & Hb & _ & _ & _ & _ & _ & H).
    apply accumulation_step_Ok in Hb as [_ ->].
    rewrite (bool_decide_eq_false_2 (num_steps st = 0%nat)), orb_false_r in H
      by done.
    pose proof (div_succ_boundary (gradient_accumulation_steps cfg)
                  (Z.of_nat k) Hg ltac:(lia)) as Hdiv.
    assert (Hn1 : Z.of_nat (num_steps st1)
                  = Z.of_nat (num_steps st)
                    + (if bool_decide ((Z.of_nat k + 1)
                                         `mod` gradient_accumulation_steps cfg = 0)
                       then 1 else 0)).
    { destruct (bool_decide _).
      - destruct H as (dicts & _ & _ & -> & _). lia.
      - destruct H as (_ & -> & _). lia. }
    apply IH in H2; [|destruct (bool_decide _); lia].
    rewrite H2, Hn1, <-Z.add_assoc. f_equal. simpl length.
    replace (Z.of_nat (S k)) with (Z.of_nat k + 1) by lia.
    replace (Z.of_nat k + Z.of_nat (S (length batches)))
      with (Z.of_nat k + 1 + Z.of_nat (length batches)) by lia.
    rewrite Hdiv. lia.
Qed.

(** While [num_steps] is 0 the first batch is a boundary whatever its
    position. *)
Lemma micro_loop_count_first cfg inputs batches k st st' :
  0 < gradient_accumulation_steps cfg →
  for_each (micro_step cfg) st (enumerate_from k (inputs :: batches)) = Ok st' →
  num_steps st = 0%nat →
  Z.of_nat (num_steps st')
  = 1 + ((Z.of_nat k + 1 + Z.of_nat (length batches))
           `div` gradient_accumulation_steps cfg
         - (Z.of_nat k + 1) `div` gradient_accumulation_steps cfg).
Proof.
  intros Hg. cbn [enumerate_from for_each]. intros (st1 & H1 & H2)%bind_Ok Hn.
  apply micro_step_Ok in H1
    as (boundary & ts & loss & outputs & Hb & _ & _ & _ & _ & _ & H).
  apply accumulation_step_Ok in Hb as [_ ->].
  rewrite (bool_decide_eq_true_2 (num_steps st = 0%nat)), orb_true_r in H by done.
  destruct H as (dicts & _ & _ & Hn1 & _).
  apply micro_loop_count in H2; [|done|lia]. rewrite H2, Hn1, Hn.
  replace (Z.of_nat (S k)) with (Z.of_nat k + 1) by lia. lia.
Qed.

Lemma run_epoch_num_steps cfg train_dataset valid_dataset steps_per_epoch
    st epoch st' :
  0 < gradient_accumulation_steps cfg →
  run_epoch cfg train_dataset valid_dataset steps_per_epoch st epoch = Ok st' →
  0 ≤ steps_per_epoch
  ∧ num_steps st'
    = (num_steps st + Z.to_nat steps_per_epoch
       + (if bool_decide (num_steps st = 0%nat ∧ (1 ≤ steps_per_epoch)%Z
                          ∧ (2 ≤ gradient_accumulation_steps cfg)%Z)
          then 1 else 0))%nat.
Proof.
  intros Hg. unfold run_epoch.
  intros (st1 & [Hpos Hloop]%epoch_train_Ok & Hend)%bind_Ok.
  destruct (epoch_begin_state cfg st epoch) as (Hn0 & _).
  apply epoch_end_same in Hend as (_ & Hn2 & _).
  assert (Hspe : 0 ≤ steps_per_epoch) by nia. split; [done|].
  rewrite Hn2. clear Hn2 st'.
  assert (Hlen : Z.of_nat (length (epoch_batches cfg train_dataset
                                     steps_per_epoch epoch))
                 = steps_per_epoch * gradient_accumulation_steps cfg).
  { unfold epoch_batches. rewrite length_fmap, length_seq. lia. }
  unfold enumerate in Hloop.
  destruct (decide (num_steps st = 0%nat)) as [Hz|Hnz].
  - destruct (epoch_batches cfg train_dataset steps_per_epoch epoch)
      as [|inputs batches] eqn:Hb.
    + injection Hloop as <-. simpl in Hlen.
      assert (steps_per_epoch = 0) as -> by nia.
      rewrite Hn0, bool_decide_eq_false_2 by lia. simpl. lia.
    + apply micro_loop_count_first in Hloop; [|done|by rewrite Hn0].
      simpl length in Hlen.
      replace (Z.of_nat 0 + 1 + Z.of_nat (length batches))
        with (steps_per_epoch * gradient_accumulation_steps cfg) in Hloop by lia.
      rewrite Z.div_mul in Hloop by lia. simpl in Hloop.
      assert (1 ≤ steps_per_epoch) by nia.
      destruct (decide (gradient_accumulation_steps cfg = 1)) as [H1|H1].
      * rewrite H1 in Hloop. rewrite Z.div_1_r in Hloop.
        rewrite bool_decide_eq_false_2 by lia. lia.
      * rewrite Z.div_small in Hloop by lia.
        rewrite bool_decide_eq_true_2 by lia. lia.
  - apply micro_loop_count in Hloop; [|done|by rewrite Hn0].
    rewrite Hlen, Hn0 in Hloop. change (Z.of_nat 0) with 0 in Hloop.
    rewrite Z.add_0_l, Z.div_mul, Z.div_0_l in Hloop by lia.
    rewrite bool_decide_eq_false_2 by tauto. lia.
Qed.

Lemma epochs_loop_num_steps cfg train_dataset valid_dataset steps_per_epoch
    epoch_list st st' :
  0 < gradient_accumulation_steps cfg →
  for_each (run_epoch cfg train_dataset valid_dataset steps_per_epoch) st
    epoch_list = Ok st' →
  num_steps st'
  = (num_steps st + length epoch_list * Z.to_nat steps_per_epoch
     + (if bool_decide (num_steps st = 0%nat ∧ epoch_list ≠ []
                        ∧ (1 ≤ steps_per_epoch)%Z
                        ∧ (2 ≤ gradient_accumulation_steps cfg)%Z)
        then 1 else 0))%nat.
Proof.
  intros Hg. revert st. induction epoch_list as [|epoch epoch_list IH]; intros st.
  - intros [= <-]. rewrite bool_decide_eq_false_2 by tauto. simpl. lia.
  - cbn [for_each]. intros (st1 & H1 & H2)%bind_Ok.
    apply run_epoch_num_steps in H1 as [Hspe H1]; [|done].
    apply IH in H2. rewrite H2, H1. simpl length.
    repeat match goal with
           | |- context [bool_decide ?P] => destruct (bool_decide_reflect P)
           end; try lia; try (exfalso; intuition (congruence || lia)).
Qed.

(** The number of updates. An epoch has [steps_per_epoch *
    gradient_accumulation_steps] micro-batches, of which every
    [gradient_accumulation_steps]-th is a boundary: [steps_per_epoch]
    boundaries. The very first micro-batch of a run is a boundary as well
    (line 356), and for [gradient_accumulation_steps >= 2] it is not one of
    those. So the epoch that starts with [num_steps = 0] makes
    [steps_per_epoch + 1] updates and every other epoch [steps_per_epoch];
    a run from epoch 0 ends with [epochs * steps_per_epoch + 1] updates,
    one more than the [total_train_steps] of line 164 the optimizer was
    made for. With [gradient_accumulation_steps = 1], or with no batch in
    an epoch, there is no such extra update. *)
Theorem first_epoch_makes_one_more_update (cfg : Config)
    (train_dataset : Z → nat → list (PyVal A))
    (valid_dataset : list (list (PyVal A))) (steps_per_epoch : Z) :
  0 < gradient_accumulation_steps cfg →
  (∀ st epoch st',
     run_epoch cfg train_dataset valid_dataset steps_per_epoch st epoch
     = Ok st' →
     num_steps st'
     = (num_steps st + Z.to_nat steps_per_epoch
        + (if bool_decide (num_steps st = 0%nat ∧ (1 ≤ steps_per_epoch)%Z
                           ∧ (2 ≤ gradient_accumulation_steps cfg)%Z)
           then 1 else 0))%nat
     ∧ local_step st' = (num_steps st' - num_steps st)%nat)
  ∧ (∀ st,
       run_train cfg train_dataset valid_dataset steps_per_epoch = Ok st →
       num_steps st
       = (Z.to_nat (epochs cfg - initial_epoch cfg) * Z.to_nat steps_per_epoch
          + (if bool_decide ((initial_epoch cfg < epochs cfg)%Z
                             ∧ (1 ≤ steps_per_epoch)%Z
                             ∧ (2 ≤ gradient_accumulation_steps cfg)%Z)
             then 1 else 0))%nat)
  ∧ (∀ st,
       run_train cfg train_dataset valid_dataset steps_per_epoch = Ok st →
       initial_epoch cfg = 0 → 1 ≤ epochs cfg → 1 ≤ steps_per_epoch →
       2 ≤ gradient_accumulation_steps cfg →
       Z.of_nat (num_steps st) = epochs cfg * steps_per_epoch + 1).
Proof.
  intros Hg.
  assert (Hrun : ∀ st,
    run_train cfg train_dataset valid_dataset steps_per_epoch = Ok st →
    num_steps st
    = (Z.to_nat (epochs cfg - initial_epoch cfg) * Z.to_nat steps_per_epoch
       + (if bool_decide ((initial_epoch cfg < epochs cfg)%Z
                          ∧ (1 ≤ steps_per_epoch)%Z
                          ∧ (2 ≤ gradient_accumulation_steps cfg)%Z)
          then 1 else 0))%nat).
  { intros st. unfold run_train, run_train_from.
    intros (st1 & Hearly & H)%bind_Ok.
    apply bind_Ok in H as (st2 & Hloop & [= <-]).
    apply early_eval_same_training in Hearly as (_ & Hn1 & _).
    apply epochs_loop_num_steps in Hloop; [|done]. simpl in *.
    rewrite Hloop, Hn1, length_py_range.
    assert (Hne : py_range (initial_epoch cfg) (epochs cfg) ≠ []
                  ↔ initial_epoch cfg < epochs cfg).
    { rewrite <-length_zero_iff_nil, length_py_range. lia. }
    repeat match goal with
           | |- context [bool_decide ?P] => destruct (bool_decide_reflect P)
           end; try lia; exfalso; tauto. }
  split; [|split; [done|]].
  - intros st epoch st' Hepoch.
    pose proof (run_epoch_counters _ _ _ _ _ _ _ Hepoch) as (_ & Hl & _).
    apply run_epoch_num_steps in Hepoch as [_ Hn]; [|done]. done.
  - intros st Hst Hi He Hs Hg2. rewrite (Hrun st Hst).
    rewrite bool_decide_eq_true_2 by lia. rewrite Hi. nia.
Qed.

(** *** The optimizer's count of its updates *)

Lemma micro_step_iterations cfg st step inputs st' :
  distribute cfg = false →
  micro_step cfg st (step, inputs) = Ok st' →
  (iterations (train_state st') + num_steps st
   = iterations (train_state st) + num_steps st')%nat.
Proof.
  intros Hd H.
  apply micro_step_Ok in H
    as (boundary & ts & loss & outputs & _ & Htrain & <- & _ & _ & _ & H).
  unfold train_fn in Htrain. rewrite Hd in Htrain.
  apply train_step_Ok in Htrain as (wrapped & sums & _ & _ & _ & ->).
  unfold after_step. destruct boundary.
  - destruct H as (dicts & _ & _ & -> & _). simpl. lia.
  - destruct H as (_ & -> & _). simpl. lia.
Qed.

Lemma run_epoch_iterations cfg train_dataset valid_dataset steps_per_epoch
    st epoch st' :
  distribute cfg = false →
  run_epoch cfg train_dataset valid_dataset steps_per_epoch st epoch = Ok st' →
  (iterations (train_state st') + num_steps st
   = iterations (train_state st) + num_steps st')%nat.
Proof.
  intros Hd. unfold run_epoch.
  intros (st1 & [_ Hloop]%epoch_train_Ok & Hend)%bind_Ok.
  destruct (epoch_begin_state cfg st epoch)
    as (Hn0 & _ & _ & _ & _ & _ & _ & Hi0 & _).
  apply epoch_end_same in Hend as (-> & -> & _).
  rewrite <-Hn0, <-Hi0.
  eapply (for_each_invariant
            (λ s, (iterations (train_state s)
                   + num_steps (epoch_begin cfg st epoch)
                   = iterations (train_state (epoch_begin cfg st epoch))
                     + num_steps s)%nat)); [|reflexivity|exact Hloop].
  intros s [step inputs] s' _ Hs Hstep.
  apply micro_step_iterations in Hstep; [lia|done].
Qed.

Lemma epochs_loop_iterations cfg train_dataset valid_dataset steps_per_epoch
    epoch_list st st' :
  distribute cfg = false →
  for_each (run_epoch cfg train_dataset valid_dataset steps_per_epoch) st
    epoch_list = Ok st' →
  (iterations (train_state st') + num_steps st
   = iterations (train_state st) + num_steps st')%nat.
Proof.
  intros Hd H.
  eapply (for_each_invariant
            (λ s, (iterations (train_state s) + num_steps st
                   = iterations (train_state st) + num_steps s)%nat));
    [|reflexivity|exact H].
  intros s epoch s' _ Hs Hepoch.
  apply run_epoch_iterations in Hepoch; [lia|done].
Qed.

(** In a run on one replica every global step is one update of the
    optimizer and the other way round: [optimizer.iterations] and
    [num_steps] go up together, by one on every accumulation boundary
    and nowhere else, so that at the end of [run_train] they are equal.
    The learning rate logged for step [num_steps] (line 375) is the one of
    the update just applied. *)
Theorem optimizer_iterations_follow_num_steps (cfg : Config)
    (train_dataset : Z → nat → list (PyVal A))
    (valid_dataset : list (list (PyVal A))) (steps_per_epoch : Z) :
  distribute cfg = false →
  (∀ st step inputs st',
     micro_step cfg st (step, inputs) = Ok st' →
     (iterations (train_state st') + num_steps st
      = iterations (train_state st) + num_steps st')%nat)
  ∧ (∀ st st',
       run_train_from cfg train_dataset valid_dataset steps_per_epoch st
       = Ok st' →
       (iterations (train_state st') + num_steps st
        = iterations (train_state st) + num_steps st')%nat)
  ∧ (∀ st,
       run_train cfg train_dataset valid_dataset steps_per_epoch = Ok st →
       iterations (train_state st) = num_steps st).
Proof.
  intros Hd.
  assert (Hfrom : ∀ st st',
    run_train_from cfg train_dataset valid_dataset steps_per_epoch st = Ok st' →
    (iterations (train_state st') + num_steps st
     = iterations (train_state st) + num_steps st')%nat).
  { intros st st'. unfold run_train_from. intros (st1 & Hearly & H)%bind_Ok.
    apply bind_Ok in H as (st2 & Hloop & [= <-]).
    apply early_eval_same_training in Hearly as (Hts & Hn & _).
    apply epochs_loop_iterations in Hloop; [|done].
    simpl in *. rewrite Hts, Hn in Hloop. done. }
  split; [|split; [done|]].
  - intros st step inputs st'. by apply micro_step_iterations.
  - intros st Hst. apply Hfrom in Hst. simpl in Hst. lia.
Qed.

(** *** The steps of the logs *)

(** The steps passed to [wandb.log], in the order of the calls, and
    those of the training batch logs among them. *)
Definition log_steps (es : list Event) : list nat :=
  omap (λ e, match e with WandbLog _ step => Some step | _ => None end) es.

Definition batch_log_steps (es : list Event) : list nat :=
  log_steps (filter (λ e, is_batch_log e = true) es).

(** From [st] to [st'] events were only added, the logs among them are
    at steps between the two values of [num_steps] and in ascending order,
    and the batch logs are one for each step taken. *)
Definition logs_advance (st st' : State) : Prop :=
  (num_steps st ≤ num_steps st')%nat
  ∧ ∃ es, events st' = events st ++ es
          ∧ Forall (λ n, num_steps st ≤ n ≤ num_steps st')%nat (log_steps es)
          ∧ StronglySorted le (log_steps es)
          ∧ batch_log_steps es
            = seq (num_steps st) (num_steps st' - num_steps st).

Lemma log_steps_app es1 es2 :
  log_steps (es1 ++ es2) = log_steps es1 ++ log_steps es2.
Proof. apply omap_app. Qed.

Lemma batch_log_steps_app es1 es2 :
  batch_log_steps (es1 ++ es2) = batch_log_steps es1 ++ batch_log_steps es2.
Proof. unfold batch_log_steps. by rewrite filter_app, log_steps_app. Qed.

Lemma log_steps_quiet es : quiet es → log_steps es = [].
Proof.
  induction 1 as [|e es He _ IH]; [done|].
  destruct e; simpl in *; try done.
Qed.

Lemma batch_log_steps_quiet es : quiet es → batch_log_steps es = [].
Proof.
  induction 1 as [|e es He _ IH]; [done|].
  unfold batch_log_steps in *. rewrite filter_cons.
  destruct (decide (is_batch_log e = true)) as [Hb|]; [|done].
  apply batch_log_is_wandb in Hb. congruence.
Qed.

Lemma logs_advance_quiet st st' es :
  events st' = events st ++ es → quiet es → num_steps st' = num_steps st →
  logs_advance st st'.
Proof.
  intros He Hq Hn. split; [lia|]. exists es. split; [done|].
  rewrite (log_steps_quiet es Hq), (batch_log_steps_quiet es Hq), Hn, Nat.sub_diag.
  split; [constructor|]. split; [constructor|done].
Qed.

Lemma logs_advance_refl st : logs_advance st st.
Proof.
  apply (logs_advance_quiet st st []); [by rewrite app_nil_r|constructor|done].
Qed.

Lemma logs_advance_trans st1 st2 st3 :
  logs_advance st1 st2 → logs_advance st2 st3 → logs_advance st1 st3.
Proof.
  intros (Hn1 & es1 & He1 & Hb1 & Hs1 & Hq1) (Hn2 & es2 & He2 & Hb2 & Hs2 & Hq2).
  split; [lia|]. exists (es1 ++ es2).
  split; [by rewrite He2, He1, <-app_assoc|].
  rewrite log_steps_app, batch_log_steps_app, Hq1, Hq2.
  split; [|split].
  - apply Forall_app. split; (eapply Forall_impl; [eassumption|]); simpl; lia.
  - apply StronglySorted_app. split; [|done].
    intros x1 x2 Hx1 Hx2.
    apply (proj1 (Forall_forall _ _) Hb1) in Hx1.
    apply (proj1 (Forall_forall _ _) Hb2) in Hx2. simpl in *. lia.
  - replace (num_steps st3 - num_steps st1)%nat
      with ((num_steps st2 - num_steps st1)
            + (num_steps st3 - num_steps st2))%nat by lia.
    rewrite seq_app. do 2 f_equal. lia.
Qed.

Lemma micro_step_logs cfg st step inputs st' :
  registry_ok cfg (train_metrics st) →
  micro_step cfg st (step, inputs) = Ok st' → logs_advance st st'.
Proof.
  intros Hok (boundary & ts & loss & outputs & _ & _ & _ & _ & _ & _ & H)%micro_step_Ok.
  destruct boundary.
  - destruct H as (dicts & Hd & _ & Hn & _ & He).
    pose proof (assign_new_metrics_ok _ _ _ _ _ Hok Hd) as Hok'.
    destruct (registry_log_kind cfg dicts (num_steps st) Hok') as (Hb & _).
    split; [lia|]. eexists. split; [exact He|].
    unfold batch_log_steps, boundary_events. rewrite !filter_cons, filter_nil.
    rewrite Hb, Hn. simpl.
    replace (S (num_steps st) - num_steps st)%nat with 1%nat by lia.
    split; [repeat constructor; lia|].
    split; [repeat constructor; lia|done].
  - destruct H as (_ & Hn & _ & He).
    apply (logs_advance_quiet st st' []); [by rewrite app_nil_r|constructor|done].
Qed.

Lemma micro_loop_logs cfg batches k st st' :
  registry_ok cfg (train_metrics st) →
  for_each (micro_step cfg) st (enumerate_from k batches) = Ok st' →
  logs_advance st st'.
Proof.
  intros Hok H.
  refine (proj2 (for_each_invariant
                   (λ s, registry_ok cfg (train_metrics s) ∧ logs_advance st s)
                   _ _ _ st st' (conj Hok (logs_advance_refl st)) H)).
  intros s [step inputs] s' _ [Hoks Hs] Hstep. split.
  - by apply micro_step_frame in Hstep as (_ & _ & _ & _ & _ & Hreg & _); auto.
  - eapply logs_advance_trans; [exact Hs|]. by eapply micro_step_logs.
Qed.

Lemma evaluate_logs cfg valid_dataset rc st st' logs :
  registry_ok cfg (valid_metrics st) →
  evaluate cfg valid_dataset rc st = Ok (st', logs) → logs_advance st st'.
Proof.
  intros Hok Hev.
  pose proof (evaluate_pass _ _ _ _ _ _ Hok Hev) as ((_ & Hn & _) & Hok' & _).
  apply evaluate_Ok in Hev as (_ & _ & -> & es & He & Hq).
  destruct (val_log_kind cfg (valid_metrics st') (num_steps st) Hok')
    as (_ & Hb & _).
  split; [lia|]. eexists. split; [exact He|].
  rewrite log_steps_app, batch_log_steps_app.
  rewrite (log_steps_quiet es Hq), (batch_log_steps_quiet es Hq).
  unfold batch_log_steps. rewrite filter_cons, filter_nil.
  rewrite decide_False by (rewrite Hb; done). rewrite Hn, Nat.sub_diag. simpl.
  split; [repeat constructor; lia|]. split; [repeat constructor|done].
Qed.

Lemma epoch_end_inv cfg valid_dataset steps_per_epoch st epoch st' :
  epoch_end cfg valid_dataset steps_per_epoch st epoch = Ok st' →
  ∃ st2 eval_logs,
    evaluate cfg valid_dataset true st = Ok (st2, eval_logs)
    ∧ train_state st' = train_state st2 ∧ num_steps st' = num_steps st2
    ∧ local_step st' = local_step st2 ∧ pulled st' = pulled st2
    ∧ train_metrics st' = train_metrics st2
    ∧ valid_metrics st' = valid_metrics st2
    ∧ training_logs st'
      = Some (eval_logs ∪ create_metric_logs (train_metrics st))
    ∧ events st'
      = events st2
        ++ [ProgbarUpdate steps_per_epoch
              (eval_logs ∪ create_metric_logs (train_metrics st)) true;
            OnEpochEnd epoch
              (eval_logs ∪ create_metric_logs (train_metrics st))].
Proof.
  unfold epoch_end. intros ([st2 eval_logs] & Hev & [= <-])%bind_Ok.
  exists st2, eval_logs. simpl. repeat (split; [done|]).
  by rewrite <-app_assoc.
Qed.

Lemma run_epoch_logs cfg train_dataset valid_dataset steps_per_epoch
    st epoch st' :
  registry_ok cfg (train_metrics st) → registry_ok cfg (valid_metrics st) →
  run_epoch cfg train_dataset valid_dataset steps_per_epoch st epoch = Ok st' →
  logs_advance st st'.
Proof.
  intros Hokt Hokv. unfold run_epoch.
  intros (st1 & [_ Hloop]%epoch_train_Ok & Hend)%bind_Ok.
  destruct (epoch_begin_state cfg st epoch)
    as (Hn0 & _ & _ & _ & Htm0 & Hvm0 & _ & _ & He0).
  destruct (registry_ok_reset cfg _ Hokt) as [_ Hokt0].
  destruct (registry_ok_reset cfg _ Hokv) as [_ Hokv0].
  rewrite <-Htm0 in Hokt0. rewrite <-Hvm0 in Hokv0.
  pose proof (micro_loop_Ok _ _ _ _ _ Hloop) as (_ & Hv1 & _).
  apply micro_loop_logs in Hloop; [|done].
  apply epoch_end_inv in Hend
    as (st2 & eval_logs & Hev & _ & Hn2 & _ & _ & _ & _ & _ & He2).
  apply evaluate_logs in Hev; [|by rewrite Hv1].
  eapply logs_advance_trans;
    [apply (logs_advance_quiet st (epoch_begin cfg st epoch) _ He0);
     [by repeat constructor|done]|].
  eapply logs_advance_trans; [exact Hloop|].
  eapply logs_advance_trans; [exact Hev|].
  apply (logs_advance_quiet st2 st' _ He2); [by repeat constructor|done].
Qed.

Lemma epochs_loop_logs cfg train_dataset valid_dataset steps_per_epoch
    epoch_list st st' :
  registry_ok cfg (train_metrics st) → registry_ok cfg (valid_metrics st) →
  for_each (run_epoch cfg train_dataset valid_dataset steps_per_epoch) st
    epoch_list = Ok st' →
  logs_advance st st'.
Proof.
  intros Hokt Hokv H.
  refine (proj2 (for_each_invariant
                   (λ s, (registry_ok cfg (train_metrics s)
                          ∧ registry_ok cfg (valid_metrics s))
                         ∧ logs_advance st s)
                   _ _ _ st st'
                   (conj (conj Hokt Hokv) (logs_advance_refl st)) H)).
  intros s epoch s' _ [[Ht Hv] Hs] Hepoch. split.
  - pose proof (run_epoch_Ok _ _ _ _ _ _ _ Ht Hv Hepoch) as [[] _]. done.
  - eapply logs_advance_trans; [exact Hs|]. by eapply run_epoch_logs.
Qed.

(** The calls of [wandb.log] of a run never go back in their [step]:
    each log is sent at the value [num_steps] has at that moment, which
    only grows. The training batch logs are at the steps 0, 1, ...,
    [num_steps - 1], one for each global step; the validation log of an
    epoch is sent at the step the next training batch log will have. *)
Theorem wandb_steps_never_go_back (cfg : Config)
    (train_dataset : Z → nat → list (PyVal A))
    (valid_dataset : list (list (PyVal A))) (steps_per_epoch : Z)
    (st : State) :
  run_train cfg train_dataset valid_dataset steps_per_epoch = Ok st →
  StronglySorted le (log_steps (events st))
  ∧ Forall (λ n, (n ≤ num_steps st)%nat) (log_steps (events st))
  ∧ batch_log_steps (events st) = seq 0 (num_steps st).
Proof.
  unfold run_train, run_train_from. intros (st1 & Hearly & H)%bind_Ok.
  apply bind_Ok in H as (st2 & Hloop & [= <-]).
  assert (Hok0 : registry_ok cfg (create_metric_map cfg))
    by apply registry_ok_fresh.
  assert (H1 : logs_advance (initial_state cfg steps_per_epoch) st1).
  { unfold early_eval in Hearly. destruct (skip_early_eval cfg).
    - injection Hearly as <-.
      by apply (logs_advance_quiet _ _ [LoggingInfo "Skipping early evaluation"]);
        [|repeat constructor|].
    - apply fmap_Ok in Hearly as ([st0 logs] & Hev & ->).
      by apply evaluate_logs in Hev. }
  assert (Hok0v : registry_ok cfg
                    (valid_metrics (initial_state cfg steps_per_epoch)))
    by apply registry_ok_fresh.
  pose proof (early_eval_Ok _ _ _ _ Hok0v Hearly)
    as ((_ & _ & _ & Htm & _) & Hokv1 & _).
  apply epochs_loop_logs in Hloop; [|simpl; rewrite Htm; exact Hok0|exact Hokv1].
  assert (Hall : logs_advance (initial_state cfg steps_per_epoch)
                   (emit (OnTrainEnd (training_logs st2)) st2)).
  { eapply logs_advance_trans; [exact H1|].
    eapply logs_advance_trans;
      [by apply (logs_advance_quiet st1 (emit OnTrainBegin st1) [OnTrainBegin]);
         [|repeat constructor|]|].
    eapply logs_advance_trans; [exact Hloop|].
    by apply (logs_advance_quiet st2 _ [OnTrainEnd (training_logs st2)]);
      [|repeat constructor|]. }
  destruct Hall as (_ & es & He & Hb & Hs & Hq). simpl in *. subst es.
  rewrite Nat.sub_0_r in Hq. split; [done|]. split; [|done].
  eapply Forall_impl; [exact Hb|]. simpl. lia.
Qed.

(** *** The logs of an epoch *)

Lemma registry_has_no_val_name cfg k :
  create_metric_map cfg !! val_prefix k = None.
Proof.
  unfold create_metric_map, val_prefix.
  destruct (include_sections cfg);
    repeat (rewrite lookup_insert_ne by (simpl; discriminate));
    apply lookup_empty.
Qed.

(** The logs an epoch hands to [on_epoch_end] and keeps as
    [training_logs] (lines 382-392) hold every training metric under its
    name and every validation metric under [val_] and its name: no name
    of the registry starts with [val_], so the update of line 386
    overwrites nothing, and there is no other entry. *)
Theorem epoch_logs_keep_both_snapshots (cfg : Config)
    (valid_dataset : list (list (PyVal A))) (steps_per_epoch : Z)
    (st : State) (epoch : Z) (st' : State) :
  registry_ok cfg (train_metrics st) → registry_ok cfg (valid_metrics st) →
  epoch_end cfg valid_dataset steps_per_epoch st epoch = Ok st' →
  ∃ epoch_logs,
    training_logs st' = Some epoch_logs
    ∧ last (events st') = Some (OnEpochEnd epoch epoch_logs)
    ∧ (∀ key, is_Some (create_metric_map cfg !! key) →
         epoch_logs !! key = metric_result <$> train_metrics st !! key
         ∧ epoch_logs !! ("val_" +:+ key)
           = metric_result <$> valid_metrics st' !! key
         ∧ is_Some (epoch_logs !! key)
         ∧ is_Some (epoch_logs !! ("val_" +:+ key)))
    ∧ (∀ key, is_Some (epoch_logs !! key) →
         is_Some (create_metric_map cfg !! key)
         ∨ ∃ k, key = "val_" +:+ k ∧ is_Some (create_metric_map cfg !! k)).
Proof.
  intros Hokt Hokv Hend.
  apply epoch_end_inv in Hend
    as (st2 & eval_logs & Hev & _ & _ & _ & _ & _ & Hvm & Hlogs & He).
  pose proof (evaluate_pass _ _ _ _ _ _ Hokv Hev) as (_ & Hokv2 & _).
  apply evaluate_Ok in Hev as (_ & _ & -> & _).
  eexists. split; [exact Hlogs|]. split.
  { rewrite He, last_app. done. }
  rewrite Hvm.
  assert (Htrain_val : ∀ k, create_metric_logs (train_metrics st) !! val_prefix k
                            = None).
  { intros k. apply eq_None_not_Some.
    rewrite (registry_logs_keys cfg _ _ Hokt), registry_has_no_val_name.
    by intros [? ?]. }
  assert (Hval_plain : ∀ key, is_Some (create_metric_map cfg !! key) →
            with_val_prefix (create_metric_logs (valid_metrics st2)) !! key
            = None).
  { intros key Hkey. apply lookup_with_val_prefix_other. intros k ->.
    rewrite registry_has_no_val_name in Hkey. by destruct Hkey. }
  split.
  - intros key Hkey.
    assert (H1 : (with_val_prefix (create_metric_logs (valid_metrics st2))
                  ∪ create_metric_logs (train_metrics st)) !! key
                 = metric_result <$> train_metrics st !! key).
    { rewrite lookup_union, (Hval_plain key Hkey). unfold create_metric_logs.
      rewrite lookup_fmap. by destruct (train_metrics st !! key). }
    assert (H2 : (with_val_prefix (create_metric_logs (valid_metrics st2))
                  ∪ create_metric_logs (train_metrics st)) !! ("val_" +:+ key)
                 = metric_result <$> valid_metrics st2 !! key).
    { rewrite lookup_union. change ("val_" +:+ key) with (val_prefix key).
      rewrite lookup_with_val_prefix, Htrain_val. unfold create_metric_logs.
      rewrite lookup_fmap. by destruct (valid_metrics st2 !! key). }
    split; [done|]. split; [done|]. rewrite H1, H2.
    pose proof Hkey as [m0 Hm0].
    destruct (registry_lookup cfg _ key m0 Hokt Hm0) as (m1 & -> & _).
    destruct (registry_lookup cfg _ key m0 Hokv2 Hm0) as (m2 & -> & _).
    split; by eexists.
  - intros key [v Hv]. rewrite lookup_union in Hv.
    destruct (create_metric_logs (train_metrics st) !! key) as [v1|] eqn:Ht.
    + left. apply (registry_logs_keys cfg _ _ Hokt). by exists v1.
    + right.
      destruct (with_val_prefix (create_metric_logs (valid_metrics st2)) !! key)
        as [v2|] eqn:Hval; [|done].
      destruct (with_val_prefix_keys _ key (ex_intro _ v2 Hval)) as [k ->].
      exists k. split; [done|].
      change ("val_" +:+ k) with (val_prefix k) in Hval.
      rewrite lookup_with_val_prefix in Hval.
      apply (registry_logs_keys cfg _ _ Hokv2). by exists v2.
Qed.

(** *** The outputs [metric_fn] needs *)

(** The first output, in the order [metric_fn] reads them (lines 201-218),
    that the model did not return. *)
Definition first_missing_output (cfg : Config)
  (outputs : gmap string Tensor) : option string :=
  find (λ name, if outputs !! name then false else true) (required_outputs cfg).

Lemma bind_Raise_l {X Y} (m : result X) (f : X → result Y) (e : exn) :
  m = Raise e → (x ← m; f x) = Raise e.
Proof. by intros ->. Qed.

Lemma update_mean_from_missing cfg d name dicts key :
  registry_ok cfg dicts → create_metric_map cfg !! key = Some (Mean 0 0) →
  d !! name = None → update_mean_from d name dicts key = Raise (KeyError name).
Proof.
  intros Hok Hk Hv.
  destruct (registry_lookup cfg dicts key _ Hok Hk) as (m & Hm & _).
  unfold update_mean_from, dict_get. by rewrite Hm, Hv.
Qed.

Lemma confusion_loop_missing cfg d tn pn key keys dicts kind :
  registry_ok cfg dicts →
  create_metric_map cfg !! key = Some (Lib kind (lib_init kind)) →
  (d !! tn = None →
   for_each (update_confusion_from d tn pn) dicts (key :: keys)
   = Raise (KeyError tn))
  ∧ (is_Some (d !! tn) → d !! pn = None →
     for_each (update_confusion_from d tn pn) dicts (key :: keys)
     = Raise (KeyError pn)).
Proof.
  intros Hok Hk.
  destruct (registry_lookup cfg dicts key _ Hok Hk) as (m & Hm & _).
  cbn [for_each]. unfold update_confusion_from, dict_get. rewrite Hm. split.
  - by intros ->.
  - by intros [yt ->] ->.
Qed.

(** [metric_fn] (lines 199-220) reads [contrastive_loss],
    [cross_entropy_loss], [ohe_labels] and [probs] of the model's outputs,
    and the four [section_] ones after them with [include_sections] only.
    On a registry as [create_metric_map] builds it, the call goes through
    when all of them are there, whatever else the outputs hold, and raises
    [KeyError] with the first missing name otherwise. *)
Theorem metric_fn_stops_at_first_missing_output (cfg : Config)
    (dicts : gmap string Metric) (outputs : gmap string Tensor) :
  registry_ok cfg dicts →
  match first_missing_output cfg outputs with
  | Some missing => metric_fn cfg dicts outputs = Raise (KeyError missing)
  | None => ∃ dicts', metric_fn cfg dicts outputs = Ok dicts'
                      ∧ registry_ok cfg dicts'
  end.
Proof.
  intros Hok.
  assert (Hcl : create_metric_map cfg !! "contrastive_loss" = Some (Mean 0 0)).
  { unfold create_metric_map. by destruct (include_sections cfg). }
  assert (Hce : create_metric_map cfg !! "cross_entropy_loss"
                = Some (Mean 0 0)).
  { unfold create_metric_map. by destruct (include_sections cfg). }
  assert (Hconf : Forall (λ key, ∃ kind, create_metric_map cfg !! key
                                         = Some (Lib kind (lib_init kind)))
                    confusion_keys).
  { unfold create_metric_map, confusion_keys, f1_score.
    destruct (include_sections cfg); repeat constructor; by eexists. }
  pose proof Hconf as Hacc. apply Forall_cons in Hacc as [[kind Hacc] _].
  unfold first_missing_output, required_outputs, metric_fn.
  cbv zeta. cbn [app find].
  destruct (outputs !! "contrastive_loss") as [v1|] eqn:E1; cbn [find];
    [|apply bind_Raise_l; by apply (update_mean_from_missing cfg)].
  destruct (update_mean_from_total cfg outputs "contrastive_loss" dicts
              "contrastive_loss" Hok Hcl) as (d1 & -> & Hok1); [by eexists|].
  rewrite bind_Ok_l.
  destruct (outputs !! "cross_entropy_loss") as [v2|] eqn:E2; cbn [find];
    [|apply bind_Raise_l; by apply (update_mean_from_missing cfg)].
  destruct (update_mean_from_total cfg outputs "cross_entropy_loss" d1
              "cross_entropy_loss" Hok1 Hce) as (d2 & -> & Hok2); [by eexists|].
  rewrite bind_Ok_l.
  destruct (outputs !! "ohe_labels") as [v3|] eqn:E3; cbn [find];
    [|apply bind_Raise_l;
      by apply (confusion_loop_missing cfg outputs "ohe_labels" "probs"
                  "accuracy" _ d2 kind Hok2 Hacc)].
  destruct (outputs !! "probs") as [v4|] eqn:E4; cbn [find];
    [|apply bind_Raise_l;
      apply (confusion_loop_missing cfg outputs "ohe_labels" "probs"
               "accuracy" _ d2 kind Hok2 Hacc); [by eexists|done]].
  destruct (confusion_loop_total cfg outputs "ohe_labels" "probs"
              confusion_keys d2 Hconf) as (d3 & -> & Hok3);
    [by eexists|by eexists|done|].
  rewrite bind_Ok_l.
  destruct (include_sections cfg) eqn:Hsections; cbn [find]; [|by exists d3].
  assert (Hscl : create_metric_map cfg !! "section_contrastive_loss"
                 = Some (Mean 0 0)).
  { unfold create_metric_map. by rewrite Hsections. }
  assert (Hsce : create_metric_map cfg !! "section_cross_entropy_loss"
                 = Some (Mean 0 0)).
  { unfold create_metric_map. by rewrite Hsections. }
  assert (Hsconf : Forall (λ key, ∃ kind, create_metric_map cfg !! key
                                          = Some (Lib kind (lib_init kind)))
                     ((λ key, "section_" +:+ key) <$> confusion_keys)).
  { unfold create_metric_map, confusion_keys, f1_score. rewrite Hsections.
    repeat constructor; by eexists. }
  pose proof Hsconf as Hsacc. apply Forall_cons in Hsacc as [[skind Hsacc] _].
  destruct (outputs !! "section_contrastive_loss") as [v5|] eqn:E5; cbn [find];
    [|apply bind_Raise_l; by apply (update_mean_from_missing cfg)].
  destruct (update_mean_from_total cfg outputs "section_contrastive_loss" d3
              "section_contrastive_loss" Hok3 Hscl) as (d4 & -> & Hok4);
    [by eexists|].
  rewrite bind_Ok_l.
  destruct (outputs !! "section_cross_entropy_loss") as [v6|] eqn:E6;
    cbn [find];
    [|apply bind_Raise_l; by apply (update_mean_from_missing cfg)].
  destruct (update_mean_from_total cfg outputs "section_cross_entropy_loss" d4
              "section_cross_entropy_loss" Hok4 Hsce) as (d5 & -> & Hok5);
    [by eexists|].
  rewrite bind_Ok_l.
  destruct (outputs !! "section_ohe_labels") as [v7|] eqn:E7; cbn [find];
    [|by apply (confusion_loop_missing cfg outputs "section_ohe_labels"
                  "section_probs" _ _ d5 skind Hok5 Hsacc)].
  destruct (outputs !! "section_probs") as [v8|] eqn:E8; cbn [find];
    [|apply (confusion_loop_missing cfg outputs "section_ohe_labels"
               "section_probs" _ _ d5 skind Hok5 Hsacc); [by eexists|done]].
  apply confusion_loop_total; [done|by eexists|by eexists|done].
Qed.

End Loop.

Arguments train_state {Weights LibState} s.
Arguments num_steps {Weights LibState} s.
Arguments local_step {Weights LibState} s.
Arguments train_metrics {Weights LibState} s.
Arguments valid_metrics {Weights LibState} s.
Arguments training_logs {Weights LibState} s.
Arguments pulled {Weights LibState} s.
Arguments events {Weights LibState} s.
Arguments weights {Weights} t.
Arguments accumulator {Weights} t.
Arguments iterations {Weights} t.

(** *** A small run

    One trainable parameter, a model with fixed outputs, an optimizer that
    subtracts the gradient, library metrics that count their updates; the
    training source always yields the same triple, the validation source
    has one pair. *)

Definition demo_outputs : gmap string Tensor :=
  list_to_map [("contrastive_loss", [1%Qc]); ("cross_entropy_loss", [2%Qc]);
               ("ohe_labels", [1%Qc; 0%Qc]); ("probs", [1%Qc; 0%Qc])].

Definition demo_model (w : Qc) (inputs : list (PyVal nat)) (training : bool)
  : Tensor * gmap string Tensor :=
  ([(1 + 2)%Qc], demo_outputs).

Definition demo_gradient (w : Qc) (inputs : list (PyVal nat))
  : list (option Tensor) :=
  [Some [1%Qc]].

Definition demo_apply (w : Qc) (grads : list (option Tensor)) : Qc :=
  match grads with
  | [Some [g]] => (w - g)%Qc
  | _ => w
  end.

Definition demo_train_batch : list (PyVal nat) :=
  [PTensor 0%nat; PTuple [PTensor 1%nat; PTensor 2%nat];
   PTuple [PTensor 3%nat; PTensor 4%nat]].

Definition demo_valid : list (list (PyVal nat)) :=
  [[PTensor 0%nat; PTuple [PTensor 1%nat; PTensor 2%nat]]].

Definition demo_strategy_train (ts : TrainState Qc) (inputs : list (PyVal nat))
  (take_step : bool)
  : result (TrainState Qc * (list Tensor * gmap string (list Tensor))) :=
  Ok (ts, ([], ∅)).

Definition demo_strategy_test (w : Qc) (inputs : list (PyVal nat))
  : result (list Tensor * gmap string (list Tensor)) :=
  Ok ([], ∅).

Definition demo_run (cfg : Config) (steps_per_epoch : Z)
  : result (State Qc nat) :=
  run_train Qc nat (λ _ _, 0%Qc) demo_model demo_gradient (λ grads _, grads)
    demo_apply Qc_of_nat (λ _, 0%nat) (λ _ s _ _, S s) (λ _ s, Qc_of_nat s)
    demo_strategy_train demo_strategy_test
    cfg (λ _ _, demo_train_batch) demo_valid steps_per_epoch.

Definition run_config (initial_epoch gradient_accumulation_steps : Z)
  : Config :=
  {| num_k_fold := 5; current_fold := 0; seed := 42; batch_size := 1;
     gradient_accumulation_steps := gradient_accumulation_steps;
     epochs := 1; initial_epoch := initial_epoch;
     num_sections := 1; num_labels := 2; dynamic_datagen := false;
     include_sections := false; distribute := false; skip_early_eval := false;
     restore_checkpoint := None |}.

(** The sums line up with the one gradient of the demo model. *)
Definition demo_good (ts : TrainState Qc) : Prop :=
  accumulator ts = [] ∨ ∃ x, accumulator ts = [Some [x]].

(** What a run reports: validation logs, training batch logs, [num_steps]
    and the batches taken. *)
Definition summary (r : result (State Qc nat))
  : result (nat * nat * nat * nat) :=
  (λ st, (count_events is_val_log (events st),
          count_events is_batch_log (events st),
          num_steps st, pulled st)) <$> r.

Example demo_boundary_step :
  train_step Qc demo_model demo_gradient (λ grads _, grads) demo_apply
    (run_config 0 2)
    {| weights := 0%Qc; accumulator := [Some [1%Qc]]; iterations := 0 |}
    demo_train_batch true
  = Ok ({| weights := (- 1)%Qc; accumulator := [Some [0%Qc]]; iterations := 1 |},
        demo_model 0%Qc [] true).
Proof. vm_compute. reflexivity. Qed.

Example demo_accumulating_step :
  train_step Qc demo_model demo_gradient (λ grads _, grads) demo_apply
    (run_config 0 2)
    {| weights := 0%Qc; accumulator := [Some [1%Qc]]; iterations := 0 |}
    demo_train_batch false
  = Ok ({| weights := 0%Qc; accumulator := [Some [2%Qc]]; iterations := 0 |},
        demo_model 0%Qc [] true).
Proof. vm_compute. reflexivity. Qed.

Example demo_one_epoch :
  summary (demo_run (run_config 0 1) 3) = Ok (2, 3, 3, 3)%nat.
Proof. vm_compute. reflexivity. Qed.

(** Two steps of four micro-batches in the first epoch: boundaries at the
    positions 0, 3 and 7. *)
Example demo_first_epoch_of_four :
  summary (demo_run (run_config 0 4) 2) = Ok (2, 3, 3, 8)%nat.
Proof. vm_compute. reflexivity. Qed.

Lemma demo_reset_ok : reset_ok Qc demo_good.
Proof.
  intros [w acc n] [->|[x ->]]; [by left|right]. by exists 0%Qc.
Qed.

Lemma demo_outputs_ok cfg :
  include_sections cfg = false → outputs_ok cfg demo_outputs.
Proof.
  intros H. unfold outputs_ok, required_outputs. rewrite H.
  repeat constructor; by eexists.
Qed.

Lemma demo_train_ok cfg :
  include_sections cfg = false → distribute cfg = false →
  train_step_ok Qc demo_model demo_gradient (λ grads _, grads) demo_apply
    demo_strategy_train cfg demo_good demo_train_batch.
Proof.
  intros Hs Hd [w acc n] take_step Hgood. unfold train_fn, train_step.
  rewrite Hd, Hs. simpl.
  destruct Hgood as [Hacc|[x Hacc]]; simpl in Hacc; subst acc; simpl;
    destruct take_step; simpl; do 3 eexists;
    (split; [reflexivity|]); (split; [by apply demo_outputs_ok|]);
    unfold demo_good; simpl; eauto.
Qed.

Lemma demo_test_ok cfg :
  include_sections cfg = false → distribute cfg = false →
  Forall (test_step_ok Qc demo_model demo_strategy_test cfg) demo_valid.
Proof.
  intros Hs Hd. repeat constructor. intros w. unfold test_fn, test_step.
  rewrite Hd, Hs. simpl. do 2 eexists. split; [reflexivity|].
  by apply demo_outputs_ok.
Qed.

(** C3, as the claim states it, fails: [epochs = 1] does not make the
    run train for one epoch. Resumed at [initial_epoch = 1], with
    [gradient_accumulation_steps = 1], [skip_early_eval] unset and
    [steps_per_epoch = 3], the run sends its first validation log and
    nothing else: no training batch log, no second validation log, and
    [num_steps] stays 0. *)
Lemma resumed_run_trains_no_epoch :
  epochs (run_config 1 1) = 1
  ∧ gradient_accumulation_steps (run_config 1 1) = 1
  ∧ skip_early_eval (run_config 1 1) = false
  ∧ summary (demo_run (run_config 1 1) 3) = Ok (1, 0, 0, 0)%nat.
Proof. vm_compute. done. Qed.

Lemma epoch_takes_batches_then_evaluates_witness :
  reset_ok Qc demo_good
  ∧ demo_good (train_state (initial_state Qc nat (λ _ _, 0%Qc) (λ _, 0%nat)
                              (run_config 0 1) 3))
  ∧ 0 ≤ 3 * gradient_accumulation_steps (run_config 0 1)
  ∧ (∀ (epoch : Z) (i : nat),
       train_step_ok Qc demo_model demo_gradient (λ grads _, grads) demo_apply
         demo_strategy_train (run_config 0 1) demo_good demo_train_batch)
  ∧ Forall (test_step_ok Qc demo_model demo_strategy_test (run_config 0 1))
      demo_valid
  ∧ ∃ st,
      demo_run (run_config 0 1) 3 = Ok st
      ∧ count_events is_val_log (events st) = 2%nat
      ∧ count_events is_batch_log (events st) = 3%nat
      ∧ num_steps st = 3%nat
      ∧ pulled st = 3%nat.
Proof.
  split; [exact demo_reset_ok|].
  split; [left; reflexivity|].
  split; [simpl; lia|].
  split; [intros _ _; apply demo_train_ok; reflexivity|].
  split; [apply demo_test_ok; reflexivity|].
  destruct (epoch_takes_batches_then_evaluates Qc nat (λ _ _, 0%Qc) demo_model
              demo_gradient (λ grads _, grads) demo_apply Qc_of_nat (λ _, 0%nat)
              (λ _ s _ _, S s) (λ _ s, Qc_of_nat s)
              demo_strategy_train demo_strategy_test
              (run_config 0 1) demo_good (λ _ _, demo_train_batch) demo_valid 3
              demo_reset_ok (or_introl eq_refl) ltac:(simpl; lia)
              (λ _ _, demo_train_ok (run_config 0 1) eq_refl eq_refl)
              (demo_test_ok (run_config 0 1) eq_refl eq_refl))
    as (_ & _ & _ & _ & _ & Hscenario).
  destruct (Hscenario eq_refl eq_refl eq_refl eq_refl)
    as (st & first_logs & es & Hrun & _ & _ & _ & _ & Hv & Hb & Hn & Hp).
  exists st. split; [exact Hrun|]. split; [exact Hv|]. split; [exact Hb|].
  split; [exact Hn|exact Hp].
Defined.

Lemma first_epoch_makes_one_more_update_witness :
  0 < gradient_accumulation_steps (run_config 0 4)
  ∧ ∃ st, demo_run (run_config 0 4) 2 = Ok st ∧ num_steps st = 3%nat.
Proof.
  split; [simpl; lia|].
  destruct (demo_run (run_config 0 4) 2) as [st| |] eqn:Hrun.
  - exists st. split; [reflexivity|].
    destruct (first_epoch_makes_one_more_update Qc nat (λ _ _, 0%Qc) demo_model
                demo_gradient (λ grads _, grads) demo_apply Qc_of_nat
                (λ _, 0%nat) (λ _ s _ _, S s) (λ _ s, Qc_of_nat s)
                demo_strategy_train demo_strategy_test
                (run_config 0 4) (λ _ _, demo_train_batch) demo_valid 2
                ltac:(simpl; lia)) as (_ & Hn & _).
    exact (Hn st Hrun).
  - vm_compute in Hrun. discriminate.
  - vm_compute in Hrun. discriminate.
Defined.

Lemma optimizer_iterations_follow_num_steps_witness :
  distribute (run_config 0 4) = false
  ∧ ∃ st, demo_run (run_config 0 4) 2 = Ok st
          ∧ iterations (train_state st) = num_steps st.
Proof.
  split; [reflexivity|].
  destruct (demo_run (run_config 0 4) 2) as [st| |] eqn:Hrun.
  - exists st. split; [reflexivity|].
    destruct (optimizer_iterations_follow_num_steps Qc nat (λ _ _, 0%Qc)
                demo_model demo_gradient (λ grads _, grads) demo_apply Qc_of_nat
                (λ _, 0%nat) (λ _ s _ _, S s) (λ _ s, Qc_of_nat s)
                demo_strategy_train demo_strategy_test
                (run_config 0 4) (λ _ _, demo_train_batch) demo_valid 2
                eq_refl) as (_ & _ & Hn).
    exact (Hn st Hrun).
  - vm_compute in Hrun. discriminate.
  - vm_compute in Hrun. discriminate.
Defined.

Lemma wandb_steps_never_go_back_witness :
  ∃ st, demo_run (run_config 0 4) 2 = Ok st
        ∧ batch_log_steps (events st) = seq 0 (num_steps st).
Proof.
  destruct (demo_run (run_config 0 4) 2) as [st| |] eqn:Hrun.
  - exists st. split; [reflexivity|].
    exact (proj2 (proj2 (wandb_steps_never_go_back Qc nat (λ _ _, 0%Qc)
                           demo_model demo_gradient (λ grads _, grads) demo_apply
                           Qc_of_nat (λ _, 0%nat) (λ _ s _ _, S s)
                           (λ _ s, Qc_of_nat s)
                           demo_strategy_train demo_strategy_test
                           (run_config 0 4) (λ _ _, demo_train_batch) demo_valid 2
                           st Hrun))).
  - vm_compute in Hrun. discriminate.
  - vm_compute in Hrun. discriminate.
Defined.

(** The end of the first epoch of the small run, from the state the loop
    starts in. *)
Definition demo_epoch_end : result (State Qc nat) :=
  epoch_end Qc nat demo_model (λ _ s _ _, S s) (λ _ s, Qc_of_nat s)
    demo_strategy_test (run_config 0 4) demo_valid 2
    (initial_state Qc nat (λ _ _, 0%Qc) (λ _, 0%nat) (run_config 0 4) 2) 0.

Lemma epoch_logs_keep_both_snapshots_witness :
  ∃ st' epoch_logs,
    demo_epoch_end = Ok st'
    ∧ training_logs st' = Some epoch_logs
    ∧ is_Some (epoch_logs !! "total_loss")
    ∧ is_Some (epoch_logs !! "val_total_loss").
Proof.
  destruct demo_epoch_end as [st'| |] eqn:Hend.
  - destruct (epoch_logs_keep_both_snapshots Qc nat demo_model (λ _, 0%nat)
                (λ _ s _ _, S s) (λ _ s, Qc_of_nat s) demo_strategy_test
                (run_config 0 4) demo_valid 2
                (initial_state Qc nat (λ _ _, 0%Qc) (λ _, 0%nat)
                   (run_config 0 4) 2) 0 st'
                (registry_ok_fresh nat (λ _, 0%nat) (run_config 0 4))
                (registry_ok_fresh nat (λ _, 0%nat) (run_config 0 4))
                Hend) as (epoch_logs & Hlogs & _ & Hkeys & _).
    exists st', epoch_logs. split; [reflexivity|]. split; [exact Hlogs|].
    destruct (Hkeys "total_loss") as (_ & _ & H1 & H2).
    + eexists. vm_compute. reflexivity.
    + split; [exact H1|exact H2].
  - vm_compute in Hend. discriminate.
  - vm_compute in Hend. discriminate.
Defined.

Lemma metric_fn_stops_at_first_missing_output_witness :
  registry_ok nat (λ _, 0%nat) (run_config 0 4)
    (create_metric_map nat (λ _, 0%nat) (run_config 0 4))
  ∧ metric_fn nat (λ _ s _ _, S s) (run_config 0 4)
      (create_metric_map nat (λ _, 0%nat) (run_config 0 4))
      (delete "probs" demo_outputs)
    = Raise (KeyError "probs").
Proof.
  split; [apply registry_ok_fresh|].
  exact (metric_fn_stops_at_first_missing_output nat (λ _, 0%nat)
           (λ _ s _ _, S s) (run_config 0 4)
           (create_metric_map nat (λ _, 0%nat) (run_config 0 4))
           (delete "probs" demo_outputs)
           (registry_ok_fresh nat (λ _, 0%nat) (run_config 0 4))).
Defined.

End Train.
